(** * Wireless network wizard: the calculation engine and the explanation client

    A shallow embedding of the four calculators of the application
    ([calculateLinkBudget], [calculateCellular], [calculateRates],
    [calculateOFDM]) and of the response handling of [getExplanation].

    The calculators are written once, over an interface of JavaScript
    [Number] arithmetic, and read at two instances:
    - [num], the IEEE special values (NaN, the two infinities) around exact
      real arithmetic: rounding, overflow and the sign of zero are not
      represented;
    - [float], Rocq's primitive binary64 numbers, with the operations IEEE-754
      fixes bit for bit (addition, subtraction, multiplication, division,
      comparison, square root, ceiling) and, as a parameter, the functions
      the language leaves to the engine ([Math.log10], [Math.log2],
      [Math.pow]).

    What holds of the doubles is proved on [float], through the
    specification of the IEEE operations where special values decide and by
    evaluation where the operands are literals; [num] serves where a
    conclusion does not depend on rounding.  The bodies of the calculators
    are also given as program text, to state what they read. *)

From Stdlib Require Import Reals Lra Lia ZArith QArith Qreals Bool List String Ascii.
From Stdlib Require Import PrimFloat Uint63 SpecFloat FloatOps FloatAxioms.
From Stdlib Require DecimalString DecimalNat.
Import ListNotations.

Set Implicit Arguments.
Set Warnings "-inexact-float".

(** ** The arithmetic of JavaScript numbers, as an interface *)

Declare Scope js_scope.
Delimit Scope js_scope with js.

(** The operators [+ - * / >] on numbers, and numeric literals (a literal of
    the source is a decimal fraction, given here as a rational). *)
Class Arith (N : Type) : Type := {
  add : N -> N -> N;
  sub : N -> N -> N;
  mul : N -> N -> N;
  div : N -> N -> N;
  gtb : N -> N -> bool;
  lit : Q -> N
}.

(** The functions of the [Math] object the calculators call. *)
Class MathLib (N : Type) : Type := {
  log10 : N -> N;
  log2 : N -> N;
  pow : N -> N -> N;
  sqrt : N -> N;
  ceil : N -> N
}.

Infix "+" := add : js_scope.
Infix "-" := sub : js_scope.
Infix "*" := mul : js_scope.
Infix "/" := div : js_scope.
Infix ">?" := gtb (at level 70, no associativity) : js_scope.

(** ** WirelessCommunication.tsx *)

Record WirelessParams (N : Type) : Type := {
  sourceBitRate : N;
  samplingRate : N;
  quantizationBits : N;
  sourceEncodingRatio : N;
  channelEncodingRatio : N;
  interleaverDepth : N;
  burstLength : N
}.

Record WirelessResults (N : Type) : Type := {
  samplerRate : N;
  quantizerRate : N;
  sourceEncoderRate : N;
  channelEncoderRate : N;
  interleaverRate : N;
  burstFormatterRate : N
}.

Section DigitalChain.
Context {N : Type} {A : Arith N}.
Local Open Scope js_scope.

Definition calculateRates (params : WirelessParams N) : WirelessResults N :=
    let samplerRate := samplingRate params * quantizationBits params in
    let quantizerRate := samplerRate in
    let sourceEncoderRate := quantizerRate * sourceEncodingRatio params in
    let channelEncoderRate := sourceEncoderRate / channelEncodingRatio params in
    let interleaverRate := channelEncoderRate in
    let burstFormatterRate :=
      interleaverRate * (burstLength params / (burstLength params + lit 8.25)) in
    {| samplerRate := samplerRate;
       quantizerRate := quantizerRate;
       sourceEncoderRate := sourceEncoderRate;
       channelEncoderRate := channelEncoderRate;
       interleaverRate := interleaverRate;
       burstFormatterRate := burstFormatterRate |}.
End DigitalChain.

(** ** Index.tsx (the link-budget component it is bundled with)

    [lb_frequency] is the field [frequency] of the source; the cellular
    record below has a field of the same name. *)

Record LinkBudgetParams (N : Type) : Type := {
  transmitterPower : N;
  transmitterGain : N;
  lb_frequency : N;
  distance : N;
  receiverGain : N;
  systemLoss : N;
  fadeMargin : N;
  receiverSensitivity : N
}.

Record LinkBudgetResults (N : Type) : Type := {
  eirp : N;
  freeSpaceLoss : N;
  receivedPower : N;
  linkMargin : N;
  isLinkViable : bool
}.

Section LinkBudget.
Context {N : Type} {A : Arith N} {M : MathLib N}.
Local Open Scope js_scope.

Definition calculateLinkBudget (params : LinkBudgetParams N) : LinkBudgetResults N :=
  let eirp := transmitterPower params + transmitterGain params in
  let freeSpaceLoss :=
    lit 20 * log10 (distance params) + lit 20 * log10 (lb_frequency params) + lit 32.44 in
  let receivedPower := eirp - freeSpaceLoss + receiverGain params - systemLoss params in
  let linkMargin := receivedPower - receiverSensitivity params - fadeMargin params in
  let isLinkViable := linkMargin >? lit 0 in
  {| eirp := eirp;
     freeSpaceLoss := freeSpaceLoss;
     receivedPower := receivedPower;
     linkMargin := linkMargin;
     isLinkViable := isLinkViable |}.
End LinkBudget.

(** ** CellularDesign.tsx

    The field names [baseSationPower] and [trafficePerCell] are the
    source's. *)

Record CellularParams (N : Type) : Type := {
  coverageArea : N;
  trafficDensity : N;
  callDuration : N;
  blockingProbability : N;
  frequency : N;
  baseSationPower : N;
  mobilePower : N;
  pathLossExponent : N;
  shadowingMargin : N;
  interferenceMargin : N
}.

Record CellularResults (N : Type) : Type := {
  cellRadius : N;
  numberOfCells : N;
  trafficePerCell : N;
  channelsPerCell : N;
  cellCapacity : N;
  frequencyReuseFactor : N;
  spectrumEfficiency : N
}.

Section Cellular.
Context {N : Type} {A : Arith N} {M : MathLib N}.
Local Open Scope js_scope.

Definition calculateCellular (params : CellularParams N) : CellularResults N :=
  let maxPathLoss :=
    baseSationPower params + mobilePower params
    - shadowingMargin params - interferenceMargin params in
  let cellRadius :=
    pow (lit 10)
        ((maxPathLoss - lit 32.44 - lit 20 * log10 (frequency params))
         / (lit 10 * pathLossExponent params)) in
  let cellArea := lit 2.598 * pow cellRadius (lit 2) in
  let numberOfCells := ceil (coverageArea params / cellArea) in
  let totalTraffic := trafficDensity params * callDuration params / lit 3600 in
  let trafficePerCell := totalTraffic / numberOfCells in
  let channelsPerCell :=
    ceil (trafficePerCell + lit 3 * sqrt trafficePerCell + lit 2) in
  let cellCapacity := channelsPerCell * (lit 1 - blockingProbability params) in
  let frequencyReuseFactor :=
    ceil (pow (lit 3 * channelsPerCell / lit 30) (lit 2 / lit 3)) in
  let spectrumEfficiency := cellCapacity / (channelsPerCell * lit 0.2) in
  {| cellRadius := cellRadius;
     numberOfCells := numberOfCells;
     trafficePerCell := trafficePerCell;
     channelsPerCell := channelsPerCell;
     cellCapacity := cellCapacity;
     frequencyReuseFactor := frequencyReuseFactor;
     spectrumEfficiency := spectrumEfficiency |}.
End Cellular.

(** ** OFDMSystem.tsx *)

Record OFDMParams (N : Type) : Type := {
  subcarrierSpacing : N;
  symbolDuration : N;
  cyclicPrefixRatio : N;
  resourceElementsPerSymbol : N;
  symbolsPerResourceBlock : N;
  resourceBlocksParallel : N;
  modulationOrder : N;
  codingRate : N;
  bandwidth : N
}.

Record OFDMResults (N : Type) : Type := {
  resourceElementRate : N;
  ofdmSymbolRate : N;
  resourceBlockRate : N;
  maxTransmissionCapacity : N;
  spectralEfficiency : N
}.

Section OFDM.
Context {N : Type} {A : Arith N} {M : MathLib N}.
Local Open Scope js_scope.

(** The first local of [calculateOFDM]; it is not a field of the result. *)
Definition bitsPerResourceElement (params : OFDMParams N) : N :=
  log2 (modulationOrder params) * codingRate params.

Definition calculateOFDM (params : OFDMParams N) : OFDMResults N :=
  let bitsPerResourceElement := bitsPerResourceElement params in
  let resourceElementRate :=
    bitsPerResourceElement
    * (lit 1000 / (symbolDuration params * (lit 1 + cyclicPrefixRatio params))) in
  let ofdmSymbolRate := resourceElementRate * resourceElementsPerSymbol params in
  let resourceBlockRate := ofdmSymbolRate * symbolsPerResourceBlock params in
  let maxTransmissionCapacity := resourceBlockRate * resourceBlocksParallel params in
  let spectralEfficiency := maxTransmissionCapacity / bandwidth params in
  {| resourceElementRate := resourceElementRate;
     ofdmSymbolRate := ofdmSymbolRate;
     resourceBlockRate := resourceBlockRate;
     maxTransmissionCapacity := maxTransmissionCapacity;
     spectralEfficiency := spectralEfficiency |}.
End OFDM.

(** ** Ideal instance: IEEE special values around exact reals *)

Inductive num : Type :=
| NaN
| PInf
| NInf
| Fin (x : R).

Inductive sign : Type := Neg | Zero | Pos.

Module Ideal.
Local Open Scope R_scope.

Definition sgn (x : R) : sign :=
  match total_order_T x 0 with
  | inleft (left _) => Neg
  | inleft (right _) => Zero
  | inright _ => Pos
  end.

Definition is_finite (a : num) : bool :=
  match a with Fin _ => true | _ => false end.

Definition is_nan (a : num) : bool :=
  match a with NaN => true | _ => false end.

Definition opp (a : num) : num :=
  match a with
  | NaN => NaN
  | PInf => NInf
  | NInf => PInf
  | Fin x => Fin (- x)
  end.

Definition add (a b : num) : num :=
  match a, b with
  | NaN, _ | _, NaN => NaN
  | PInf, NInf | NInf, PInf => NaN
  | PInf, _ | _, PInf => PInf
  | NInf, _ | _, NInf => NInf
  | Fin x, Fin y => Fin (x + y)
  end.

Definition sub (a b : num) : num := add a (opp b).

(** An infinity times a finite number: the sign rule, and NaN at zero. *)
Definition scale_inf (inf : num) (y : R) : num :=
  match sgn y with
  | Pos => inf
  | Neg => opp inf
  | Zero => NaN
  end.

Definition mul (a b : num) : num :=
  match a, b with
  | NaN, _ | _, NaN => NaN
  | Fin x, Fin y => Fin (x * y)
  | Fin x, inf => scale_inf inf x
  | inf, Fin y => scale_inf inf y
  | PInf, PInf | NInf, NInf => PInf
  | PInf, NInf | NInf, PInf => NInf
  end.

(** Division.  Zero carries no sign here, so a zero divisor behaves as IEEE's
    +0: the quotient takes the sign of the dividend. *)
Definition div (a b : num) : num :=
  match a, b with
  | NaN, _ | _, NaN => NaN
  | Fin x, Fin y =>
      match sgn y with
      | Zero =>
          match sgn x with
          | Zero => NaN
          | Pos => PInf
          | Neg => NInf
          end
      | _ => Fin (x / y)
      end
  | Fin _, _ => Fin 0
  | inf, Fin y =>
      match sgn y with
      | Neg => opp inf
      | _ => inf
      end
  | _, _ => NaN
  end.

Definition gtb (a b : num) : bool :=
  match a, b with
  | NaN, _ | _, NaN => false
  | PInf, PInf => false
  | PInf, _ => true
  | _, PInf => false
  | NInf, _ => false
  | Fin _, NInf => true
  | Fin x, Fin y => if Rlt_dec y x then true else false
  end.

Definition lit (q : Q) : num := Fin (Q2R q).

(** [Math.log10] and [Math.log2]: NaN below zero, minus infinity at zero. *)
Definition log_base (b : R) (a : num) : num :=
  match a with
  | NaN | NInf => NaN
  | PInf => PInf
  | Fin x =>
      match sgn x with
      | Neg => NaN
      | Zero => NInf
      | Pos => Fin (ln x / ln b)
      end
  end.

Definition log10 : num -> num := log_base 10.
Definition log2 : num -> num := log_base 2.

Definition sqrt (a : num) : num :=
  match a with
  | NaN | NInf => NaN
  | PInf => PInf
  | Fin x =>
      match sgn x with
      | Neg => NaN
      | _ => Fin (R_sqrt.sqrt x)
      end
  end.

Definition ceil (a : num) : num :=
  match a with
  | Fin x => Fin (IZR (Zceil x))
  | _ => a
  end.

(** The integer a real is, if it is one. *)
Definition as_int (y : R) : option Z :=
  if Req_dec_T (IZR (Zfloor y)) y then Some (Zfloor y) else None.

Definition is_odd_int (y : R) : bool :=
  match as_int y with
  | Some n => Z.odd n
  | None => false
  end.

(** [Math.pow base exponent], case by case as Number::exponentiate lists
    them: a NaN or zero exponent first, then infinite and zero bases, then
    infinite exponents, and the real power at last (for a negative base only
    when the exponent is an integer). *)
Definition pow (base exponent : num) : num :=
  match exponent with
  | NaN => NaN
  | Fin y =>
      match sgn y with
      | Zero => Fin 1
      | sy =>
          match base with
          | NaN => NaN
          | PInf => match sy with Pos => PInf | _ => Fin 0 end
          | NInf =>
              match sy with
              | Pos => if is_odd_int y then NInf else PInf
              | _ => Fin 0
              end
          | Fin x =>
              match sgn x with
              | Zero => match sy with Pos => Fin 0 | _ => PInf end
              | Pos => Fin (Rpower x y)
              | Neg =>
                  match as_int y with
                  | Some n => Fin (powerRZ x n)
                  | None => NaN
                  end
              end
          end
      end
  | inf =>
      let up := match inf with PInf => true | _ => false end in
      match base with
      | NaN => NaN
      | PInf => if up then PInf else Fin 0
      | NInf => if up then PInf else Fin 0
      | Fin x =>
          match sgn x with
          | Zero => if up then Fin 0 else PInf
          | _ =>
              match total_order_T (Rabs x) 1 with
              | inleft (left _) => if up then Fin 0 else PInf
              | inleft (right _) => NaN
              | inright _ => if up then PInf else Fin 0
              end
          end
      end
  end.
End Ideal.

#[export] Instance num_Arith : Arith num := {
  add := Ideal.add;
  sub := Ideal.sub;
  mul := Ideal.mul;
  div := Ideal.div;
  gtb := Ideal.gtb;
  lit := Ideal.lit
}.

#[export] Instance num_MathLib : MathLib num := {
  log10 := Ideal.log10;
  log2 := Ideal.log2;
  pow := Ideal.pow;
  sqrt := Ideal.sqrt;
  ceil := Ideal.ceil
}.

(** ** Binary64 instance *)

Module F64.
Definition of_Z (z : Z) : float :=
  match z with
  | Zneg p => PrimFloat.opp (PrimFloat.of_uint63 (Uint63.of_Z (Zpos p)))
  | _ => PrimFloat.of_uint63 (Uint63.of_Z z)
  end.

(** A decimal literal [n/d] with [n] and [d] below 2^53 is the correctly
    rounded quotient of two exact numbers, which is the double the literal
    denotes. *)
Definition lit (q : Q) : float :=
  PrimFloat.div (of_Z (Qnum q)) (of_Z (Zpos (Qden q))).

Definition gtb (a b : float) : bool := PrimFloat.ltb b a.

(** 2^52: from here on every double is an integer. *)
Definition two52 : float := 4503599627370496%float.

(** [Math.ceil].  Adding and subtracting 2^52 rounds a magnitude below 2^52
    to the nearest integer, which is then corrected upwards or downwards; a
    result of zero keeps the sign of the argument. *)
Definition ceil (x : float) : float :=
  if PrimFloat.is_nan x || PrimFloat.is_infinity x || PrimFloat.is_zero x then x
  else
    let a := PrimFloat.abs x in
    if PrimFloat.leb two52 a then x
    else
      let t := PrimFloat.sub (PrimFloat.add a two52) two52 in
      if PrimFloat.ltb 0 x then
        if PrimFloat.ltb t a then PrimFloat.add t 1 else t
      else
        PrimFloat.opp (if PrimFloat.ltb a t then PrimFloat.sub t 1 else t).
End F64.

#[export] Instance float_Arith : Arith float := {
  add := PrimFloat.add;
  sub := PrimFloat.sub;
  mul := PrimFloat.mul;
  div := PrimFloat.div;
  gtb := F64.gtb;
  lit := F64.lit
}.

(** The functions of [Math] that the language leaves to the engine
    ("implementation-approximated"): binary64 functions of which only a few
    values are fixed. *)
Record Libm : Type := {
  libm_log10 : float -> float;
  libm_log2 : float -> float;
  libm_pow : float -> float -> float
}.

(** [Math] over binary64, on top of an engine's library; [Math.sqrt] and
    [Math.ceil] are the IEEE operations. *)
Definition float_MathLib (engine : Libm) : MathLib float := {|
  log10 := libm_log10 engine;
  log2 := libm_log2 engine;
  pow := libm_pow engine;
  sqrt := PrimFloat.sqrt;
  ceil := F64.ceil
|}.

(** Values every engine returns exactly: the logarithm of 1 is +0 and any
    number to the power 0 is 1 (both listed case by case in the language
    standard), and 1 squared is 1. *)
Definition exact_cases (engine : Libm) : Prop :=
  libm_log10 engine 1%float = 0%float
  /\ (forall x : float, libm_pow engine x 0%float = 1%float)
  /\ libm_pow engine 1%float 2%float = 1%float.

(** A library that knows these values and nothing else. *)
Definition special_cases_only : Libm := {|
  libm_log10 := fun x => if PrimFloat.eqb x 1 then 0%float else PrimFloat.nan;
  libm_log2 := fun _ => PrimFloat.nan;
  libm_pow := fun b x =>
    if PrimFloat.eqb x 0 then 1%float
    else if PrimFloat.eqb b 1 && PrimFloat.eqb x 2 then 1%float
    else PrimFloat.nan
|}.

(** ** Component state and the click handlers

    Each scenario component holds its parameter record, the last result
    record (or none) and a flag for the explanation panel.  The handler bound
    to the Calculate button runs the formulas inside [try], stores the fresh
    record and raises a toast; the [catch] branch raises the error toast and
    leaves the state as it was.  Only the title of a toast is kept here. *)

Record Component (P R : Type) : Type := {
  params : P;
  results : option R;
  showAI : bool
}.

Inductive CalcToast : Type :=
| Complete (title : string)
| CalculationError.

(** How a block of statements ends. *)
Inductive completion (A : Type) : Type :=
| Normal (a : A)
| Throw (message : string).

Arguments Normal {A} a.
Arguments Throw {A} message.

Definition try_calculate {P R : Type} (body : P -> completion R) (title : string)
    (st : Component P R) : Component P R * CalcToast :=
  match body (params st) with
  | Normal newResults =>
      ({| params := params st; results := Some newResults; showAI := showAI st |},
       Complete title)
  | Throw _ => (st, CalculationError)
  end.

Section Handlers.
Context {N : Type} {A : Arith N} {M : MathLib N}.

Definition onCalculateLinkBudget :
    Component (LinkBudgetParams N) (LinkBudgetResults N) -> _ :=
  try_calculate (fun p => Normal (calculateLinkBudget p))
                "Link Budget Calculation Complete".

Definition onCalculateCellular :
    Component (CellularParams N) (CellularResults N) -> _ :=
  try_calculate (fun p => Normal (calculateCellular p))
                "Cellular Design Complete".

Definition onCalculateRates :
    Component (WirelessParams N) (WirelessResults N) -> _ :=
  try_calculate (fun p => Normal (calculateRates p))
                "Calculation Complete".

Definition onCalculateOFDM :
    Component (OFDMParams N) (OFDMResults N) -> _ :=
  try_calculate (fun p => Normal (calculateOFDM p))
                "OFDM Calculation Complete".
End Handlers.

(** ** AIExplanation.tsx: what [getExplanation] does with the reply *)

(** A value produced by [JSON.parse]; a number is the double it parses to,
    an object is the list of its properties. *)
#[warnings="-register-all"]
Inductive json : Type :=
| JNull
| JBool (b : bool)
| JNum (n : float)
| JStr (s : string)
| JArr (items : list json)
| JObj (props : list (string * json)).

Module Js.
Local Open Scope string_scope.

Fixpoint assoc (key : string) (props : list (string * json)) : option json :=
  match props with
  | [] => None
  | (k, v) :: rest => if String.eqb k key then Some v else assoc key rest
  end.

(** [v.name] for a value that is neither null nor undefined, with [None] for
    undefined.  The names the client reads (candidates, content, parts, text)
    are properties of objects only: arrays, strings, numbers and booleans have
    none of them. *)
Definition member (name : string) (v : json) : option json :=
  match v with
  | JObj props => assoc name props
  | _ => None
  end.

(** [v[0]]: the first element of an array, the first character of a string,
    the property named 0 of an object. *)
Definition index0 (v : json) : option json :=
  match v with
  | JArr items => nth_error items 0
  | JStr (String c _) => Some (JStr (String c EmptyString))
  | JObj props => assoc "0" props
  | _ => None
  end.

(** Optional chaining [a?.x]: undefined when [a] is null or undefined. *)
Definition opt_chain (access : json -> option json) (a : option json) : option json :=
  match a with
  | None | Some JNull => None
  | Some v => access v
  end.

Definition truthy (v : json) : bool :=
  match v with
  | JNull => false
  | JBool b => b
  | JNum n => negb (PrimFloat.eqb n 0 || PrimFloat.is_nan n)
  | JStr s => negb (String.eqb s EmptyString)
  | JArr _ | JObj _ => true
  end.

(** [a || b] where [b] is a value. *)
Definition or_else (a : option json) (b : json) : json :=
  match a with
  | Some v => if truthy v then v else b
  | None => b
  end.
End Js.

Record Response : Type := {
  status : nat;
  text : string;                  (* the body, as [response.text()] gives it *)
  parsed : string + json          (* [response.json()]: the parsed body, or
                                     the message of the SyntaxError *)
}.

(** [response.ok]: the status is in the range 200-299. *)
Definition ok (response : Response) : bool :=
  (200 <=? status response)%nat && (status response <=? 299)%nat.

(** What [fetch] settles to. *)
Inductive fetched : Type :=
| Rejected (message : string)
| Resolved (response : Response).

Record Toast : Type := {
  title : string;
  description : string;
  destructive : bool
}.

Record AIState : Type := {
  apiKey : string;
  explanation : json;
  isLoading : bool
}.

Section GetExplanation.
Local Open Scope string_scope.

Definition show_status (n : nat) : string :=
  DecimalString.NilZero.string_of_uint (Nat.to_uint n).

Definition no_explanation : json := JStr "No explanation available.".

(** The message of the TypeError raised by reading [candidates] of null (the
    wording is the engine's; this is V8's). *)
Definition null_data_message : string :=
  "Cannot read properties of null (reading 'candidates')".

(** [data.candidates?.[0]?.content?.parts?.[0]?.text]: the first access is a
    plain one and throws on null, the others are optional. *)
Definition text_path (data : json) : completion (option json) :=
  match data with
  | JNull => Throw null_data_message
  | _ =>
      let candidates := Js.member "candidates" data in
      let candidate := Js.opt_chain Js.index0 candidates in
      let content := Js.opt_chain (Js.member "content") candidate in
      let parts := Js.opt_chain (Js.member "parts") content in
      let part := Js.opt_chain Js.index0 parts in
      Normal (Js.opt_chain (Js.member "text") part)
  end.

(** The [try] block from the point where [fetch] settles. *)
Definition explanation_of (reply : fetched) : completion json :=
  match reply with
  | Rejected message => Throw message
  | Resolved response =>
      if negb (ok response) then
        let errorData := text response in
        Throw ("API request failed with status " ++ show_status (status response)
               ++ ": " ++ errorData)
      else
        match parsed response with
        | inl syntax_error => Throw syntax_error
        | inr data =>
            match text_path data with
            | Throw message => Throw message
            | Normal found => Normal (Js.or_else found no_explanation)
            end
        end
  end.

(** [getExplanation] once the key is present and the request was sent: the
    state it leaves and the toast it raises. *)
Definition getExplanation (st : AIState) (reply : fetched) : AIState * Toast :=
  match explanation_of reply with
  | Normal aiResponse =>
      ({| apiKey := apiKey st; explanation := aiResponse; isLoading := false |},
       {| title := "AI Explanation Generated";
          description :=
            "The AI has provided a detailed explanation of your calculations.";
          destructive := false |})
  | Throw message =>
      ({| apiKey := apiKey st; explanation := explanation st; isLoading := false |},
       {| title := "Error"; description := message; destructive := true |})
  end.

(** The first candidate's first text part of a reply of the documented shape:
    an object whose [candidates] is an array of objects, each with a
    [content] object whose [parts] is an array of objects with a [text]. *)
Definition first_text_part (data : json) : option json :=
  match data with
  | JObj top =>
      match Js.assoc "candidates" top with
      | Some (JArr (JObj candidate :: _)) =>
          match Js.assoc "content" candidate with
          | Some (JObj content) =>
              match Js.assoc "parts" content with
              | Some (JArr (JObj part :: _)) => Js.assoc "text" part
              | _ => None
              end
          | _ => None
          end
      | _ => None
      end
  | _ => None
  end.
End GetExplanation.

(** ** The scenarios of the specification *)

Section Scenarios.
Local Open Scope R_scope.

(** The literal scenario of the link budget (the component's defaults). *)
Definition link_budget_scenario : LinkBudgetParams num :=
  {| transmitterPower := Fin 30;
     transmitterGain := Fin 15;
     lb_frequency := Fin 2400;
     distance := Fin 10;
     receiverGain := Fin 12;
     systemLoss := Fin 3;
     fadeMargin := Fin 10;
     receiverSensitivity := Fin (-95) |}.

(** A link whose margin is exactly zero: 32.44 dBm radiated over the unit
    distance at the unit frequency, with nothing else gained or lost. *)
Definition link_budget_boundary : LinkBudgetParams num :=
  {| transmitterPower := Fin 32.44;
     transmitterGain := Fin 0;
     lb_frequency := Fin 1;
     distance := Fin 1;
     receiverGain := Fin 0;
     systemLoss := Fin 0;
     fadeMargin := Fin 0;
     receiverSensitivity := Fin 0 |}.

(** The literal scenario of the digital chain; the two fields it leaves out
    are arguments. *)
Definition digital_chain_scenario {N : Type} `{Arith N}
    (sourceBitRate interleaverDepth : N) : WirelessParams N :=
  {| sourceBitRate := sourceBitRate;
     samplingRate := lit 8000;
     quantizationBits := lit 8;
     sourceEncodingRatio := lit 0.5;
     channelEncodingRatio := lit 0.75;
     interleaverDepth := interleaverDepth;
     burstLength := lit 148 |}.

(** The literal scenario of OFDM; the field it leaves out is an argument. *)
Definition ofdm_scenario (subcarrierSpacing : num) : OFDMParams num :=
  {| subcarrierSpacing := subcarrierSpacing;
     symbolDuration := Fin 66.67;
     cyclicPrefixRatio := Fin 0.07;
     resourceElementsPerSymbol := Fin 12;
     symbolsPerResourceBlock := Fin 14;
     resourceBlocksParallel := Fin 100;
     modulationOrder := Fin 4;
     codingRate := Fin 0.5;
     bandwidth := Fin 20000000 |}.

(** Degenerate records: the defaults of each component with one field set to
    zero. *)
Definition link_budget_zero_frequency : LinkBudgetParams num :=
  {| transmitterPower := Fin 30;
     transmitterGain := Fin 15;
     lb_frequency := Fin 0;
     distance := Fin 10;
     receiverGain := Fin 12;
     systemLoss := Fin 3;
     fadeMargin := Fin 10;
     receiverSensitivity := Fin (-95) |}.

Definition cellular_defaults (frequency pathLossExponent : num) : CellularParams num :=
  {| coverageArea := Fin 100;
     trafficDensity := Fin 50;
     callDuration := Fin 120;
     blockingProbability := Fin 0.02;
     frequency := frequency;
     baseSationPower := Fin 43;
     mobilePower := Fin 33;
     pathLossExponent := pathLossExponent;
     shadowingMargin := Fin 8;
     interferenceMargin := Fin 3 |}.

Definition wireless_zero_channel_ratio : WirelessParams num :=
  {| sourceBitRate := Fin 64000;
     samplingRate := Fin 8000;
     quantizationBits := Fin 8;
     sourceEncodingRatio := Fin 0.5;
     channelEncodingRatio := Fin 0;
     interleaverDepth := Fin 4;
     burstLength := Fin 148 |}.

Definition ofdm_defaults (modulationOrder bandwidth : num) : OFDMParams num :=
  {| subcarrierSpacing := Fin 15000;
     symbolDuration := Fin 66.67;
     cyclicPrefixRatio := Fin 0.07;
     resourceElementsPerSymbol := Fin 12;
     symbolsPerResourceBlock := Fin 14;
     resourceBlocksParallel := Fin 100;
     modulationOrder := modulationOrder;
     codingRate := Fin 0.5;
     bandwidth := bandwidth |}.

(** A design with one cell of unit radius that needs five channels: the
    path-loss budget is 32.44 dB at the unit frequency, the area is that of
    one cell, and the offered traffic is half an Erlang. *)
Definition five_channel_design {N : Type} `{Arith N} : CellularParams N :=
  {| coverageArea := lit 2.598;
     trafficDensity := lit 15;
     callDuration := lit 120;
     blockingProbability := lit 0.02;
     frequency := lit 1;
     baseSationPower := lit 32.44;
     mobilePower := lit 0;
     pathLossExponent := lit 3.5;
     shadowingMargin := lit 0;
     interferenceMargin := lit 0 |}.

End Scenarios.

Section Replies.
Local Open Scope string_scope.

(** The panel waiting for a reply. *)
Definition waiting : AIState :=
  {| apiKey := "key"; explanation := JStr EmptyString; isLoading := true |}.

Definition reply_with_text (t : json) : json :=
  JObj [("candidates",
         JArr [JObj [("content",
                      JObj [("parts", JArr [JObj [("text", t)]]);
                            ("role", JStr "model")])]])].

(** A reply of the documented shape. *)
Definition reply_ok : Response :=
  {| status := 200;
     text := "{...}";
     parsed := inr (reply_with_text (JStr "The link closes with margin.")) |}.

(** A reply whose first text part is the empty string. *)
Definition reply_empty_text : Response :=
  {| status := 200; text := "{...}"; parsed := inr (reply_with_text (JStr EmptyString)) |}.

(** A reply without candidates. *)
Definition reply_no_candidates : Response :=
  {| status := 200;
     text := "{}";
     parsed := inr (JObj []) |}.

(** A reply whose body is the JSON text [null]. *)
Definition reply_null : Response :=
  {| status := 200; text := "null"; parsed := inr JNull |}.

(** A refusal. *)
Definition reply_forbidden : Response :=
  {| status := 403;
     text := "API key not valid";
     parsed := inl "Unexpected token" |}.

End Replies.

(** ** Notions the properties are stated with *)

Section Notions.
Local Open Scope R_scope.

(** Strictly positive, as IEEE orders numbers: NaN is not, plus infinity
    is. *)
Definition strictly_positive (a : num) : Prop :=
  match a with
  | PInf => True
  | Fin x => 0 < x
  | NaN | NInf => False
  end.

(** The rate of one resource element in the scenario: 1000 / (66.67 * 1.07). *)
Definition scenario_element_rate : R := 10000000 / 713369.

(** NaN or an infinity. *)
Definition nonfinite (a : num) : Prop := Ideal.is_finite a = false.

(** A handler run that stores a result record and raises the success toast:
    the [try] block ran to its end. *)
Definition completes {P R : Type}
    (handler : Component P R -> Component P R * CalcToast)
    (st : Component P R) : Prop :=
  exists (r : R) (title : string),
    handler st
    = ({| params := params st; results := Some r; showAI := showAI st |},
       Complete title).


(** Two parameter records that differ at most in the named fields. *)
Definition differ_only_in_sourceBitRate_interleaverDepth {N : Type}
    (p q : WirelessParams N) : Prop :=
  samplingRate p = samplingRate q
  /\ quantizationBits p = quantizationBits q
  /\ sourceEncodingRatio p = sourceEncodingRatio q
  /\ channelEncodingRatio p = channelEncodingRatio q
  /\ burstLength p = burstLength q.

Definition differ_only_in_subcarrierSpacing {N : Type}
    (p q : OFDMParams N) : Prop :=
  symbolDuration p = symbolDuration q
  /\ cyclicPrefixRatio p = cyclicPrefixRatio q
  /\ resourceElementsPerSymbol p = resourceElementsPerSymbol q
  /\ symbolsPerResourceBlock p = symbolsPerResourceBlock q
  /\ resourceBlocksParallel p = resourceBlocksParallel q
  /\ modulationOrder p = modulationOrder q
  /\ codingRate p = codingRate q
  /\ bandwidth p = bandwidth q.

End Notions.
(** ** Records with finite parameters *)

Section FiniteRecords.
Local Open Scope R_scope.

(** A digital chain and an OFDM system with finite parameters. *)
Definition chain (sbr sr qb ser cer ild bl : R) : WirelessParams num :=
  {| sourceBitRate := Fin sbr; samplingRate := Fin sr; quantizationBits := Fin qb;
     sourceEncodingRatio := Fin ser; channelEncodingRatio := Fin cer;
     interleaverDepth := Fin ild; burstLength := Fin bl |}.

Definition ofdm (scs sd cp re sym rb m cr bw : R) : OFDMParams num :=
  {| subcarrierSpacing := Fin scs; symbolDuration := Fin sd;
     cyclicPrefixRatio := Fin cp; resourceElementsPerSymbol := Fin re;
     symbolsPerResourceBlock := Fin sym; resourceBlocksParallel := Fin rb;
     modulationOrder := Fin m; codingRate := Fin cr; bandwidth := Fin bw |}.

End FiniteRecords.

(** ** The text fields: [parseFloat] and [handleInputChange]

    A string is read as a sequence of code units below 256. *)

Module Text.
Local Open Scope string_scope.

(** White space and line terminators, as [trim] and [parseFloat] skip them:
    tab, line feed, vertical tab, form feed, carriage return, space and
    no-break space. *)
Definition is_whitespace (c : ascii) : bool :=
  let n := nat_of_ascii c in
  (n =? 9)%nat || (n =? 10)%nat || (n =? 11)%nat || (n =? 12)%nat
  || (n =? 13)%nat || (n =? 32)%nat || (n =? 160)%nat.

Fixpoint trim_start (s : string) : string :=
  match s with
  | String c rest => if is_whitespace c then trim_start rest else s
  | EmptyString => EmptyString
  end.

Fixpoint rev_onto (s acc : string) : string :=
  match s with
  | String c rest => rev_onto rest (String c acc)
  | EmptyString => acc
  end.

Definition reverse (s : string) : string := rev_onto s EmptyString.

Definition trim_end (s : string) : string := reverse (trim_start (reverse s)).

(** [s.trim()]. *)
Definition trim (s : string) : string := trim_end (trim_start s).

Definition digit_of (c : ascii) : option N :=
  let n := N_of_ascii c in
  if (48 <=? n)%N && (n <=? 57)%N then Some (n - 48)%N else None.

(** The longest run of decimal digits at the start of [s], read onto the
    value [value]: the number read, how many digits there were, and the
    rest. *)
Fixpoint digits (s : string) (value : N) (count : nat) : N * nat * string :=
  match s with
  | String c rest =>
      match digit_of c with
      | Some d => digits rest (10 * value + d)%N (S count)
      | None => (value, count, s)
      end
  | EmptyString => (value, count, s)
  end.

(** An exponent part at the start of [s], if there is a whole one ([e] or
    [E], an optional sign, at least one digit); no exponent counts as 0. *)
Definition exponent_part (s : string) : Z :=
  match s with
  | String c rest =>
      if Ascii.eqb c "e" || Ascii.eqb c "E" then
        let '(negative, after_sign) :=
          match rest with
          | String "+" r => (false, r)
          | String "-" r => (true, r)
          | _ => (false, rest)
          end in
        let '(value, count, _) := digits after_sign 0 0 in
        if (count =? 0)%nat then 0%Z
        else if negative then (- Z.of_N value)%Z else Z.of_N value
      else 0%Z
  | EmptyString => 0%Z
  end.

(** An unsigned decimal literal: [Infinity], or [mantissa * 10^exponent]. *)
Inductive literal : Type :=
| Infinite
| Decimal (mantissa : N) (exponent : Z).

(** The longest prefix of [s] that is an unsigned decimal literal: Infinity;
    digits, a dot, optional digits; a dot and digits; or digits alone; each
    with an optional exponent part. *)
Definition unsigned_literal (s : string) : option literal :=
  if String.prefix "Infinity" s then Some Infinite
  else
    let '(whole, whole_count, after_whole) := digits s 0 0 in
    match after_whole with
    | String "." after_dot =>
        let '(mantissa, fraction_count, after_fraction) :=
          digits after_dot whole 0 in
        if (whole_count =? 0)%nat && (fraction_count =? 0)%nat then None
        else Some (Decimal mantissa
                     (exponent_part after_fraction - Z.of_nat fraction_count))
    | _ =>
        if (whole_count =? 0)%nat then None
        else Some (Decimal whole (exponent_part after_whole))
    end.

Inductive parsed : Type :=
| NotANumber
| Number (negative : bool) (value : literal).

(** What [parseFloat] reads: leading white space is skipped, then an
    optional sign and the longest literal; what follows is ignored. *)
Definition read_float (s : string) : parsed :=
  let trimmed := trim_start s in
  let '(negative, unsigned) :=
    match trimmed with
    | String "-" rest => (true, rest)
    | String "+" rest => (false, rest)
    | _ => (false, trimmed)
    end in
  match unsigned_literal unsigned with
  | Some value => Number negative value
  | None => NotANumber
  end.

Definition decimal_value (mantissa : N) (exponent : Z) : Q :=
  match exponent with
  | Zneg p => Z.of_N mantissa # Pos.pow 10 p
  | _ => (Z.of_N mantissa * 10 ^ exponent)%Z # 1
  end.

(** [parseFloat(s)], as a number of [num] (the decimal is exact there). *)
Definition parseFloat (s : string) : num :=
  match read_float s with
  | NotANumber => NaN
  | Number negative Infinite => if negative then NInf else PInf
  | Number negative (Decimal mantissa exponent) =>
      let q := decimal_value mantissa exponent in
      Ideal.lit (if negative then Qopp q else q)
  end.

(** [x || 0] for a number [x]: NaN and zero are falsy. *)
Definition or_zero (x : num) : num :=
  match x with
  | NaN => Ideal.lit 0
  | Fin v =>
      match Ideal.sgn v with
      | Zero => Ideal.lit 0
      | _ => x
      end
  | _ => x
  end.

(** [s.split("\n")]: the pieces between line feeds, at least one. *)
Fixpoint split_lines (s : string) : list string :=
  match s with
  | EmptyString => [EmptyString]
  | String c rest =>
      if Ascii.eqb c "010" then EmptyString :: split_lines rest
      else
        match split_lines rest with
        | piece :: pieces => String c piece :: pieces
        | [] => [String c EmptyString]
        end
  end.

(** [pieces.join("\n")]. *)
Fixpoint join_lines (pieces : list string) : string :=
  match pieces with
  | [] => EmptyString
  | [piece] => piece
  | piece :: rest => piece ++ String "010" (join_lines rest)
  end.
End Text.

(** The names of the fields of the four parameter records ([keyof]). *)
Inductive LinkBudgetField : Type :=
| LB_transmitterPower | LB_transmitterGain | LB_frequency | LB_distance
| LB_receiverGain | LB_systemLoss | LB_fadeMargin | LB_receiverSensitivity.

Inductive CellularField : Type :=
| CD_coverageArea | CD_trafficDensity | CD_callDuration
| CD_blockingProbability | CD_frequency | CD_baseSationPower | CD_mobilePower
| CD_pathLossExponent | CD_shadowingMargin | CD_interferenceMargin.

Inductive WirelessField : Type :=
| WC_sourceBitRate | WC_samplingRate | WC_quantizationBits
| WC_sourceEncodingRatio | WC_channelEncodingRatio | WC_interleaverDepth
| WC_burstLength.

Inductive OFDMField : Type :=
| OF_subcarrierSpacing | OF_symbolDuration | OF_cyclicPrefixRatio
| OF_resourceElementsPerSymbol | OF_symbolsPerResourceBlock
| OF_resourceBlocksParallel | OF_modulationOrder | OF_codingRate
| OF_bandwidth.

(** A form: how a field of a parameter record is read and replaced
    ([prev[field]] and [{...prev, [field]: v}]). *)
Record Form (F P : Type) : Type := {
  get_field : F -> P -> num;
  set_field : F -> num -> P -> P
}.

Definition link_budget_form : Form LinkBudgetField (LinkBudgetParams num) := {|
  get_field := fun field p =>
    match field with
    | LB_transmitterPower => transmitterPower p
    | LB_transmitterGain => transmitterGain p
    | LB_frequency => lb_frequency p
    | LB_distance => distance p
    | LB_receiverGain => receiverGain p
    | LB_systemLoss => systemLoss p
    | LB_fadeMargin => fadeMargin p
    | LB_receiverSensitivity => receiverSensitivity p
    end;
  set_field := fun field v p =>
    {| transmitterPower :=
         match field with LB_transmitterPower => v | _ => transmitterPower p end;
       transmitterGain :=
         match field with LB_transmitterGain => v | _ => transmitterGain p end;
       lb_frequency :=
         match field with LB_frequency => v | _ => lb_frequency p end;
       distance := match field with LB_distance => v | _ => distance p end;
       receiverGain :=
         match field with LB_receiverGain => v | _ => receiverGain p end;
       systemLoss := match field with LB_systemLoss => v | _ => systemLoss p end;
       fadeMargin := match field with LB_fadeMargin => v | _ => fadeMargin p end;
       receiverSensitivity :=
         match field with
         | LB_receiverSensitivity => v
         | _ => receiverSensitivity p
         end |}
|}.

Definition cellular_form : Form CellularField (CellularParams num) := {|
  get_field := fun field p =>
    match field with
    | CD_coverageArea => coverageArea p
    | CD_trafficDensity => trafficDensity p
    | CD_callDuration => callDuration p
    | CD_blockingProbability => blockingProbability p
    | CD_frequency => frequency p
    | CD_baseSationPower => baseSationPower p
    | CD_mobilePower => mobilePower p
    | CD_pathLossExponent => pathLossExponent p
    | CD_shadowingMargin => shadowingMargin p
    | CD_interferenceMargin => interferenceMargin p
    end;
  set_field := fun field v p =>
    {| coverageArea := match field with CD_coverageArea => v | _ => coverageArea p end;
       trafficDensity :=
         match field with CD_trafficDensity => v | _ => trafficDensity p end;
       callDuration := match field with CD_callDuration => v | _ => callDuration p end;
       blockingProbability :=
         match field with
         | CD_blockingProbability => v
         | _ => blockingProbability p
         end;
       frequency := match field with CD_frequency => v | _ => frequency p end;
       baseSationPower :=
         match field with CD_baseSationPower => v | _ => baseSationPower p end;
       mobilePower := match field with CD_mobilePower => v | _ => mobilePower p end;
       pathLossExponent :=
         match field with CD_pathLossExponent => v | _ => pathLossExponent p end;
       shadowingMargin :=
         match field with CD_shadowingMargin => v | _ => shadowingMargin p end;
       interferenceMargin :=
         match field with
         | CD_interferenceMargin => v
         | _ => interferenceMargin p
         end |}
|}.

Definition wireless_form : Form WirelessField (WirelessParams num) := {|
  get_field := fun field p =>
    match field with
    | WC_sourceBitRate => sourceBitRate p
    | WC_samplingRate => samplingRate p
    | WC_quantizationBits => quantizationBits p
    | WC_sourceEncodingRatio => sourceEncodingRatio p
    | WC_channelEncodingRatio => channelEncodingRatio p
    | WC_interleaverDepth => interleaverDepth p
    | WC_burstLength => burstLength p
    end;
  set_field := fun field v p =>
    {| sourceBitRate := match field with WC_sourceBitRate => v | _ => sourceBitRate p end;
       samplingRate := match field with WC_samplingRate => v | _ => samplingRate p end;
       quantizationBits :=
         match field with WC_quantizationBits => v | _ => quantizationBits p end;
       sourceEncodingRatio :=
         match field with
         | WC_sourceEncodingRatio => v
         | _ => sourceEncodingRatio p
         end;
       channelEncodingRatio :=
         match field with
         | WC_channelEncodingRatio => v
         | _ => channelEncodingRatio p
         end;
       interleaverDepth :=
         match field with WC_interleaverDepth => v | _ => interleaverDepth p end;
       burstLength := match field with WC_burstLength => v | _ => burstLength p end |}
|}.

Definition ofdm_form : Form OFDMField (OFDMParams num) := {|
  get_field := fun field p =>
    match field with
    | OF_subcarrierSpacing => subcarrierSpacing p
    | OF_symbolDuration => symbolDuration p
    | OF_cyclicPrefixRatio => cyclicPrefixRatio p
    | OF_resourceElementsPerSymbol => resourceElementsPerSymbol p
    | OF_symbolsPerResourceBlock => symbolsPerResourceBlock p
    | OF_resourceBlocksParallel => resourceBlocksParallel p
    | OF_modulationOrder => modulationOrder p
    | OF_codingRate => codingRate p
    | OF_bandwidth => bandwidth p
    end;
  set_field := fun field v p =>
    {| subcarrierSpacing :=
         match field with OF_subcarrierSpacing => v | _ => subcarrierSpacing p end;
       symbolDuration :=
         match field with OF_symbolDuration => v | _ => symbolDuration p end;
       cyclicPrefixRatio :=
         match field with OF_cyclicPrefixRatio => v | _ => cyclicPrefixRatio p end;
       resourceElementsPerSymbol :=
         match field with
         | OF_resourceElementsPerSymbol => v
         | _ => resourceElementsPerSymbol p
         end;
       symbolsPerResourceBlock :=
         match field with
         | OF_symbolsPerResourceBlock => v
         | _ => symbolsPerResourceBlock p
         end;
       resourceBlocksParallel :=
         match field with
         | OF_resourceBlocksParallel => v
         | _ => resourceBlocksParallel p
         end;
       modulationOrder :=
         match field with OF_modulationOrder => v | _ => modulationOrder p end;
       codingRate := match field with OF_codingRate => v | _ => codingRate p end;
       bandwidth := match field with OF_bandwidth => v | _ => bandwidth p end |}
|}.

Section Pages.
Context {F P R : Type}.
Variable form : Form F P.
Variable calculate : P -> R.
Variable title : string.

(** [handleInputChange(field, value)]: the field becomes
    [parseFloat(value) || 0], the other fields stay. *)
Definition handleInputChange (field : F) (value : string)
    (st : Component P R) : Component P R :=
  {| params :=
       set_field form field (Text.or_zero (Text.parseFloat value)) (params st);
     results := results st;
     showAI := showAI st |}.

(** What the user can do on a scenario page.  The button that toggles the
    explanation panel is there only once there are results. *)
Inductive Event : Type :=
| Calculate
| Edit (field : F) (value : string)
| ToggleAI.

Definition step (st : Component P R) (event : Event) : Component P R :=
  match event with
  | Calculate => fst (try_calculate (fun p => Normal (calculate p)) title st)
  | Edit field value => handleInputChange field value st
  | ToggleAI =>
      match results st with
      | Some _ =>
          {| params := params st; results := results st;
             showAI := negb (showAI st) |}
      | None => st
      end
  end.

Definition run (st : Component P R) (events : list Event) : Component P R :=
  fold_left step events st.

(** The properties the explanation panel is rendered with, when it is
    rendered ([showAI && results]). *)
Definition panel (st : Component P R) : option (P * R) :=
  if showAI st then
    match results st with
    | Some r => Some (params st, r)
    | None => None
    end
  else None.

(** The page as it is first rendered. *)
Definition opened (defaults : P) : Component P R :=
  {| params := defaults; results := None; showAI := false |}.
End Pages.

Arguments Event : clear implicits.

Definition is_calculate {F : Type} (event : Event F) : bool :=
  match event with Calculate => true | _ => false end.

(** The defaults of the four pages. *)
Definition wireless_defaults : WirelessParams num :=
  digital_chain_scenario (Fin 64000) (Fin 4).

Definition every_field {F P : Type} (form : Form F P) (ok : num -> bool)
    (p : P) : Prop :=
  forall field : F, ok (get_field form field p) = true.

Definition not_nan (x : num) : bool := negb (Ideal.is_nan x).

(** The first character that is not white space can start a number: a digit,
    a sign, a dot, or the I of Infinity. *)
Definition starts_like_a_number (s : string) : bool :=
  match Text.trim_start s with
  | String c _ =>
      match Text.digit_of c with
      | Some _ => true
      | None =>
          Ascii.eqb c "+" || Ascii.eqb c "-" || Ascii.eqb c "."
          || Ascii.eqb c "I"
      end
  | EmptyString => false
  end.

(** Nothing but white space. *)
Fixpoint blank (s : string) : bool :=
  match s with
  | String c rest => Text.is_whitespace c && blank rest
  | EmptyString => true
  end.

(** Text that cannot continue a run of digits into a longer literal: empty,
    or starting with something other than a digit, a dot or an exponent
    letter. *)
Definition ends_a_number (rest : string) : bool :=
  match rest with
  | String c _ =>
      match Text.digit_of c with
      | Some _ => false
      | None => negb (Ascii.eqb c "." || Ascii.eqb c "e" || Ascii.eqb c "E")
      end
  | EmptyString => true
  end.

(** Reading a field back after replacing one. *)
Definition form_laws {F P : Type} (form : Form F P) : Prop :=
  (forall field v p, get_field form field (set_field form field v p) = v)
  /\ (forall field other v p,
         other <> field ->
         get_field form other (set_field form field v p) = get_field form other p).

(** ** The rest of AIExplanation.tsx: the key, the button and the panels *)

Section ExplanationPanel.
Local Open Scope string_scope.

(** [!apiKey.trim()]. *)
Definition key_missing (st : AIState) : bool :=
  String.eqb (Text.trim (apiKey st)) EmptyString.

(** The [disabled] attribute of the "Get AI Explanation" button. *)
Definition button_disabled (st : AIState) : bool :=
  isLoading st || key_missing st.

Definition endpoint : string :=
  "https://generativelanguage.googleapis.com/v1beta/models/gemini-1.5-flash:generateContent?key=".

(** How [getExplanation] starts: without a key it raises a toast and returns;
    with one it sets the loading flag and posts to the endpoint, the key
    appended as typed (the body of the request is not represented). *)
Inductive started : Type :=
| KeyRequired (toast : Toast)
| Requested (loading : AIState) (url : string).

Definition startExplanation (st : AIState) : started :=
  if key_missing st then
    KeyRequired
      {| title := "API Key Required";
         description :=
           "Please enter your Google Gemini API key to get AI explanations.";
         destructive := true |}
  else
    Requested
      {| apiKey := apiKey st; explanation := explanation st; isLoading := true |}
      (endpoint ++ apiKey st).

(** The two panels of the card: the key form is rendered when the
    explanation is falsy, the explanation when it is truthy. *)
Definition shows_key_form (st : AIState) : bool := negb (Js.truthy (explanation st)).
Definition shows_explanation (st : AIState) : bool := Js.truthy (explanation st).

(** [explanation.split("\n")], the paragraphs of the explanation panel; it
    is a method of strings only. *)
Definition paragraphs (value : json) : completion (list string) :=
  match value with
  | JStr s => Normal (Text.split_lines s)
  | _ => Throw "explanation.split is not a function"
  end.

(** The "Generate New Explanation" button. *)
Definition generateNew (st : AIState) : AIState :=
  {| apiKey := EmptyString; explanation := JStr EmptyString;
     isLoading := isLoading st |}.

(** The card as it is first rendered. *)
Definition card_opened : AIState :=
  {| apiKey := EmptyString; explanation := JStr EmptyString; isLoading := false |}.

(** The number of line feeds in a text. *)
Fixpoint line_feeds (s : string) : nat :=
  match s with
  | String c rest => (if Ascii.eqb c "010" then 1 else 0) + line_feeds rest
  | EmptyString => 0
  end.

(** A reply with two candidates, the first of them with two parts. *)
Definition first_part : json := JObj [("text", JStr "first")].
Definition first_content : list (string * json) :=
  [("parts", JArr [first_part; JObj [("text", JStr "second")]])].
Definition first_candidate : list (string * json) :=
  [("content", JObj first_content)].
Definition two_candidates : list (string * json) :=
  [("usage", JNull);
   ("candidates", JArr [JObj first_candidate; JObj [("content", JNull)]])].
Definition reply_two_candidates : Response :=
  {| status := 200; text := "{...}"; parsed := inr (JObj two_candidates) |}.
End ExplanationPanel.

(** ** Index.tsx: the four scenarios and the active tab *)

Section Tabs.
Local Open Scope string_scope.

Inductive Scenario : Type := Wireless | Ofdm | Linkbudget | Cellular.

Definition scenario_id (s : Scenario) : string :=
  match s with
  | Wireless => "wireless"
  | Ofdm => "ofdm"
  | Linkbudget => "linkbudget"
  | Cellular => "cellular"
  end.

Definition scenarios : list Scenario := [Wireless; Ofdm; Linkbudget; Cellular].

(** The state of the page is the id of the active tab; a click on a card or
    on a tab trigger sets it to the id of that scenario. *)
Definition initial_tab : string := "wireless".

Definition select (activeTab : string) (s : Scenario) : string := scenario_id s.

(** The card with the ring ([activeTab === scenario.id]). *)
Definition highlighted (activeTab : string) (s : Scenario) : bool :=
  String.eqb activeTab (scenario_id s).
End Tabs.
(** ** Doubles: special values, the engine's library, records of doubles *)

(** The kinds of special value a field of a result can take. *)
Definition zero_or_nan (x : float) : bool :=
  PrimFloat.is_zero x || PrimFloat.is_nan x.

Definition infinite_or_nan (x : float) : bool :=
  PrimFloat.is_infinity x || PrimFloat.is_nan x.

Definition plus_infinity_or_nan (x : float) : bool :=
  PrimFloat.eqb x infinity || PrimFloat.is_nan x.

Definition minus_infinity_or_nan (x : float) : bool :=
  PrimFloat.eqb x neg_infinity || PrimFloat.is_nan x.

(** What the language standard fixes of [Math.log10] and [Math.log2]: NaN
    and plus infinity are returned as they are, 1 gives +0, a zero gives
    minus infinity and a negative number gives NaN. *)
Definition log_by_the_standard (log : float -> float) : Prop :=
  (forall x, PrimFloat.is_nan x = true -> PrimFloat.is_nan (log x) = true)
  /\ log infinity = infinity
  /\ log 1%float = 0%float
  /\ (forall x, PrimFloat.is_zero x = true -> log x = neg_infinity)
  /\ (forall x, PrimFloat.ltb x 0 = true -> PrimFloat.is_nan (log x) = true).

(** [x] is the double [c] or one of its two neighbours: what a library
    accurate to one unit in the last place returns where [c] is the double
    nearest to the real value. *)
Definition within_an_ulp (c x : float) : Prop :=
  x = PrimFloat.next_down c \/ x = c \/ x = PrimFloat.next_up c.

(** The double nearest to log10(2400) = 3.38021124171160602... *)
Definition log10_2400 : float := 3.380211241711606%float.

Fixpoint tabulated (table : list (float * float)) (x : float) : float :=
  match table with
  | [] => PrimFloat.nan
  | (argument, value) :: rest =>
      if PrimFloat.eqb x argument then value else tabulated rest x
  end.

(** A logarithm that returns the special values as the standard lists them,
    the values of a table, and NaN anywhere else. *)
Definition reference_log (table : list (float * float)) (x : float) : float :=
  if PrimFloat.is_zero x then neg_infinity
  else if PrimFloat.ltb x 0 then PrimFloat.nan
  else if PrimFloat.is_nan x then x
  else if PrimFloat.eqb x infinity then x
  else tabulated table x.

(** A library for the examples: it knows the special values, the logarithms
    of 1, 10 and 2400 to base 10 and of 1, 2 and 4 to base 2 to the nearest
    double, and the powers of [special_cases_only]. *)
Definition reference_library : Libm := {|
  libm_log10 := reference_log [(1, 0); (10, 1); (2400, log10_2400)]%float;
  libm_log2 := reference_log [(1, 0); (2, 1); (4, 2)]%float;
  libm_pow := libm_pow special_cases_only
|}.

Section RecordsOfLiterals.
Context {N : Type} {A : Arith N}.

(** The defaults of the link-budget component (the literal scenario of the
    specification) at a given distance. *)
Definition link_budget_at (distance : N) : LinkBudgetParams N :=
  {| transmitterPower := lit 30;
     transmitterGain := lit 15;
     lb_frequency := lit 2400;
     distance := distance;
     receiverGain := lit 12;
     systemLoss := lit 3;
     fadeMargin := lit 10;
     receiverSensitivity := lit (-95) |}.

(** The defaults of the OFDM component at a given modulation order. *)
Definition ofdm_at (modulationOrder : N) : OFDMParams N :=
  {| subcarrierSpacing := lit 15000;
     symbolDuration := lit 66.67;
     cyclicPrefixRatio := lit 0.07;
     resourceElementsPerSymbol := lit 12;
     symbolsPerResourceBlock := lit 14;
     resourceBlocksParallel := lit 100;
     modulationOrder := modulationOrder;
     codingRate := lit 0.5;
     bandwidth := lit 20000000 |}.

(** The defaults of the cellular component. *)
Definition cellular_component_defaults : CellularParams N :=
  {| coverageArea := lit 100;
     trafficDensity := lit 50;
     callDuration := lit 120;
     blockingProbability := lit 0.02;
     frequency := lit 900;
     baseSationPower := lit 43;
     mobilePower := lit 33;
     pathLossExponent := lit 3.5;
     shadowingMargin := lit 8;
     interferenceMargin := lit 3 |}.

(** Designs whose cells have unit radius on every engine: the path-loss
    budget is 32.44 dB at the unit frequency, so that the exponent of the
    radius is zero.  [five_channel_design] is the one with the area of one
    cell and a traffic density of 15. *)
Definition unit_radius_design (coverageArea trafficDensity : N) : CellularParams N :=
  {| coverageArea := coverageArea;
     trafficDensity := trafficDensity;
     callDuration := lit 120;
     blockingProbability := lit 0.02;
     frequency := lit 1;
     baseSationPower := lit 32.44;
     mobilePower := lit 0;
     pathLossExponent := lit 3.5;
     shadowingMargin := lit 0;
     interferenceMargin := lit 0 |}.

End RecordsOfLiterals.



(** ** The calculators as program text

    What a calculator reads is a property of its text.  The [try] block of
    each calculator is a run of [const] declarations, then
    [setResults(newResults)] where [newResults] is an object literal with
    shorthand properties, then a call of [toast]; its expressions are
    literals, names, property accesses, binary operators and method calls.
    [setResults] and [toast] are called for their effect and return nothing
    that is used; the [catch] block reads nothing. *)

Inductive BinaryOperator : Type := Plus | Minus | Times | Over | GreaterThan.

Inductive Expression : Type :=
| NumericLiteral (value : Q)
| Identifier (name : string)
| Member (object property : string)
| Binary (operator : BinaryOperator) (a b : Expression)
| Call0 (object method : string)
| Call1 (object method : string) (a : Expression)
| Call2 (object method : string) (a b : Expression).

(** A body: the declarations, the names in the object literal, and the
    names the toast's description reads. *)
Record Body : Type := {
  declarations : list (string * Expression);
  newResults : list string;
  toastReads : list string
}.

Inductive Value (N : Type) : Type :=
| VNumber (n : N)
| VBoolean (b : bool).

Arguments VNumber {N} n.
Arguments VBoolean {N} b.

(** Everything a closure of the component can read besides [params]: the
    other variables in scope ([results], [showAI], globals), the properties
    of other objects, and what calls other than the five functions of [Math]
    return ([Math.random()], [Date.now()]).  Two invocations of a calculator
    may find two different worlds. *)
Record World (N : Type) : Type := {
  outer_variable : string -> option (Value N);
  outer_property : string -> string -> option (Value N);
  outer_call : string -> string -> list (Value N) -> option (Value N)
}.

Fixpoint lookup {V : Type} (name : string) (bindings : list (string * V)) : option V :=
  match bindings with
  | [] => None
  | (k, v) :: rest => if String.eqb k name then Some v else lookup name rest
  end.

Section Evaluation.
Context {N : Type} {A : Arith N} {M : MathLib N}.
Local Open Scope string_scope.

Definition binary (operator : BinaryOperator) (x y : Value N) : option (Value N) :=
  match x, y with
  | VNumber a, VNumber b =>
      Some match operator with
           | Plus => VNumber (add a b)
           | Minus => VNumber (sub a b)
           | Times => VNumber (mul a b)
           | Over => VNumber (div a b)
           | GreaterThan => VBoolean (gtb a b)
           end
  | _, _ => None
  end.

(** The functions of [Math] with one argument that the calculators call. *)
Definition math1 (object method : string) : option (N -> N) :=
  if negb (String.eqb object "Math") then None
  else if String.eqb method "log10" then Some log10
  else if String.eqb method "log2" then Some log2
  else if String.eqb method "sqrt" then Some sqrt
  else if String.eqb method "ceil" then Some ceil
  else None.

Definition math2 (object method : string) : option (N -> N -> N) :=
  if String.eqb object "Math" && String.eqb method "pow" then Some pow else None.

(** The value of an expression, given the properties of [params], the
    constants declared so far and the world; [None] where an operand is not
    a number or a name is not bound (which these bodies never reach). *)
Fixpoint eval (w : World N) (properties : list (string * N))
    (consts : list (string * Value N)) (e : Expression) : option (Value N) :=
  match e with
  | NumericLiteral q => Some (VNumber (lit q))
  | Identifier x =>
      match lookup x consts with
      | Some v => Some v
      | None => outer_variable w x
      end
  | Member object property =>
      if String.eqb object "params"
      then option_map VNumber (lookup property properties)
      else outer_property w object property
  | Binary operator a b =>
      match eval w properties consts a, eval w properties consts b with
      | Some x, Some y => binary operator x y
      | _, _ => None
      end
  | Call0 object method => outer_call w object method []
  | Call1 object method a =>
      match eval w properties consts a with
      | Some x =>
          match math1 object method, x with
          | Some f, VNumber n => Some (VNumber (f n))
          | Some _, VBoolean _ => None
          | None, _ => outer_call w object method [x]
          end
      | None => None
      end
  | Call2 object method a b =>
      match eval w properties consts a, eval w properties consts b with
      | Some x, Some y =>
          match math2 object method, x, y with
          | Some f, VNumber n, VNumber m => Some (VNumber (f n m))
          | Some _, _, _ => None
          | None, _, _ => outer_call w object method [x; y]
          end
      | _, _ => None
      end
  end.

(** The declarations, one after the other. *)
Fixpoint declare (w : World N) (properties : list (string * N))
    (consts : list (string * Value N)) (decls : list (string * Expression))
    : option (list (string * Value N)) :=
  match decls with
  | [] => Some consts
  | (x, init) :: rest =>
      match eval w properties consts init with
      | Some v => declare w properties ((x, v) :: consts) rest
      | None => None
      end
  end.

(** The object literal [{ name, ... }]. *)
Fixpoint gather (consts : list (string * Value N)) (names : list string)
    : option (list (string * Value N)) :=
  match names with
  | [] => Some []
  | x :: rest =>
      match lookup x consts, gather consts rest with
      | Some v, Some fields => Some ((x, v) :: fields)
      | _, _ => None
      end
  end.

(** The record a body passes to [setResults]. *)
Definition run_body (w : World N) (properties : list (string * N)) (body : Body)
    : option (list (string * Value N)) :=
  match declare w properties [] (declarations body) with
  | Some consts => gather consts (newResults body)
  | None => None
  end.

End Evaluation.

Section ReadsOnlyParams.
Local Open Scope string_scope.

Definition declared (names : list string) (x : string) : bool :=
  existsb (String.eqb x) names.

(** An expression that reads nothing but [params], the constants declared
    before it and the five functions of [Math]. *)
Fixpoint reads_only_params (names : list string) (e : Expression) : bool :=
  match e with
  | NumericLiteral _ => true
  | Identifier x => declared names x
  | Member object _ => String.eqb object "params"
  | Binary _ a b => reads_only_params names a && reads_only_params names b
  | Call0 _ _ => false
  | Call1 object method a =>
      String.eqb object "Math"
      && (String.eqb method "log10" || String.eqb method "log2"
          || String.eqb method "sqrt" || String.eqb method "ceil")
      && reads_only_params names a
  | Call2 object method a b =>
      String.eqb object "Math" && String.eqb method "pow"
      && reads_only_params names a && reads_only_params names b
  end.

Fixpoint declarations_read_only_params (names : list string)
    (decls : list (string * Expression)) : bool :=
  match decls with
  | [] => true
  | (x, init) :: rest =>
      reads_only_params names init
      && declarations_read_only_params (x :: names) rest
  end.

Definition body_reads_only_params (body : Body) : bool :=
  declarations_read_only_params [] (declarations body)
  && forallb (declared (map fst (declarations body))) (newResults body)
  && forallb (declared (map fst (declarations body))) (toastReads body).

(** Every declared name is bound to a value. *)
Definition binds {N : Type} (names : list string)
    (consts : list (string * Value N)) : Prop :=
  forall x : string, declared names x = true -> lookup x consts <> None.

(** [params.name]. *)
Definition param (name : string) : Expression := Member "params" name.

(** The body of [calculateRates] (WirelessCommunication.tsx, lines 46-78). *)
Definition calculateRates_text : Body := {|
  declarations := [
    ("samplerRate",
     Binary Times (param "samplingRate") (param "quantizationBits"));
    ("quantizerRate", Identifier "samplerRate");
    ("sourceEncoderRate",
     Binary Times (Identifier "quantizerRate") (param "sourceEncodingRatio"));
    ("channelEncoderRate",
     Binary Over (Identifier "sourceEncoderRate") (param "channelEncodingRatio"));
    ("interleaverRate", Identifier "channelEncoderRate");
    ("burstFormatterRate",
     Binary Times (Identifier "interleaverRate")
       (Binary Over (param "burstLength")
          (Binary Plus (param "burstLength") (NumericLiteral 8.25))))];
  newResults := ["samplerRate"; "quantizerRate"; "sourceEncoderRate";
                 "channelEncoderRate"; "interleaverRate"; "burstFormatterRate"];
  toastReads := []
|}.

(** The body of [calculateLinkBudget] (the link-budget component bundled
    with Index.tsx, lines 172-200). *)
Definition calculateLinkBudget_text : Body := {|
  declarations := [
    ("eirp", Binary Plus (param "transmitterPower") (param "transmitterGain"));
    ("freeSpaceLoss",
     Binary Plus
       (Binary Plus
          (Binary Times (NumericLiteral 20) (Call1 "Math" "log10" (param "distance")))
          (Binary Times (NumericLiteral 20) (Call1 "Math" "log10" (param "frequency"))))
       (NumericLiteral 32.44));
    ("receivedPower",
     Binary Minus
       (Binary Plus
          (Binary Minus (Identifier "eirp") (Identifier "freeSpaceLoss"))
          (param "receiverGain"))
       (param "systemLoss"));
    ("linkMargin",
     Binary Minus
       (Binary Minus (Identifier "receivedPower") (param "receiverSensitivity"))
       (param "fadeMargin"));
    ("isLinkViable", Binary GreaterThan (Identifier "linkMargin") (NumericLiteral 0))];
  newResults := ["eirp"; "freeSpaceLoss"; "receivedPower"; "linkMargin";
                 "isLinkViable"];
  toastReads := ["isLinkViable"; "linkMargin"]
|}.

(** The body of [calculateCellular] (CellularDesign.tsx, lines 52-91). *)
Definition calculateCellular_text : Body := {|
  declarations := [
    ("maxPathLoss",
     Binary Minus
       (Binary Minus
          (Binary Plus (param "baseSationPower") (param "mobilePower"))
          (param "shadowingMargin"))
       (param "interferenceMargin"));
    ("cellRadius",
     Call2 "Math" "pow" (NumericLiteral 10)
       (Binary Over
          (Binary Minus
             (Binary Minus (Identifier "maxPathLoss") (NumericLiteral 32.44))
             (Binary Times (NumericLiteral 20)
                (Call1 "Math" "log10" (param "frequency"))))
          (Binary Times (NumericLiteral 10) (param "pathLossExponent"))));
    ("cellArea",
     Binary Times (NumericLiteral 2.598)
       (Call2 "Math" "pow" (Identifier "cellRadius") (NumericLiteral 2)));
    ("numberOfCells",
     Call1 "Math" "ceil" (Binary Over (param "coverageArea") (Identifier "cellArea")));
    ("totalTraffic",
     Binary Over
       (Binary Times (param "trafficDensity") (param "callDuration"))
       (NumericLiteral 3600));
    ("trafficePerCell",
     Binary Over (Identifier "totalTraffic") (Identifier "numberOfCells"));
    ("channelsPerCell",
     Call1 "Math" "ceil"
       (Binary Plus
          (Binary Plus (Identifier "trafficePerCell")
             (Binary Times (NumericLiteral 3)
                (Call1 "Math" "sqrt" (Identifier "trafficePerCell"))))
          (NumericLiteral 2)));
    ("cellCapacity",
     Binary Times (Identifier "channelsPerCell")
       (Binary Minus (NumericLiteral 1) (param "blockingProbability")));
    ("frequencyReuseFactor",
     Call1 "Math" "ceil"
       (Call2 "Math" "pow"
          (Binary Over
             (Binary Times (NumericLiteral 3) (Identifier "channelsPerCell"))
             (NumericLiteral 30))
          (Binary Over (NumericLiteral 2) (NumericLiteral 3))));
    ("spectrumEfficiency",
     Binary Over (Identifier "cellCapacity")
       (Binary Times (Identifier "channelsPerCell") (NumericLiteral 0.2)))];
  newResults := ["cellRadius"; "numberOfCells"; "trafficePerCell";
                 "channelsPerCell"; "cellCapacity"; "frequencyReuseFactor";
                 "spectrumEfficiency"];
  toastReads := []
|}.

(** The body of [calculateOFDM] (OFDMSystem.tsx, lines 48-77). *)
Definition calculateOFDM_text : Body := {|
  declarations := [
    ("bitsPerResourceElement",
     Binary Times (Call1 "Math" "log2" (param "modulationOrder"))
       (param "codingRate"));
    ("resourceElementRate",
     Binary Times (Identifier "bitsPerResourceElement")
       (Binary Over (NumericLiteral 1000)
          (Binary Times (param "symbolDuration")
             (Binary Plus (NumericLiteral 1) (param "cyclicPrefixRatio")))));
    ("ofdmSymbolRate",
     Binary Times (Identifier "resourceElementRate")
       (param "resourceElementsPerSymbol"));
    ("resourceBlockRate",
     Binary Times (Identifier "ofdmSymbolRate") (param "symbolsPerResourceBlock"));
    ("maxTransmissionCapacity",
     Binary Times (Identifier "resourceBlockRate") (param "resourceBlocksParallel"));
    ("spectralEfficiency",
     Binary Over (Identifier "maxTransmissionCapacity") (param "bandwidth"))];
  newResults := ["resourceElementRate"; "ofdmSymbolRate"; "resourceBlockRate";
                 "maxTransmissionCapacity"; "spectralEfficiency"];
  toastReads := []
|}.

(** A body that is not a calculator of the application: it draws a random
    number and reads the record stored before. *)
Definition noisy_text : Body := {|
  declarations := [
    ("samplerRate",
     Binary Plus
       (Binary Times (param "samplingRate") (Call0 "Math" "random"))
       (Member "results" "samplerRate"))];
  newResults := ["samplerRate"];
  toastReads := []
|}.

End ReadsOnlyParams.

Section Properties.
Context {N : Type}.
Local Open Scope string_scope.

(** The parameter and result records as JavaScript objects: their
    properties by name. *)
Definition WirelessParams_properties (p : WirelessParams N) : list (string * N) :=
  [("sourceBitRate", sourceBitRate p); ("samplingRate", samplingRate p);
   ("quantizationBits", quantizationBits p);
   ("sourceEncodingRatio", sourceEncodingRatio p);
   ("channelEncodingRatio", channelEncodingRatio p);
   ("interleaverDepth", interleaverDepth p); ("burstLength", burstLength p)].

Definition WirelessResults_properties (r : WirelessResults N)
    : list (string * Value N) :=
  [("samplerRate", VNumber (samplerRate r));
   ("quantizerRate", VNumber (quantizerRate r));
   ("sourceEncoderRate", VNumber (sourceEncoderRate r));
   ("channelEncoderRate", VNumber (channelEncoderRate r));
   ("interleaverRate", VNumber (interleaverRate r));
   ("burstFormatterRate", VNumber (burstFormatterRate r))].

Definition LinkBudgetParams_properties (p : LinkBudgetParams N) : list (string * N) :=
  [("transmitterPower", transmitterPower p);
   ("transmitterGain", transmitterGain p); ("frequency", lb_frequency p);
   ("distance", distance p); ("receiverGain", receiverGain p);
   ("systemLoss", systemLoss p); ("fadeMargin", fadeMargin p);
   ("receiverSensitivity", receiverSensitivity p)].

Definition LinkBudgetResults_properties (r : LinkBudgetResults N)
    : list (string * Value N) :=
  [("eirp", VNumber (eirp r)); ("freeSpaceLoss", VNumber (freeSpaceLoss r));
   ("receivedPower", VNumber (receivedPower r));
   ("linkMargin", VNumber (linkMargin r));
   ("isLinkViable", VBoolean (isLinkViable r))].

Definition CellularParams_properties (p : CellularParams N) : list (string * N) :=
  [("coverageArea", coverageArea p); ("trafficDensity", trafficDensity p);
   ("callDuration", callDuration p);
   ("blockingProbability", blockingProbability p); ("frequency", frequency p);
   ("baseSationPower", baseSationPower p); ("mobilePower", mobilePower p);
   ("pathLossExponent", pathLossExponent p);
   ("shadowingMargin", shadowingMargin p);
   ("interferenceMargin", interferenceMargin p)].

Definition CellularResults_properties (r : CellularResults N)
    : list (string * Value N) :=
  [("cellRadius", VNumber (cellRadius r));
   ("numberOfCells", VNumber (numberOfCells r));
   ("trafficePerCell", VNumber (trafficePerCell r));
   ("channelsPerCell", VNumber (channelsPerCell r));
   ("cellCapacity", VNumber (cellCapacity r));
   ("frequencyReuseFactor", VNumber (frequencyReuseFactor r));
   ("spectrumEfficiency", VNumber (spectrumEfficiency r))].

Definition OFDMParams_properties (p : OFDMParams N) : list (string * N) :=
  [("subcarrierSpacing", subcarrierSpacing p);
   ("symbolDuration", symbolDuration p);
   ("cyclicPrefixRatio", cyclicPrefixRatio p);
   ("resourceElementsPerSymbol", resourceElementsPerSymbol p);
   ("symbolsPerResourceBlock", symbolsPerResourceBlock p);
   ("resourceBlocksParallel", resourceBlocksParallel p);
   ("modulationOrder", modulationOrder p); ("codingRate", codingRate p);
   ("bandwidth", bandwidth p)].

Definition OFDMResults_properties (r : OFDMResults N) : list (string * Value N) :=
  [("resourceElementRate", VNumber (resourceElementRate r));
   ("ofdmSymbolRate", VNumber (ofdmSymbolRate r));
   ("resourceBlockRate", VNumber (resourceBlockRate r));
   ("maxTransmissionCapacity", VNumber (maxTransmissionCapacity r));
   ("spectralEfficiency", VNumber (spectralEfficiency r))].

End Properties.

(** Two worlds that differ in what [Math.random()] returns and in the record
    stored before. *)
Definition quiet_world : World float := {|
  outer_variable := fun _ => None;
  outer_property := fun _ _ => Some (VNumber 0%float);
  outer_call := fun _ _ _ => Some (VNumber 0%float)
|}.

Definition other_world : World float := {|
  outer_variable := fun _ => None;
  outer_property := fun _ _ => Some (VNumber 64000%float);
  outer_call := fun _ _ _ => Some (VNumber 0.5%float)
|}.

(** * Properties *)

(** ** Reasoning about the ideal instance *)

Section IdealFacts.
Local Open Scope R_scope.

Lemma sgn_pos (x : R) : 0 < x -> Ideal.sgn x = Pos.
Proof.
  intros Hx. unfold Ideal.sgn.
  destruct (total_order_T x 0) as [[Hlt | Heq] | Hgt]; try reflexivity; lra.
Qed.

Lemma sgn_neg (x : R) : x < 0 -> Ideal.sgn x = Neg.
Proof.
  intros Hx. unfold Ideal.sgn.
  destruct (total_order_T x 0) as [[Hlt | Heq] | Hgt]; try reflexivity; lra.
Qed.

Lemma sgn_zero : Ideal.sgn 0 = Zero.
Proof.
  unfold Ideal.sgn.
  destruct (total_order_T 0 0) as [[Hlt | Heq] | Hgt]; try reflexivity; lra.
Qed.

Lemma sgn_cases (x : R) :
  (x < 0 /\ Ideal.sgn x = Neg) \/ (x = 0 /\ Ideal.sgn x = Zero)
  \/ (0 < x /\ Ideal.sgn x = Pos).
Proof.
  destruct (total_order_T x 0) as [[Hlt | Heq] | Hgt].
  - left. split; [assumption | now apply sgn_neg].
  - right; left. subst x. split; [reflexivity | apply sgn_zero].
  - right; right. split; [assumption | now apply sgn_pos].
Qed.

Lemma ln_gt_1 (b : R) : 1 < b -> 0 < ln b.
Proof.
  intros Hb. rewrite <- ln_1. apply ln_increasing; lra.
Qed.

(** Rational bounds on a logarithm from a comparison of integer powers. *)
Lemma log_ratio_lower (b x : R) (p q : nat) :
  1 < b -> 0 < x -> (0 < q)%nat -> b ^ p < x ^ q ->
  INR p / INR q < ln x / ln b.
Proof.
  intros Hb Hx Hq Hpow.
  assert (Hlnb : 0 < ln b) by now apply ln_gt_1.
  assert (HQ : 0 < INR q) by now apply lt_0_INR.
  assert (Hln : ln (b ^ p) < ln (x ^ q)).
  { apply ln_increasing; [apply pow_lt; lra | assumption]. }
  rewrite !ln_pow in Hln by lra.
  apply (Rmult_lt_reg_r (INR q * ln b)); [now apply Rmult_lt_0_compat |].
  replace (INR p / INR q * (INR q * ln b)) with (INR p * ln b) by (field; lra).
  replace (ln x / ln b * (INR q * ln b)) with (INR q * ln x) by (field; lra).
  exact Hln.
Qed.

Lemma log_ratio_upper (b x : R) (p q : nat) :
  1 < b -> 0 < x -> (0 < q)%nat -> x ^ q < b ^ p ->
  ln x / ln b < INR p / INR q.
Proof.
  intros Hb Hx Hq Hpow.
  assert (Hlnb : 0 < ln b) by now apply ln_gt_1.
  assert (HQ : 0 < INR q) by now apply lt_0_INR.
  assert (Hln : ln (x ^ q) < ln (b ^ p)).
  { apply ln_increasing; [apply pow_lt; lra | assumption]. }
  rewrite !ln_pow in Hln by lra.
  apply (Rmult_lt_reg_r (INR q * ln b)); [now apply Rmult_lt_0_compat |].
  replace (INR p / INR q * (INR q * ln b)) with (INR p * ln b) by (field; lra).
  replace (ln x / ln b * (INR q * ln b)) with (INR q * ln x) by (field; lra).
  exact Hln.
Qed.

Lemma pow_lt_of_Z (a b : Z) (m n : nat) :
  (a ^ Z.of_nat m < b ^ Z.of_nat n)%Z -> IZR a ^ m < IZR b ^ n.
Proof.
  intros Hlt. rewrite !pow_IZR. now apply IZR_lt.
Qed.

Lemma log10_2400_bounds :
  3.380208 < ln 2400 / ln 10 < 3.380229.
Proof.
  split.
  - apply Rlt_trans with (INR 649 / INR 192).
    + rewrite !INR_IZR_INZ. change (Z.of_nat 649) with 649%Z.
      change (Z.of_nat 192) with 192%Z. lra.
    + apply log_ratio_lower; [lra | lra | lia |].
      apply pow_lt_of_Z. vm_compute. reflexivity.
  - apply Rlt_trans with (INR 889 / INR 263).
    + apply log_ratio_upper; [lra | lra | lia |].
      apply pow_lt_of_Z. vm_compute. reflexivity.
    + rewrite !INR_IZR_INZ. change (Z.of_nat 889) with 889%Z.
      change (Z.of_nat 263) with 263%Z. lra.
Qed.

Lemma log_base_self (b : R) : 1 < b -> ln b / ln b = 1.
Proof.
  intros Hb. pose proof (ln_gt_1 Hb). field. lra.
Qed.

End IdealFacts.

Arguments Ideal.div : simpl never.
Arguments Ideal.log_base : simpl never.
Arguments Ideal.sqrt : simpl never.
Arguments Ideal.pow : simpl never.
Arguments Ideal.gtb : simpl never.
Arguments Ideal.scale_inf : simpl never.
Arguments Ideal.lit : simpl never.

Section IdealRewriting.
Local Open Scope R_scope.

Lemma lit_fin (n : Z) (d : positive) :
  Ideal.lit (n # d) = Fin (IZR n / IZR (Zpos d)).
Proof. reflexivity. Qed.

Lemma div_fin (x y : R) : y <> 0 -> Ideal.div (Fin x) (Fin y) = Fin (x / y).
Proof.
  intros Hy. unfold Ideal.div.
  destruct (sgn_cases y) as [[_ ->] | [[Hz _] | [_ ->]]]; try reflexivity.
  contradiction.
Qed.

Lemma log_base_fin_pos (b x : R) :
  0 < x -> Ideal.log_base b (Fin x) = Fin (ln x / ln b).
Proof. intros Hx. unfold Ideal.log_base. now rewrite sgn_pos. Qed.

Lemma log_base_zero (b : R) : Ideal.log_base b (Fin 0) = NInf.
Proof. unfold Ideal.log_base. now rewrite sgn_zero. Qed.

Lemma scale_inf_pos (i : num) (y : R) : 0 < y -> Ideal.scale_inf i y = i.
Proof. intros Hy. unfold Ideal.scale_inf. now rewrite sgn_pos. Qed.

End IdealRewriting.

(** ** The link budget *)

Section LinkBudgetFacts.
Local Open Scope R_scope.

(** The ideal instance on finite parameters with positive distance and
    frequency: over exact reals every field is a finite number, given by the
    real-valued formulas. *)
Lemma calculateLinkBudget_fin (tp tg f d rg sl fm rs : R) :
  0 < d -> 0 < f ->
  let fsl := 20 * (ln d / ln 10) + 20 * (ln f / ln 10) + 32.44 in
  let rp := tp + tg - fsl + rg - sl in
  let lm := rp - rs - fm in
  calculateLinkBudget
    {| transmitterPower := Fin tp; transmitterGain := Fin tg;
       lb_frequency := Fin f; distance := Fin d; receiverGain := Fin rg;
       systemLoss := Fin sl; fadeMargin := Fin fm;
       receiverSensitivity := Fin rs |}
  = {| eirp := Fin (tp + tg); freeSpaceLoss := Fin fsl;
       receivedPower := Fin rp; linkMargin := Fin lm;
       isLinkViable := if Rlt_dec 0 lm then true else false |}.
Proof.
  intros Hd Hf fsl rp lm.
  unfold calculateLinkBudget. cbn.
  unfold Ideal.log10. rewrite !log_base_fin_pos by assumption.
  rewrite !lit_fin. cbn.
  unfold Ideal.gtb.
  assert (E : 20 / 1 * (ln d / ln 10) + 20 / 1 * (ln f / ln 10) + 3244 / 100 = fsl)
    by (unfold fsl; lra).
  rewrite E.
  replace (tp + tg + - fsl + rg + - sl) with rp by (unfold rp; lra).
  replace (rp + - rs + - fm) with lm by (unfold lm; lra).
  replace (0 / 1) with 0 by lra.
  reflexivity.
Qed.

End LinkBudgetFacts.
(** ** Reasoning about doubles through their specification

    The operations of binary64 are specified on [spec_float]; what follows
    needs only their special cases (NaN, the infinities, the zeros), never
    the rounding of a finite result. *)

Section DoubleFacts.

Lemma SFcompare_refl (x : spec_float) :
  x <> S754_nan -> SFcompare x x = Some Eq.
Proof.
  destruct x as [s | s | | s m e]; intros H; try contradiction; cbn.
  - reflexivity.
  - now destruct s.
  - destruct s; rewrite Z.compare_refl, Pos.compare_cont_refl; reflexivity.
Qed.

Lemma is_nan_spec (x : float) :
  PrimFloat.is_nan x = true <-> Prim2SF x = S754_nan.
Proof.
  unfold PrimFloat.is_nan. rewrite eqb_spec. unfold SFeqb.
  split.
  - intros H. destruct (Prim2SF x) eqn:E; try reflexivity;
      rewrite SFcompare_refl in H by discriminate; discriminate.
  - intros ->. reflexivity.
Qed.

Lemma is_zero_spec (x : float) :
  PrimFloat.is_zero x = true <-> exists s, Prim2SF x = S754_zero s.
Proof.
  unfold PrimFloat.is_zero. rewrite eqb_spec.
  change (Prim2SF zero) with (S754_zero false).
  unfold SFeqb. split.
  - destruct (Prim2SF x) as [s | s | | s m e]; cbn; try discriminate.
    + intros _. now exists s.
    + destruct s; discriminate.
    + destruct s; discriminate.
  - intros [s ->]. reflexivity.
Qed.

Lemma is_infinity_spec (x : float) :
  PrimFloat.is_infinity x = true <-> exists s, Prim2SF x = S754_infinity s.
Proof.
  unfold PrimFloat.is_infinity. rewrite eqb_spec, abs_spec.
  change (Prim2SF infinity) with (S754_infinity false).
  unfold SFeqb. split.
  - destruct (Prim2SF x) as [s | s | | s m e]; cbn; try discriminate.
    intros _. now exists s.
  - intros [s ->]. reflexivity.
Qed.

Lemma eqb_infinity_spec (x : float) :
  PrimFloat.eqb x infinity = true <-> Prim2SF x = S754_infinity false.
Proof.
  rewrite eqb_spec. change (Prim2SF infinity) with (S754_infinity false).
  unfold SFeqb. destruct (Prim2SF x) as [s | s | | s m e]; cbn;
    try destruct s; split; intros H; try reflexivity; discriminate.
Qed.

Lemma eqb_neg_infinity_spec (x : float) :
  PrimFloat.eqb x neg_infinity = true <-> Prim2SF x = S754_infinity true.
Proof.
  rewrite eqb_spec. change (Prim2SF neg_infinity) with (S754_infinity true).
  unfold SFeqb. destruct (Prim2SF x) as [s | s | | s m e]; cbn;
    try destruct s; split; intros H; try reflexivity; discriminate.
Qed.

Lemma zero_or_nan_spec (x : float) :
  zero_or_nan x = true <-> (exists s, Prim2SF x = S754_zero s) \/ Prim2SF x = S754_nan.
Proof.
  unfold zero_or_nan. now rewrite orb_true_iff, is_zero_spec, is_nan_spec.
Qed.

Lemma infinite_or_nan_spec (x : float) :
  infinite_or_nan x = true
  <-> (exists s, Prim2SF x = S754_infinity s) \/ Prim2SF x = S754_nan.
Proof.
  unfold infinite_or_nan. now rewrite orb_true_iff, is_infinity_spec, is_nan_spec.
Qed.

Lemma plus_infinity_or_nan_spec (x : float) :
  plus_infinity_or_nan x = true
  <-> Prim2SF x = S754_infinity false \/ Prim2SF x = S754_nan.
Proof.
  unfold plus_infinity_or_nan. now rewrite orb_true_iff, eqb_infinity_spec, is_nan_spec.
Qed.

Lemma minus_infinity_or_nan_spec (x : float) :
  minus_infinity_or_nan x = true
  <-> Prim2SF x = S754_infinity true \/ Prim2SF x = S754_nan.
Proof.
  unfold minus_infinity_or_nan.
  now rewrite orb_true_iff, eqb_neg_infinity_spec, is_nan_spec.
Qed.


Lemma is_finite_spec (x : float) :
  PrimFloat.is_finite x = true
  <-> (exists s, Prim2SF x = S754_zero s) \/ (exists s m e, Prim2SF x = S754_finite s m e).
Proof.
  unfold PrimFloat.is_finite. rewrite negb_true_iff, orb_false_iff.
  split.
  - intros [Hn Hi].
    destruct (Prim2SF x) as [s | s | | s m e] eqn:E.
    + left. now exists s.
    + assert (Hinf : PrimFloat.is_infinity x = true)
        by (apply is_infinity_spec; now exists s).
      congruence.
    + assert (Hnan : PrimFloat.is_nan x = true) by now apply is_nan_spec.
      congruence.
    + right. now exists s, m, e.
  - intros H. split.
    + destruct (PrimFloat.is_nan x) eqn:E; [| reflexivity].
      apply is_nan_spec in E. destruct H as [[s H] | (s & m & e & H)]; congruence.
    + destruct (PrimFloat.is_infinity x) eqn:E; [| reflexivity].
      apply is_infinity_spec in E as [s' E].
      destruct H as [[s H] | (s & m & e & H)]; congruence.
Qed.

Lemma zero_or_nan_false_spec (x : float) :
  zero_or_nan x = false
  <-> (exists s, Prim2SF x = S754_infinity s)
      \/ (exists s m e, Prim2SF x = S754_finite s m e).
Proof.
  split.
  - intros H. destruct (Prim2SF x) as [s | s | | s m e] eqn:E.
    + assert (Hz : zero_or_nan x = true) by (apply zero_or_nan_spec; eauto).
      congruence.
    + left. now exists s.
    + assert (Hz : zero_or_nan x = true) by (apply zero_or_nan_spec; eauto).
      congruence.
    + right. now exists s, m, e.
  - intros H. destruct (zero_or_nan x) eqn:E; [| reflexivity].
    apply zero_or_nan_spec in E.
    destruct H as [[s H] | (s & m & e & H)], E as [[s' E] | E]; congruence.
Qed.

End DoubleFacts.

(** Moving a statement about doubles to their specification. *)
Ltac to_spec :=
  repeat match goal with
    | H : _ |- _ =>
        first [ rewrite zero_or_nan_false_spec in H
              | rewrite zero_or_nan_spec in H | rewrite infinite_or_nan_spec in H
              | rewrite plus_infinity_or_nan_spec in H
              | rewrite minus_infinity_or_nan_spec in H
              | rewrite is_finite_spec in H
              | rewrite is_nan_spec in H | rewrite is_zero_spec in H
              | rewrite is_infinity_spec in H ]
    end;
  try apply Prim2SF_inj;
  rewrite ?zero_or_nan_false_spec, ?zero_or_nan_spec, ?infinite_or_nan_spec,
    ?plus_infinity_or_nan_spec, ?minus_infinity_or_nan_spec, ?is_finite_spec,
    ?is_nan_spec, ?is_zero_spec, ?is_infinity_spec;
  repeat first [ rewrite mul_spec | rewrite add_spec | rewrite sub_spec
               | rewrite div_spec | rewrite sqrt_spec ];
  unfold SF64mul, SF64add, SF64sub, SF64div, SF64sqrt;
  repeat match goal with
    | |- context [Prim2SF (F64.lit ?q)] =>
        let v := eval vm_compute in (Prim2SF (F64.lit q)) in
        change (Prim2SF (F64.lit q)) with v
    end.

Ltac spec_cases :=
  repeat match goal with
    | H : _ \/ _ |- _ => destruct H as [H | H]
    | H : exists _, _ |- _ => destruct H as [? H]
    end;
  repeat match goal with
    | H : Prim2SF ?x = _ |- _ => rewrite H in *; clear H
    end;
  repeat match goal with
    | |- context [Prim2SF ?x] =>
        is_var x; let s := fresh "s" in
        destruct (Prim2SF x) as [s | s | | s ? ?]; try destruct s
    end;
  repeat match goal with
    | b : bool |- _ => destruct b
    end;
  cbn; eauto 8.

Section SpecialValues.

Lemma mul_nan_l (x y : float) :
  PrimFloat.is_nan x = true -> PrimFloat.is_nan (x * y) = true.
Proof. intros H. to_spec. spec_cases. Qed.

Lemma mul_nan_r (x y : float) :
  PrimFloat.is_nan y = true -> PrimFloat.is_nan (x * y) = true.
Proof. intros H. to_spec. spec_cases. Qed.

Lemma add_nan_l (x y : float) :
  PrimFloat.is_nan x = true -> PrimFloat.is_nan (x + y) = true.
Proof. intros H. to_spec. spec_cases. Qed.

Lemma add_nan_r (x y : float) :
  PrimFloat.is_nan y = true -> PrimFloat.is_nan (x + y) = true.
Proof. intros H. to_spec. spec_cases. Qed.

Lemma sub_nan_l (x y : float) :
  PrimFloat.is_nan x = true -> PrimFloat.is_nan (x - y) = true.
Proof. intros H. to_spec. spec_cases. Qed.

Lemma sub_nan_r (x y : float) :
  PrimFloat.is_nan y = true -> PrimFloat.is_nan (x - y) = true.
Proof. intros H. to_spec. spec_cases. Qed.

Lemma div_nan_l (x y : float) :
  PrimFloat.is_nan x = true -> PrimFloat.is_nan (x / y) = true.
Proof. intros H. to_spec. spec_cases. Qed.

Lemma div_nan_r (x y : float) :
  PrimFloat.is_nan y = true -> PrimFloat.is_nan (x / y) = true.
Proof. intros H. to_spec. spec_cases. Qed.

Lemma sqrt_nan (x : float) :
  PrimFloat.is_nan x = true -> PrimFloat.is_nan (PrimFloat.sqrt x) = true.
Proof. intros H. to_spec. spec_cases. Qed.

Lemma mul_zero_or_nan_l (x y : float) :
  zero_or_nan x = true -> zero_or_nan (x * y) = true.
Proof. intros H. to_spec. spec_cases. Qed.

Lemma div_zero_or_nan_l (x y : float) :
  zero_or_nan x = true -> zero_or_nan (x / y) = true.
Proof. intros H. to_spec. spec_cases. Qed.

Lemma mul_zero_finite (x y : float) :
  PrimFloat.is_zero x = true -> PrimFloat.is_finite y = true ->
  PrimFloat.is_zero (x * y) = true.
Proof. intros Hx Hy. to_spec. spec_cases. Qed.


Lemma mul_zero_or_nan_infinite (x y : float) :
  zero_or_nan x = true -> infinite_or_nan y = true ->
  PrimFloat.is_nan (x * y) = true.
Proof. intros Hx Hy. to_spec. spec_cases. Qed.

Lemma div_zero_nonzero (x y : float) :
  PrimFloat.is_zero x = true -> zero_or_nan y = false ->
  PrimFloat.is_zero (x / y) = true.
Proof. intros Hx Hy. to_spec. spec_cases. Qed.


Lemma div_by_zero_or_nan (x y : float) :
  zero_or_nan y = true -> infinite_or_nan (x / y) = true.
Proof. intros Hy. to_spec. spec_cases. Qed.

Lemma mul_infinite_or_nan_l (x y : float) :
  infinite_or_nan x = true -> infinite_or_nan (x * y) = true.
Proof. intros Hx. to_spec. spec_cases. Qed.




Lemma sqrt_negative (x : float) :
  PrimFloat.ltb x 0 = true -> PrimFloat.is_nan (PrimFloat.sqrt x) = true.
Proof.
  rewrite ltb_spec. change (Prim2SF 0) with (S754_zero false). unfold SFltb.
  intros Hx. to_spec.
  destruct (Prim2SF x) as [s | s | | s m e]; try destruct s; cbn in *;
    try discriminate; reflexivity.
Qed.

Lemma ceil_special (x : float) :
  PrimFloat.is_nan x || PrimFloat.is_infinity x || PrimFloat.is_zero x = true ->
  F64.ceil x = x.
Proof. intros H. unfold F64.ceil. now rewrite H. Qed.

Lemma ceil_nan (x : float) :
  PrimFloat.is_nan x = true -> PrimFloat.is_nan (F64.ceil x) = true.
Proof. intros H. rewrite ceil_special; [assumption | now rewrite H]. Qed.

Lemma ceil_zero_or_nan (x : float) :
  zero_or_nan x = true -> zero_or_nan (F64.ceil x) = true.
Proof.
  intros H. rewrite ceil_special; [assumption |].
  unfold zero_or_nan in H. apply orb_true_iff in H as [-> | ->];
    now rewrite ?orb_true_r.
Qed.

Lemma ceil_plus_infinity_or_nan (x : float) :
  plus_infinity_or_nan x = true -> plus_infinity_or_nan (F64.ceil x) = true.
Proof.
  intros H. rewrite ceil_special; [assumption |].
  apply plus_infinity_or_nan_spec in H as [H | H].
  - assert (Hi : PrimFloat.is_infinity x = true) by (apply is_infinity_spec; eauto).
    rewrite Hi. now rewrite orb_true_r.
  - apply is_nan_spec in H. now rewrite H.
Qed.

(** The channel formula at a traffic that is infinite or NaN. *)
Lemma channels_of_infinite_or_nan (t : float) :
  infinite_or_nan t = true ->
  plus_infinity_or_nan (t + F64.lit 3 * PrimFloat.sqrt t + F64.lit 2) = true.
Proof. intros H. to_spec. spec_cases. Qed.

Lemma efficiency_of_infinite_or_nan (c k : float) :
  plus_infinity_or_nan c = true -> infinite_or_nan k = true ->
  PrimFloat.is_nan (k / (c * F64.lit 0.2)) = true.
Proof. intros Hc Hk. to_spec. spec_cases. Qed.

Lemma plus_infinity_is_infinite (x : float) :
  plus_infinity_or_nan x = true -> infinite_or_nan x = true.
Proof. intros H. to_spec. spec_cases. Qed.

Lemma add_infinity_finite (x y : float) :
  PrimFloat.is_infinity x = true -> PrimFloat.is_finite y = true ->
  (x + y)%float = x.
Proof. intros Hx Hy. to_spec. spec_cases. Qed.

Lemma sub_infinity_finite (x y : float) :
  PrimFloat.is_infinity x = true -> PrimFloat.is_finite y = true ->
  (x - y)%float = x.
Proof. intros Hx Hy. to_spec. spec_cases. Qed.

Lemma sub_finite_minus_infinity (x : float) :
  PrimFloat.is_finite x = true -> (x - neg_infinity)%float = infinity.
Proof.
  intros Hx. to_spec. change (Prim2SF neg_infinity) with (S754_infinity true).
  change (Prim2SF infinity) with (S754_infinity false). spec_cases.
Qed.
Lemma add_minus_infinity_l (x y : float) :
  minus_infinity_or_nan x = true -> minus_infinity_or_nan (x + y) = true.
Proof. intros H. to_spec. spec_cases. Qed.

Lemma add_minus_infinity_r (x y : float) :
  minus_infinity_or_nan y = true -> minus_infinity_or_nan (x + y) = true.
Proof. intros H. to_spec. spec_cases. Qed.

Lemma add_plus_infinity_l (x y : float) :
  plus_infinity_or_nan x = true -> plus_infinity_or_nan (x + y) = true.
Proof. intros H. to_spec. spec_cases. Qed.

Lemma sub_plus_infinity_l (x y : float) :
  plus_infinity_or_nan x = true -> plus_infinity_or_nan (x - y) = true.
Proof. intros H. to_spec. spec_cases. Qed.

Lemma sub_minus_infinity_r (x y : float) :
  minus_infinity_or_nan y = true -> plus_infinity_or_nan (x - y) = true.
Proof. intros H. to_spec. spec_cases. Qed.

Lemma gtb_zero_plus_infinity_or_nan (x : float) :
  plus_infinity_or_nan x = true ->
  F64.gtb x (F64.lit 0) = PrimFloat.eqb x infinity.
Proof.
  intros H. unfold F64.gtb. rewrite ltb_spec, eqb_spec.
  change (Prim2SF (F64.lit 0)) with (S754_zero false).
  change (Prim2SF infinity) with (S754_infinity false).
  to_spec. spec_cases.
Qed.

Lemma gtb_nan (x y : float) : PrimFloat.is_nan x = true -> F64.gtb x y = false.
Proof.
  intros H. unfold F64.gtb. rewrite ltb_spec. to_spec. unfold SFltb. spec_cases.
Qed.


Lemma nan_is_not_zero (x : float) :
  PrimFloat.is_nan x = true -> PrimFloat.is_zero x = false.
Proof.
  intros H. destruct (PrimFloat.is_zero x) eqn:E; [| reflexivity].
  apply is_nan_spec in H. apply is_zero_spec in E as [s E]. congruence.
Qed.

Lemma nan_is_not_below (x y : float) :
  PrimFloat.is_nan x = true -> PrimFloat.ltb x y = false.
Proof.
  intros H. rewrite ltb_spec. apply is_nan_spec in H. rewrite H. reflexivity.
Qed.

Lemma below_zero_is_not_zero (x : float) :
  PrimFloat.ltb x 0 = true -> PrimFloat.is_zero x = false.
Proof.
  rewrite ltb_spec. change (Prim2SF 0) with (S754_zero false). intros H.
  destruct (PrimFloat.is_zero x) eqn:E; [| reflexivity].
  apply is_zero_spec in E as [s E]. rewrite E in H. discriminate H.
Qed.

Lemma reference_log_by_the_standard (table : list (float * float)) :
  tabulated table 1 = 0%float -> log_by_the_standard (reference_log table).
Proof.
  intros Hone. unfold log_by_the_standard, reference_log.
  split; [| split; [| split; [| split]]].
  - intros x Hx.
    now rewrite (@nan_is_not_zero x Hx), (@nan_is_not_below x 0 Hx), Hx.
  - reflexivity.
  - exact Hone.
  - intros x Hx. now rewrite Hx.
  - intros x Hx. now rewrite (@below_zero_is_not_zero x Hx), Hx.
Qed.

Lemma reference_library_by_the_standard :
  log_by_the_standard (libm_log10 reference_library)
  /\ log_by_the_standard (libm_log2 reference_library)
  /\ exact_cases reference_library.
Proof.
  split; [| split].
  - apply reference_log_by_the_standard. reflexivity.
  - apply reference_log_by_the_standard. reflexivity.
  - repeat split.
Qed.

End SpecialValues.

(** ** The digital chain *)

Section DigitalChainFacts.
Local Open Scope R_scope.

Lemma calculateRates_scenario_num (s i : num) :
  calculateRates (digital_chain_scenario s i)
  = {| samplerRate := Fin 64000;
       quantizerRate := Fin 64000;
       sourceEncoderRate := Fin 32000;
       channelEncoderRate := Fin (128000 / 3);
       interleaverRate := Fin (128000 / 3);
       burstFormatterRate := Fin (606208 / 15) |}.
Proof.
  unfold calculateRates, digital_chain_scenario. cbn.
  rewrite !lit_fin. cbn.
  rewrite !div_fin by lra. cbn.
  f_equal; f_equal; lra.
Qed.

(** The doubles the chain produces on the scenario. *)
Lemma calculateRates_scenario_f64 (s i : float) :
  let r := calculateRates (digital_chain_scenario s i) in
  samplerRate r = 64000%float
  /\ quantizerRate r = 64000%float
  /\ sourceEncoderRate r = 32000%float
  /\ (42666.66 <? channelEncoderRate r)%float = true
  /\ (channelEncoderRate r <? 42666.67)%float = true
  /\ interleaverRate r = channelEncoderRate r
  /\ (40413.86 <? burstFormatterRate r)%float = true
  /\ (burstFormatterRate r <? 40413.87)%float = true.
Proof.
  cbv zeta. repeat split; vm_compute; reflexivity.
Qed.

(** C3, as the specification states it, fails on the code: on the literal
    scenario the burst formatter rate is 606208/15 = 40413.866..., more than
    8.5 above the stated 40405.33, in exact arithmetic and in binary64
    alike. *)
Lemma C3_burst_rate_is_not_40405 :
  (exists b : R,
      burstFormatterRate (calculateRates (digital_chain_scenario (Fin 64000) (Fin 4)))
      = Fin b
      /\ 8.5 < b - 40405.33)
  /\ (40413.86 <? burstFormatterRate
                    (calculateRates (digital_chain_scenario 64000%float 4%float)))%float
     = true.
Proof.
  split.
  - exists (606208 / 15). rewrite calculateRates_scenario_num. cbn.
    split; [reflexivity | lra].
  - vm_compute. reflexivity.
Qed.

(** C3, amended: the calculator follows the chain samplerRate =
    samplingRate * quantizationBits, quantizerRate = samplerRate,
    sourceEncoderRate = quantizerRate * sourceEncodingRatio,
    channelEncoderRate = sourceEncoderRate / channelEncodingRatio,
    interleaverRate = channelEncoderRate, burstFormatterRate =
    interleaverRate * (burstLength / (burstLength + 8.25)); on the literal
    scenario it returns samplerRate = 64000, sourceEncoderRate = 32000,
    channelEncoderRate = 128000/3 (42666.67 to two decimals) and
    burstFormatterRate = 606208/15 (40413.87 to two decimals), and the
    doubles it computes are 64000, 32000 and numbers within 0.01 of those
    two. *)
Theorem C3_digital_chain_scenario :
  (forall (N : Type) (A : Arith N) (p : WirelessParams N),
      let r := calculateRates p in
      samplerRate r = (samplingRate p * quantizationBits p)%js
      /\ quantizerRate r = samplerRate r
      /\ sourceEncoderRate r = (quantizerRate r * sourceEncodingRatio p)%js
      /\ channelEncoderRate r = (sourceEncoderRate r / channelEncodingRatio p)%js
      /\ interleaverRate r = channelEncoderRate r
      /\ burstFormatterRate r
         = (interleaverRate r * (burstLength p / (burstLength p + lit 8.25)))%js)
  /\ (forall s i : num,
        let r := calculateRates (digital_chain_scenario s i) in
        samplerRate r = Fin 64000
        /\ sourceEncoderRate r = Fin 32000
        /\ channelEncoderRate r = Fin (128000 / 3)
        /\ burstFormatterRate r = Fin (606208 / 15))
  /\ Rabs (128000 / 3 - 42666.67) < 0.005
  /\ Rabs (606208 / 15 - 40413.87) < 0.005
  /\ (forall s i : float,
        let r := calculateRates (digital_chain_scenario s i) in
        samplerRate r = 64000%float
        /\ sourceEncoderRate r = 32000%float
        /\ (42666.66 <? channelEncoderRate r)%float = true
        /\ (channelEncoderRate r <? 42666.67)%float = true
        /\ (40413.86 <? burstFormatterRate r)%float = true
        /\ (burstFormatterRate r <? 40413.87)%float = true).
Proof.
  split; [| split; [| split; [| split]]].
  - intros N A p. cbv zeta. repeat split.
  - intros s i. cbv zeta. rewrite calculateRates_scenario_num. cbn.
    repeat split.
  - apply Rabs_def1; lra.
  - apply Rabs_def1; lra.
  - intros s i. pose proof (calculateRates_scenario_f64 s i) as Hf.
    cbv zeta in Hf |- *. tauto.
Qed.

End DigitalChainFacts.

(** ** OFDM *)

Section OFDMFacts.
Local Open Scope R_scope.

Lemma log2_4 : ln 4 / ln 2 = 2.
Proof.
  assert (H2 : 0 < ln 2) by (apply ln_gt_1; lra).
  replace 4 with (2 * 2) by lra.
  rewrite ln_mult by lra. field. lra.
Qed.

Lemma calculateOFDM_scenario (sc : num) :
  bitsPerResourceElement (ofdm_scenario sc) = Fin 1
  /\ calculateOFDM (ofdm_scenario sc)
     = {| resourceElementRate := Fin scenario_element_rate;
          ofdmSymbolRate := Fin (12 * scenario_element_rate);
          resourceBlockRate := Fin (168 * scenario_element_rate);
          maxTransmissionCapacity := Fin (16800 * scenario_element_rate);
          spectralEfficiency := Fin (16800 * scenario_element_rate / 20000000) |}.
Proof.
  unfold calculateOFDM, bitsPerResourceElement, ofdm_scenario. cbn.
  unfold Ideal.log2. rewrite log_base_fin_pos by lra. rewrite log2_4.
  rewrite !lit_fin. cbn.
  rewrite !div_fin by lra. cbn.
  rewrite !div_fin by lra.
  unfold scenario_element_rate.
  split; [f_equal; lra |].
  f_equal; f_equal; lra.
Qed.

(** C4, as the specification states it, fails on the code: on the literal
    scenario the resource element rate is 1000/71.3369 = 14.0179..., not
    14.037, and the rates derived from it are lower than stated by the same
    proportion. *)
Lemma C4_rates_are_not_as_stated :
  exists re sy rb cap se : R,
    calculateOFDM (ofdm_scenario (Fin 15000))
    = {| resourceElementRate := Fin re;
         ofdmSymbolRate := Fin sy;
         resourceBlockRate := Fin rb;
         maxTransmissionCapacity := Fin cap;
         spectralEfficiency := Fin se |}
    /\ 0.019 < 14.037 - re
    /\ 0.22 < 168.44 - sy
    /\ 3.1 < 2358.2 - rb
    /\ 317 < 235820 - cap
    /\ 0.00001 < 0.01179 - se.
Proof.
  destruct (calculateOFDM_scenario (Fin 15000)) as [_ ->].
  do 5 eexists. split; [reflexivity |].
  unfold scenario_element_rate. repeat split; lra.
Qed.

(** C4, amended: resourceElementRate = bitsPerResourceElement * (1000 /
    (symbolDuration * (1 + cyclicPrefixRatio))) with the constant 1000, and
    the other rates follow by the three products and the quotient by the
    bandwidth; on the literal scenario bitsPerResourceElement = log2(4) * 0.5
    = 1, resourceElementRate = 1000 / (66.67 * 1.07) = 14.018 (to three
    decimals), ofdmSymbolRate = 168.22, resourceBlockRate = 2355.02,
    maxTransmissionCapacity = 235502.2 and spectralEfficiency = 0.011775. *)
Theorem C4_ofdm_scenario :
  (forall (N : Type) (A : Arith N) (M : MathLib N) (p : OFDMParams N),
      let r := calculateOFDM p in
      bitsPerResourceElement p = (log2 (modulationOrder p) * codingRate p)%js
      /\ resourceElementRate r
         = (bitsPerResourceElement p
            * (lit 1000 / (symbolDuration p * (lit 1 + cyclicPrefixRatio p))))%js
      /\ ofdmSymbolRate r = (resourceElementRate r * resourceElementsPerSymbol p)%js
      /\ resourceBlockRate r = (ofdmSymbolRate r * symbolsPerResourceBlock p)%js
      /\ maxTransmissionCapacity r
         = (resourceBlockRate r * resourceBlocksParallel p)%js
      /\ spectralEfficiency r = (maxTransmissionCapacity r / bandwidth p)%js)
  /\ (forall sc : num,
        bitsPerResourceElement (ofdm_scenario sc) = Fin 1
        /\ exists re sy rb cap se : R,
            calculateOFDM (ofdm_scenario sc)
            = {| resourceElementRate := Fin re;
                 ofdmSymbolRate := Fin sy;
                 resourceBlockRate := Fin rb;
                 maxTransmissionCapacity := Fin cap;
                 spectralEfficiency := Fin se |}
            /\ re * (66.67 * 1.07) = 1000
            /\ Rabs (re - 14.018) < 0.0005
            /\ Rabs (sy - 168.22) < 0.005
            /\ Rabs (rb - 2355.02) < 0.005
            /\ Rabs (cap - 235502.2) < 0.05
            /\ Rabs (se - 0.011775) < 0.0000005).
Proof.
  split.
  - intros N A M p. cbv zeta. repeat split.
  - intros sc. destruct (calculateOFDM_scenario sc) as [Hbits ->].
    split; [exact Hbits |].
    do 5 eexists. split; [reflexivity |].
    unfold scenario_element_rate.
    repeat split; try (apply Rabs_def1; lra). lra.
Qed.

End OFDMFacts.

(** ** Link budget: the formulas, the scenario and viability *)

Section LinkBudgetClaims.
Local Open Scope R_scope.

Lemma log10_2400_upper : ln 2400 / ln 10 < 3.38022.
Proof.
  apply Rlt_trans with (INR 1538 / INR 455).
  - apply log_ratio_upper; [lra | lra | lia |].
    apply pow_lt_of_Z. vm_compute. reflexivity.
  - rewrite !INR_IZR_INZ. change (Z.of_nat 1538) with 1538%Z.
    change (Z.of_nat 455) with 455%Z. lra.
Qed.

(** The literal scenario over exact reals: the loss is 52.44 +
    20*log10(2400), between 120.0441 and 120.0444. *)
Lemma calculateLinkBudget_scenario :
  exists fsl : R,
    120.0441 < fsl < 120.0444
    /\ calculateLinkBudget link_budget_scenario
       = {| eirp := Fin 45;
            freeSpaceLoss := Fin fsl;
            receivedPower := Fin (54 - fsl);
            linkMargin := Fin (139 - fsl);
            isLinkViable := true |}.
Proof.
  exists (20 * (ln 10 / ln 10) + 20 * (ln 2400 / ln 10) + 32.44).
  pose proof log10_2400_bounds as Hlog.
  pose proof log10_2400_upper as Hup.
  assert (H10 : ln 10 / ln 10 = 1) by (apply log_base_self; lra).
  split; [rewrite H10; lra |].
  unfold link_budget_scenario.
  rewrite calculateLinkBudget_fin by lra. cbv zeta.
  rewrite H10 in *.
  destruct (Rlt_dec 0 _) as [_ | Hn]; [| exfalso; apply Hn; lra].
  f_equal; f_equal; lra.
Qed.

(** The double [log10_2400] is 7611559044302975 / 2^51, which lies within
    the bounds proved of the real logarithm. *)
Lemma log10_2400_is_near :
  Prim2SF log10_2400 = S754_finite false 7611559044302975 (-51)
  /\ 3.380208 < 7611559044302975 / 2251799813685248 < 3.38022
  /\ 3.380208 < ln 2400 / ln 10 < 3.38022.
Proof.
  split; [vm_compute; reflexivity |].
  pose proof log10_2400_bounds. pose proof log10_2400_upper. lra.
Qed.

(** The literal scenario on doubles, for a library whose [Math.log10] is
    accurate to one unit in the last place at 10 and at 2400. *)
Lemma calculateLinkBudget_scenario_f64 (engine : Libm) :
  within_an_ulp 1 (libm_log10 engine 10) ->
  within_an_ulp log10_2400 (libm_log10 engine 2400) ->
  let r := calculateLinkBudget (M := float_MathLib engine)
             (link_budget_at (F64.lit 10)) in
  eirp r = 45%float
  /\ (120.0442 <? freeSpaceLoss r)%float = true
  /\ (freeSpaceLoss r <? 120.0443)%float = true
  /\ (-66.0443 <? receivedPower r)%float = true
  /\ (receivedPower r <? -66.0442)%float = true
  /\ (18.9557 <? linkMargin r)%float = true
  /\ (linkMargin r <? 18.9558)%float = true
  /\ isLinkViable r = true.
Proof.
  intros H10 H2400. cbv zeta. unfold calculateLinkBudget, link_budget_at.
  cbn [eirp freeSpaceLoss receivedPower linkMargin isLinkViable
       transmitterPower transmitterGain lb_frequency distance receiverGain
       systemLoss fadeMargin receiverSensitivity].
  cbn [add sub mul div gtb lit log10 float_Arith float_MathLib].
  replace (F64.lit 10) with 10%float by reflexivity.
  replace (F64.lit 2400) with 2400%float by reflexivity.
  destruct H10 as [-> | [-> | ->]], H2400 as [-> | [-> | ->]];
    repeat split; vm_compute; reflexivity.
Qed.

(** C1, as the specification states it, fails on the code in the third
    decimal: on the literal scenario the free-space loss is 120.0442...,
    more than 0.001 above the stated 120.043, and received power and margin
    are as much below the stated -66.043 and 18.957; so it is over exact
    reals and in the doubles of the reference library. *)
Lemma C1_loss_is_not_120_043 :
  (exists fsl rp lm : R,
      freeSpaceLoss (calculateLinkBudget link_budget_scenario) = Fin fsl
      /\ receivedPower (calculateLinkBudget link_budget_scenario) = Fin rp
      /\ linkMargin (calculateLinkBudget link_budget_scenario) = Fin lm
      /\ 0.001 < fsl - 120.043
      /\ 0.001 < -66.043 - rp
      /\ 0.001 < 18.957 - lm)
  /\ (120.044 <? freeSpaceLoss
                   (calculateLinkBudget (M := float_MathLib reference_library)
                      (link_budget_at (F64.lit 10))))%float = true
  /\ (receivedPower
        (calculateLinkBudget (M := float_MathLib reference_library)
           (link_budget_at (F64.lit 10))) <? -66.044)%float = true
  /\ (linkMargin
        (calculateLinkBudget (M := float_MathLib reference_library)
           (link_budget_at (F64.lit 10))) <? 18.956)%float = true.
Proof.
  split.
  - destruct calculateLinkBudget_scenario as (fsl & Hfsl & ->). cbn.
    exists fsl, (54 - fsl), (139 - fsl). repeat split; lra.
  - repeat split; vm_compute; reflexivity.
Qed.

(** C1, amended: the calculator returns eirp = transmitterPower +
    transmitterGain, freeSpaceLoss = 20*log10(distance) +
    20*log10(frequency) + 32.44, receivedPower = eirp - freeSpaceLoss +
    receiverGain - systemLoss and linkMargin = receivedPower -
    receiverSensitivity - fadeMargin, over any arithmetic; on the literal
    scenario eirp = 45, the link is viable, and freeSpaceLoss, receivedPower
    and linkMargin are 120.044, -66.044 and 18.956 to three decimals; the
    doubles the code computes there, on any library whose Math.log10 is
    accurate to one unit in the last place at 10 and at 2400, are 45 and
    numbers between 120.0442 and 120.0443, -66.0443 and -66.0442, 18.9557
    and 18.9558, and the link is reported viable. *)
Theorem C1_link_budget_formulas :
  (forall (N : Type) (A : Arith N) (M : MathLib N) (p : LinkBudgetParams N),
      let r := calculateLinkBudget p in
      eirp r = (transmitterPower p + transmitterGain p)%js
      /\ freeSpaceLoss r
         = (lit 20 * log10 (distance p) + lit 20 * log10 (lb_frequency p)
            + lit 32.44)%js
      /\ receivedPower r
         = (eirp r - freeSpaceLoss r + receiverGain p - systemLoss p)%js
      /\ linkMargin r
         = (receivedPower r - receiverSensitivity p - fadeMargin p)%js)
  /\ (let r := calculateLinkBudget link_budget_scenario in
      eirp r = Fin 45
      /\ isLinkViable r = true
      /\ exists fsl rp lm : R,
          freeSpaceLoss r = Fin fsl
          /\ receivedPower r = Fin rp
          /\ linkMargin r = Fin lm
          /\ Rabs (fsl - 120.044) < 0.0005
          /\ Rabs (rp - -66.044) < 0.0005
          /\ Rabs (lm - 18.956) < 0.0005)
  /\ (forall engine : Libm,
        within_an_ulp 1 (libm_log10 engine 10) ->
        within_an_ulp log10_2400 (libm_log10 engine 2400) ->
        let r := calculateLinkBudget (M := float_MathLib engine)
                   (link_budget_at (F64.lit 10)) in
        eirp r = 45%float
        /\ (120.0442 <? freeSpaceLoss r)%float = true
        /\ (freeSpaceLoss r <? 120.0443)%float = true
        /\ (-66.0443 <? receivedPower r)%float = true
        /\ (receivedPower r <? -66.0442)%float = true
        /\ (18.9557 <? linkMargin r)%float = true
        /\ (linkMargin r <? 18.9558)%float = true
        /\ isLinkViable r = true).
Proof.
  split; [| split].
  - intros N A M p. cbv zeta. repeat split.
  - destruct calculateLinkBudget_scenario as (fsl & Hfsl & ->). cbn.
    split; [reflexivity | split; [reflexivity |]].
    exists fsl, (54 - fsl), (139 - fsl).
    repeat split; try reflexivity; apply Rabs_def1; lra.
  - exact calculateLinkBudget_scenario_f64.
Qed.

(** The theorem at the reference library, whose logarithms of 10 and 2400
    are the nearest doubles. *)
Lemma C1_scenario_on_reference_library :
  eirp (calculateLinkBudget (M := float_MathLib reference_library)
          (link_budget_at (F64.lit 10))) = 45%float
  /\ isLinkViable (calculateLinkBudget (M := float_MathLib reference_library)
                     (link_budget_at (F64.lit 10))) = true.
Proof.
  assert (H10 : within_an_ulp 1 (libm_log10 reference_library 10))
    by (right; left; reflexivity).
  assert (H2400 : within_an_ulp log10_2400 (libm_log10 reference_library 2400))
    by (right; left; reflexivity).
  pose proof (proj2 (proj2 C1_link_budget_formulas) reference_library H10 H2400)
    as H.
  cbv zeta in H. split; [apply H | apply H].
Defined.

Lemma gtb_zero_strictly_positive (a : num) :
  Ideal.gtb a (Fin 0) = true <-> strictly_positive a.
Proof.
  destruct a as [| | | x]; unfold Ideal.gtb; cbn.
  - split; [discriminate | contradiction].
  - tauto.
  - split; [discriminate | contradiction].
  - destruct (Rlt_dec 0 x); split; intros; auto; discriminate.
Qed.

Lemma lit_zero : Ideal.lit 0 = Fin 0.
Proof. rewrite lit_fin. f_equal. lra. Qed.

Lemma calculateLinkBudget_boundary :
  calculateLinkBudget link_budget_boundary
  = {| eirp := Fin 32.44; freeSpaceLoss := Fin 32.44; receivedPower := Fin 0;
       linkMargin := Fin 0; isLinkViable := false |}.
Proof.
  unfold link_budget_boundary.
  rewrite calculateLinkBudget_fin by lra. cbv zeta.
  rewrite ln_1.
  destruct (Rlt_dec 0 _) as [Hp | _]; [exfalso; lra |].
  f_equal; f_equal; lra.
Qed.

(** C5: isLinkViable is true exactly when linkMargin is strictly greater than
    0 (which a NaN margin is not); a margin of 0 gives false, and the
    boundary is reached (by [link_budget_boundary]). *)
Theorem C5_viable_iff_margin_positive :
  (forall (N : Type) (A : Arith N) (M : MathLib N) (p : LinkBudgetParams N),
      isLinkViable (calculateLinkBudget p)
      = (linkMargin (calculateLinkBudget p) >? lit 0)%js)
  /\ (forall p : LinkBudgetParams num,
        (isLinkViable (calculateLinkBudget p) = true
         <-> strictly_positive (linkMargin (calculateLinkBudget p)))
        /\ (linkMargin (calculateLinkBudget p) = Fin 0
            -> isLinkViable (calculateLinkBudget p) = false))
  /\ linkMargin (calculateLinkBudget link_budget_boundary) = Fin 0
  /\ isLinkViable (calculateLinkBudget link_budget_boundary) = false.
Proof.
  assert (Hiff : forall p : LinkBudgetParams num,
             isLinkViable (calculateLinkBudget p) = true
             <-> strictly_positive (linkMargin (calculateLinkBudget p))).
  { intros p. unfold calculateLinkBudget. cbn [isLinkViable linkMargin].
    cbn [gtb lit num_Arith]. rewrite lit_zero.
    apply gtb_zero_strictly_positive. }
  split; [| split; [| split]].
  - intros N A M p. reflexivity.
  - intros p. split; [apply Hiff |].
    intros H0. destruct (isLinkViable (calculateLinkBudget p)) eqn:E; [| reflexivity].
    apply Hiff in E. rewrite H0 in E. cbn in E. lra.
  - now rewrite calculateLinkBudget_boundary.
  - now rewrite calculateLinkBudget_boundary.
Qed.

(** The theorem at the boundary record: a margin of exactly zero is not
    viable. *)
Lemma C5_boundary_not_viable :
  linkMargin (calculateLinkBudget link_budget_boundary) = Fin 0
  /\ isLinkViable (calculateLinkBudget link_budget_boundary) = false.
Proof.
  destruct C5_viable_iff_margin_positive as (_ & Hnum & Hmargin & _).
  split; [exact Hmargin |].
  apply (proj2 (Hnum link_budget_boundary)). exact Hmargin.
Defined.

End LinkBudgetClaims.

(** ** Cellular design *)

Section CellularClaims.
Local Open Scope R_scope.

Lemma pow_pos_base (x y : R) :
  0 < x -> Ideal.pow (Fin x) (Fin y) = Fin (Rpower x y).
Proof.
  intros Hx. unfold Ideal.pow.
  destruct (sgn_cases y) as [[_ ->] | [[-> ->] | [_ ->]]].
  - now rewrite sgn_pos.
  - now rewrite Rpower_O.
  - now rewrite sgn_pos.
Qed.

Lemma sqrt_fin_nonneg (x : R) :
  0 <= x -> Ideal.sqrt (Fin x) = Fin (R_sqrt.sqrt x).
Proof.
  intros Hx. unfold Ideal.sqrt.
  destruct (sgn_cases x) as [[Hn _] | [[_ ->] | [_ ->]]]; try reflexivity; lra.
Qed.

Lemma Rpower_square (x : R) : 0 < x -> Rpower x (2 / 1) = x ^ 2.
Proof.
  intros Hx. replace (2 / 1) with (INR 2) by (simpl; lra).
  now apply Rpower_pow.
Qed.

Lemma Zceil_pos (x : R) : 0 < x -> 1 <= IZR (Zceil x).
Proof.
  intros Hx. apply IZR_le.
  assert (H : (0 < Zceil x)%Z); [| lia].
  apply lt_IZR. pose proof (Zceil_bound x). lra.
Qed.

(** The ideal instance on finite parameters with a positive frequency and
    coverage area, a nonzero path-loss exponent and a traffic that is not
    negative: over exact reals every field is the real number its formula
    denotes (the doubles of the code are roundings of these, and a ceiling
    can differ by one where the quotient is within rounding of an
    integer). *)
Lemma calculateCellular_regular (ca td cd bp f bsp mp ple sm im : R) :
  0 < f -> ple <> 0 -> 0 < ca -> 0 <= td * cd ->
  let radius :=
    Rpower 10 ((bsp + mp - sm - im - 32.44 - 20 * (ln f / ln 10)) / (10 * ple)) in
  let cells := IZR (Zceil (ca / (2.598 * radius ^ 2))) in
  let traffic := td * cd / 3600 / cells in
  let channels := IZR (Zceil (traffic + 3 * R_sqrt.sqrt traffic + 2)) in
  calculateCellular
    {| coverageArea := Fin ca; trafficDensity := Fin td; callDuration := Fin cd;
       blockingProbability := Fin bp; frequency := Fin f;
       baseSationPower := Fin bsp; mobilePower := Fin mp;
       pathLossExponent := Fin ple; shadowingMargin := Fin sm;
       interferenceMargin := Fin im |}
  = {| cellRadius := Fin radius;
       numberOfCells := Fin cells;
       trafficePerCell := Fin traffic;
       channelsPerCell := Fin channels;
       cellCapacity := Fin (channels * (1 - bp));
       frequencyReuseFactor := Fin (IZR (Zceil (Rpower (3 * channels / 30) (2 / 3))));
       spectrumEfficiency := Fin (channels * (1 - bp) / (channels * 0.2)) |}.
Proof.
  intros Hf Hple Hca Htd radius cells traffic channels.
  assert (Hradius : 0 < radius) by apply exp_pos.
  assert (Harea : 0 < 2.598 * radius ^ 2) by (apply Rmult_lt_0_compat; [lra | now apply pow_lt]).
  assert (Hcells : 1 <= cells).
  { apply Zceil_pos. now apply Rdiv_lt_0_compat. }
  assert (Htraffic : 0 <= traffic).
  { unfold traffic. apply Rmult_le_pos; [lra |].
    left. apply Rinv_0_lt_compat. lra. }
  assert (Hchannels : 1 <= channels).
  { apply Zceil_pos. pose proof (sqrt_pos traffic). lra. }
  unfold calculateCellular.
  cbn [coverageArea trafficDensity callDuration blockingProbability frequency
       baseSationPower mobilePower pathLossExponent shadowingMargin
       interferenceMargin].
  cbn [add sub mul div lit pow log10 sqrt ceil num_Arith num_MathLib].
  rewrite !lit_fin. unfold Ideal.log10. rewrite log_base_fin_pos by assumption.
  cbn [Ideal.add Ideal.sub Ideal.opp Ideal.mul].
  rewrite (div_fin _ (y := 10 / 1 * ple)) by (intros H0; apply Hple; lra).
  rewrite (pow_pos_base (x := 10 / 1)) by lra.
  replace (Rpower (10 / 1) _) with radius
    by (unfold radius; f_equal; [lra | f_equal; lra]).
  rewrite (pow_pos_base (x := radius)) by assumption.
  rewrite Rpower_square by assumption.
  cbn [Ideal.mul].
  replace (2598 / 1000 * radius ^ 2) with (2.598 * radius ^ 2) by lra.
  rewrite (div_fin _ (y := 2.598 * radius ^ 2)) by lra.
  cbn [Ideal.ceil]. fold cells.
  rewrite (div_fin _ (y := 3600 / 1)) by lra.
  rewrite (div_fin _ (y := cells)) by lra.
  replace (td * cd / (3600 / 1) / cells) with traffic by (unfold traffic; field; lra).
  rewrite sqrt_fin_nonneg by assumption.
  cbn [Ideal.mul Ideal.add Ideal.ceil].
  replace (traffic + 3 / 1 * R_sqrt.sqrt traffic + 2 / 1)
    with (traffic + 3 * R_sqrt.sqrt traffic + 2) by lra.
  fold channels.
  rewrite (div_fin _ (y := 30 / 1)) by lra.
  rewrite (div_fin _ (y := 3 / 1)) by lra.
  rewrite pow_pos_base by lra.
  rewrite (div_fin _ (y := channels * (2 / 10))) by nra.
  cbn [Ideal.ceil].
  f_equal; f_equal; try lra.
  - do 2 f_equal. f_equal; lra.
  - unfold Rdiv. f_equal; try f_equal; lra.
Qed.

Lemma log10_900_bounds :
  INR 3099 / INR 1049 < ln 900 / ln 10 < INR 452 / INR 153.
Proof.
  split.
  - apply log_ratio_lower; [lra | lra | lia |].
    apply pow_lt_of_Z. vm_compute. reflexivity.
  - apply log_ratio_upper; [lra | lra | lia |].
    apply pow_lt_of_Z. vm_compute. reflexivity.
Qed.

Lemma log10_cell_area_bounds :
  ln 3278676 / ln 10 < INR 3942 / INR 605
  /\ INR 1225 / INR 188 < ln 3281274 / ln 10.
Proof.
  split.
  - apply log_ratio_upper; [lra | lra | lia |].
    apply pow_lt_of_Z. vm_compute. reflexivity.
  - apply log_ratio_lower; [lra | lra | lia |].
    apply pow_lt_of_Z. vm_compute. reflexivity.
Qed.

(** A power of 10 against a quotient 100000 / n, through logarithms. *)
Lemma Rpower_10_against (X n : R) :
  0 < n ->
  (ln n / ln 10 < 5 - X -> Rpower 10 X < 100000 / n)
  /\ (5 - X < ln n / ln 10 -> 100000 / n < Rpower 10 X).
Proof.
  intros Hn.
  assert (H10 : 0 < ln 10) by (apply ln_gt_1; lra).
  assert (Hq : 0 < 100000 / n) by (apply Rdiv_lt_0_compat; lra).
  assert (Hln : ln (100000 / n) = 5 * ln 10 - ln n).
  { unfold Rdiv. rewrite ln_mult, ln_Rinv by (try apply Rinv_0_lt_compat; lra).
    replace 100000 with (10 ^ 5) by lra. rewrite ln_pow by lra. simpl INR. lra. }
  assert (Hn' : ln n = ln n / ln 10 * ln 10) by (field; lra).
  unfold Rpower. split; intros H.
  - rewrite <- (exp_ln (100000 / n)) by assumption.
    apply exp_increasing. rewrite Hln, Hn'. nra.
  - rewrite <- (exp_ln (100000 / n)) at 1 by assumption.
    apply exp_increasing. rewrite Hln, Hn'. nra.
Qed.

Lemma Rpower_below_one (x y : R) : 0 < x < 1 -> 0 < y -> 0 < Rpower x y < 1.
Proof.
  intros [Hx0 Hx1] Hy. unfold Rpower. split; [apply exp_pos |].
  rewrite <- exp_0. apply exp_increasing.
  assert (Hln : ln x < 0) by (rewrite <- ln_1; now apply ln_increasing).
  nra.
Qed.

(** The defaults of the component over exact reals: 1263 cells of a radius
    between 0.1745 and 0.1747, 3 channels in each, reuse factor 1. *)
Lemma calculateCellular_defaults :
  exists radius traffic capacity efficiency : R,
    calculateCellular (cellular_defaults (Fin 900) (Fin 3.5))
    = {| cellRadius := Fin radius;
         numberOfCells := Fin 1263;
         trafficePerCell := Fin traffic;
         channelsPerCell := Fin 3;
         cellCapacity := Fin capacity;
         frequencyReuseFactor := Fin 1;
         spectrumEfficiency := Fin efficiency |}
    /\ 0.1745 < radius < 0.1747
    /\ 0.001319 < traffic < 0.00132
    /\ Rabs (capacity - 2.94) < 0.005
    /\ Rabs (efficiency - 4.9) < 0.005.
Proof.
  set (E := (43 + 33 - 8 - 3 - 32.44 - 20 * (ln 900 / ln 10)) / (10 * 3.5)).
  set (radius := Rpower 10 E).
  assert (Hradius : 0 < radius) by apply exp_pos.
  assert (Hsquare : 100000 / 3281274 < radius ^ 2 < 100000 / 3278676).
  { assert (Hpow : radius ^ 2 = Rpower 10 (E * 2)).
    { unfold radius. rewrite <- (Rpower_pow 2 (Rpower 10 E)) by apply exp_pos.
      rewrite Rpower_mult. f_equal; try (simpl; lra). }
    rewrite Hpow.
    destruct log10_900_bounds as [Hl Hu].
    destruct log10_cell_area_bounds as [HB HA].
    rewrite !INR_IZR_INZ in Hl, Hu, HB, HA. cbn [Z.of_nat Pos.of_succ_nat Pos.succ] in *.
    split.
    - apply (proj2 (Rpower_10_against (E * 2) (n := 3281274) ltac:(lra))).
      unfold E. lra.
    - apply (proj1 (Rpower_10_against (E * 2) (n := 3278676) ltac:(lra))).
      unfold E. lra. }
  assert (Hcells : IZR (Zceil (100 / (2.598 * radius ^ 2))) = 1263).
  { f_equal. apply Zceil_eq.
    assert (Hr2 : 0 < radius ^ 2) by (apply pow_lt; assumption).
    destruct Hsquare as [Hlo Hhi].
    split.
    - apply (Rmult_lt_reg_r (2.598 * radius ^ 2)); [nra |].
      replace (100 / (2.598 * radius ^ 2) * (2.598 * radius ^ 2)) with 100
        by (field; lra).
      lra.
    - left. apply (Rmult_lt_reg_r (2.598 * radius ^ 2)); [nra |].
      replace (100 / (2.598 * radius ^ 2) * (2.598 * radius ^ 2)) with 100
        by (field; lra).
      lra. }
  set (traffic := 50 * 120 / 3600 / 1263).
  assert (Hsqrt : 0 <= R_sqrt.sqrt traffic < 0.1).
  { split; [apply sqrt_pos |].
    rewrite <- (sqrt_square 0.1) by lra. apply sqrt_lt_1; unfold traffic; lra. }
  assert (Hchannels : IZR (Zceil (traffic + 3 * R_sqrt.sqrt traffic + 2)) = 3).
  { f_equal. apply Zceil_eq. unfold traffic in *. lra. }
  assert (Hreuse : IZR (Zceil (Rpower (3 * 3 / 30) (2 / 3))) = 1).
  { f_equal. apply Zceil_eq.
    destruct (Rpower_below_one (x := 3 * 3 / 30) (y := 2 / 3)); lra. }
  exists radius, traffic, (3 * (1 - 0.02)), (3 * (1 - 0.02) / (3 * 0.2)).
  split.
  - unfold cellular_defaults.
    rewrite calculateCellular_regular by lra. cbv zeta.
    fold E. fold radius. rewrite Hcells. fold traffic. rewrite Hchannels, Hreuse.
    reflexivity.
  - assert (Hr : 0.1745 < radius < 0.1747).
    { destruct Hsquare as [Hlo Hhi]. split.
      - destruct (Rlt_le_dec 0.1745 radius) as [H | H]; [exact H |].
        exfalso. assert (radius ^ 2 <= 0.1745 ^ 2) by (apply pow_incr; lra). lra.
      - destruct (Rlt_le_dec radius 0.1747) as [H | H]; [exact H |].
        exfalso. assert (0.1747 ^ 2 <= radius ^ 2) by (apply pow_incr; lra). lra. }
    repeat split; try apply Hr; try (unfold traffic; lra);
      apply Rabs_def1; lra.
Qed.

(** Designs of unit radius on doubles: on every library with the exact
    cases the radius is 1 and the area of a cell is the literal 2.598; the
    other fields are the IEEE operations of the formulas. *)
Lemma unit_radius_design_f64 (engine : Libm) (area density : float) :
  exact_cases engine ->
  let r := calculateCellular (M := float_MathLib engine)
             (unit_radius_design area density) in
  let cells := F64.ceil (area / F64.lit 2.598)%float in
  let traffic := (density * F64.lit 120 / F64.lit 3600 / cells)%float in
  let channels :=
    F64.ceil (traffic + F64.lit 3 * PrimFloat.sqrt traffic + F64.lit 2)%float in
  cellRadius r = 1%float
  /\ numberOfCells r = cells
  /\ trafficePerCell r = traffic
  /\ channelsPerCell r = channels
  /\ cellCapacity r = (channels * (F64.lit 1 - F64.lit 0.02))%float
  /\ frequencyReuseFactor r
     = F64.ceil (libm_pow engine (F64.lit 3 * channels / F64.lit 30)
                   (F64.lit 2 / F64.lit 3))%float
  /\ spectrumEfficiency r
     = (channels * (F64.lit 1 - F64.lit 0.02) / (channels * F64.lit 0.2))%float.
Proof.
  intros (Hlog & Hpow0 & Hsquare). cbv zeta.
  assert (Hlog' : libm_log10 engine (F64.lit 1) = 0%float) by exact Hlog.
  assert (Hsquare' : libm_pow engine 1 (F64.lit 2) = 1%float) by exact Hsquare.
  unfold calculateCellular, unit_radius_design.
  cbn [cellRadius numberOfCells trafficePerCell channelsPerCell cellCapacity
       frequencyReuseFactor spectrumEfficiency
       coverageArea trafficDensity callDuration blockingProbability frequency
       baseSationPower mobilePower pathLossExponent shadowingMargin
       interferenceMargin].
  cbn [add sub mul div lit pow log10 sqrt ceil float_Arith float_MathLib].
  rewrite Hlog'.
  match goal with
  | |- context [libm_pow engine (F64.lit 10) ?e] =>
      replace e with 0%float by (vm_compute; reflexivity)
  end.
  rewrite Hpow0, Hsquare'.
  replace (F64.lit 2.598 * 1)%float with (F64.lit 2.598)
    by (vm_compute; reflexivity).
  repeat split.
Qed.

(** C2: the calculator computes maxPathLoss = baseStationPower + mobilePower
    - shadowingMargin - interferenceMargin, cellRadius = 10^((maxPathLoss -
    32.44 - 20*log10(frequency)) / (10*pathLossExponent)), numberOfCells =
    ceil(coverageArea / (2.598*cellRadius^2)), trafficPerCell =
    (trafficDensity*callDuration/3600) / numberOfCells, channelsPerCell =
    ceil(trafficPerCell + 3*sqrt(trafficPerCell) + 2), cellCapacity =
    channelsPerCell*(1 - blockingProbability), frequencyReuseFactor =
    ceil((3*channelsPerCell/30)^(2/3)) and spectrumEfficiency = cellCapacity /
    (channelsPerCell*0.2), over any arithmetic, and returns them as the
    result record.  In the doubles of the code, on every library with the
    exact cases: the design [five_channel_design] has radius 1, one cell, 0.5
    Erlang per cell, 5 channels, capacity 4.9, the ceiling of the library's
    0.5^(2/3) as reuse factor and spectrum efficiency 4.9; and a coverage
    area of 23.382 at unit radius gives 10 cells, the quotient 23.382 / 2.598
    being rounded to a double above 9.  At the defaults of the component,
    over exact reals and with margins far above rounding: 1263 cells of a
    radius between 0.1745 and 0.1747, between 0.001319 and 0.00132 Erlang in
    each, 3 channels, a capacity of 2.94, reuse factor 1 and a spectrum
    efficiency of 4.9 (the last two within 0.005). *)
Theorem C2_cellular_formulas :
  (forall (N : Type) (A : Arith N) (M : MathLib N) (p : CellularParams N),
      let r := calculateCellular p in
      let maxPathLoss :=
        (baseSationPower p + mobilePower p - shadowingMargin p
         - interferenceMargin p)%js in
      cellRadius r
      = pow (lit 10)
            ((maxPathLoss - lit 32.44 - lit 20 * log10 (frequency p))
             / (lit 10 * pathLossExponent p))%js
      /\ numberOfCells r
         = ceil (coverageArea p / (lit 2.598 * pow (cellRadius r) (lit 2)))%js
      /\ trafficePerCell r
         = (trafficDensity p * callDuration p / lit 3600 / numberOfCells r)%js
      /\ channelsPerCell r
         = ceil (trafficePerCell r + lit 3 * sqrt (trafficePerCell r) + lit 2)%js
      /\ cellCapacity r = (channelsPerCell r * (lit 1 - blockingProbability p))%js
      /\ frequencyReuseFactor r
         = ceil (pow (lit 3 * channelsPerCell r / lit 30) (lit 2 / lit 3))%js
      /\ spectrumEfficiency r = (cellCapacity r / (channelsPerCell r * lit 0.2))%js
      /\ r = {| cellRadius := cellRadius r;
                numberOfCells := numberOfCells r;
                trafficePerCell := trafficePerCell r;
                channelsPerCell := channelsPerCell r;
                cellCapacity := cellCapacity r;
                frequencyReuseFactor := frequencyReuseFactor r;
                spectrumEfficiency := spectrumEfficiency r |})
  /\ (forall engine : Libm,
        exact_cases engine ->
        let r := calculateCellular (M := float_MathLib engine) five_channel_design in
        cellRadius r = 1%float
        /\ numberOfCells r = 1%float
        /\ trafficePerCell r = 0.5%float
        /\ channelsPerCell r = 5%float
        /\ cellCapacity r = F64.lit 4.9
        /\ frequencyReuseFactor r
           = F64.ceil (libm_pow engine 0.5%float (2 / 3)%float)
        /\ spectrumEfficiency r = F64.lit 4.9)
  /\ (forall engine : Libm,
        exact_cases engine ->
        let r := calculateCellular (M := float_MathLib engine)
                   (unit_radius_design (F64.lit 23.382) (F64.lit 15)) in
        (9 <? F64.lit 23.382 / F64.lit 2.598)%float = true
        /\ numberOfCells r = 10%float
        /\ trafficePerCell r = 0.05%float
        /\ channelsPerCell r = 3%float
        /\ cellCapacity r = F64.lit 2.94)
  /\ (exists radius traffic capacity efficiency : R,
        calculateCellular (cellular_defaults (Fin 900) (Fin 3.5))
        = {| cellRadius := Fin radius;
             numberOfCells := Fin 1263;
             trafficePerCell := Fin traffic;
             channelsPerCell := Fin 3;
             cellCapacity := Fin capacity;
             frequencyReuseFactor := Fin 1;
             spectrumEfficiency := Fin efficiency |}
        /\ 0.1745 < radius < 0.1747
        /\ 0.001319 < traffic < 0.00132
        /\ Rabs (capacity - 2.94) < 0.005
        /\ Rabs (efficiency - 4.9) < 0.005).
Proof.
  split; [| split; [| split]]; [| | | exact calculateCellular_defaults].
  - intros N A M p. cbv zeta. repeat split.
  - intros engine Hexact. cbv zeta.
    pose proof (unit_radius_design_f64 (F64.lit 2.598) (F64.lit 15) Hexact) as H.
    cbv zeta in H.
    change (unit_radius_design (F64.lit 2.598) (F64.lit 15))
      with (five_channel_design (N := float)) in H.
    destruct H as (-> & -> & -> & -> & -> & -> & ->).
    repeat split; vm_compute; reflexivity.
  - intros engine Hexact. cbv zeta.
    pose proof (unit_radius_design_f64 (F64.lit 23.382) (F64.lit 15) Hexact) as H.
    cbv zeta in H.
    destruct H as (_ & -> & -> & -> & -> & _).
    repeat split; vm_compute; reflexivity.
Qed.

(** The theorem at the reference library. *)
Lemma C2_five_channels_on_reference_library :
  channelsPerCell (calculateCellular (M := float_MathLib reference_library)
                     five_channel_design) = 5%float
  /\ numberOfCells (calculateCellular (M := float_MathLib reference_library)
                      (unit_radius_design (F64.lit 23.382) (F64.lit 15)))
     = 10%float.
Proof.
  assert (Hexact : exact_cases reference_library) by (repeat split).
  destruct C2_cellular_formulas as (_ & Hfive & Harea & _).
  pose proof (Hfive reference_library Hexact) as H5.
  pose proof (Harea reference_library Hexact) as H10.
  cbv zeta in H5, H10. split; [apply H5 | apply H10].
Defined.

End CellularClaims.

(** ** Degenerate inputs *)

Section NonFinite.
Local Open Scope R_scope.

Lemma opp_nonfinite (a : num) : nonfinite a -> nonfinite (Ideal.opp a).
Proof. unfold nonfinite. destruct a; cbn; congruence. Qed.

Lemma add_nonfinite_l (a b : num) : nonfinite a -> nonfinite (Ideal.add a b).
Proof. unfold nonfinite. destruct a, b; cbn; congruence. Qed.

Lemma add_nonfinite_r (a b : num) : nonfinite b -> nonfinite (Ideal.add a b).
Proof. unfold nonfinite. destruct a, b; cbn; congruence. Qed.

Lemma sub_nonfinite_l (a b : num) : nonfinite a -> nonfinite (Ideal.sub a b).
Proof. intros Ha. now apply add_nonfinite_l. Qed.

Lemma sub_nonfinite_r (a b : num) : nonfinite b -> nonfinite (Ideal.sub a b).
Proof. intros Hb. now apply add_nonfinite_r, opp_nonfinite. Qed.

Lemma scale_inf_nonfinite (i : num) (y : R) :
  nonfinite i -> nonfinite (Ideal.scale_inf i y).
Proof.
  unfold nonfinite. intros Hi. unfold Ideal.scale_inf.
  destruct (Ideal.sgn y); [now apply opp_nonfinite | reflexivity | assumption].
Qed.

Lemma mul_nonfinite_l (a b : num) : nonfinite a -> nonfinite (Ideal.mul a b).
Proof.
  pose proof scale_inf_nonfinite as Hs. unfold nonfinite in *.
  destruct a, b; cbn; try congruence; intros _; now apply Hs.
Qed.

Lemma mul_nonfinite_r (a b : num) : nonfinite b -> nonfinite (Ideal.mul a b).
Proof.
  pose proof scale_inf_nonfinite as Hs. unfold nonfinite in *.
  destruct a, b; cbn; try congruence; intros _; now apply Hs.
Qed.

Lemma div_nonfinite_l (a b : num) : nonfinite a -> nonfinite (Ideal.div a b).
Proof.
  unfold nonfinite, Ideal.div.
  destruct a, b; cbn; try congruence; intros _;
    destruct (Ideal.sgn x); reflexivity.
Qed.

Lemma div_by_zero_nonfinite (a : num) (y : R) :
  y = 0 -> nonfinite (Ideal.div a (Fin y)).
Proof.
  intros ->. unfold nonfinite, Ideal.div. rewrite sgn_zero.
  destruct a as [| | | x]; try reflexivity.
  destruct (Ideal.sgn x); reflexivity.
Qed.

Lemma ceil_nonfinite (a : num) : nonfinite a -> nonfinite (Ideal.ceil a).
Proof. unfold nonfinite. destruct a; cbn; congruence. Qed.

Lemma log_base_nonpositive (b x : R) : x <= 0 -> nonfinite (Ideal.log_base b (Fin x)).
Proof.
  intros Hx. unfold nonfinite, Ideal.log_base.
  destruct (sgn_cases x) as [[_ ->] | [[_ ->] | [Hp _]]]; try reflexivity; lra.
Qed.

(** Ten to a NaN or infinite power: NaN, plus infinity, or zero. *)
Lemma pow_ten_nonfinite (e : num) :
  nonfinite e ->
  Ideal.pow (Ideal.lit 10) e = NaN \/ Ideal.pow (Ideal.lit 10) e = PInf
  \/ Ideal.pow (Ideal.lit 10) e = Fin 0.
Proof.
  rewrite lit_fin. unfold nonfinite. intros He.
  assert (Hs : Ideal.sgn (10 / 1) = Pos) by (apply sgn_pos; lra).
  assert (Habs : 1 < Rabs (10 / 1)) by (rewrite Rabs_pos_eq; lra).
  destruct e as [| | | y]; try discriminate He; unfold Ideal.pow; rewrite ?Hs.
  - now left.
  - destruct (total_order_T (Rabs (10 / 1)) 1) as [[Hlt | Heq] | Hgt];
      [lra | lra | now right; left].
  - destruct (total_order_T (Rabs (10 / 1)) 1) as [[Hlt | Heq] | Hgt];
      [lra | lra | now right; right].
Qed.

Lemma pow_zero_square : Ideal.pow (Fin 0) (Ideal.lit 2) = Fin 0.
Proof.
  rewrite lit_fin. unfold Ideal.pow.
  rewrite (sgn_pos (x := 2 / 1)) by lra. now rewrite sgn_zero.
Qed.

End NonFinite.

Section DegenerateInputs.
Local Open Scope R_scope.

Lemma handlers_complete (N : Type) (A : Arith N) (M : MathLib N) :
  (forall st, completes (onCalculateLinkBudget (N := N)) st)
  /\ (forall st, completes (onCalculateCellular (N := N)) st)
  /\ (forall st, completes (onCalculateRates (N := N)) st)
  /\ (forall st, completes (onCalculateOFDM (N := N)) st).
Proof.
  repeat split; intros st; unfold completes; do 2 eexists; reflexivity.
Qed.

Lemma link_budget_degenerate (p : LinkBudgetParams num) :
  lb_frequency p = Fin 0 \/ distance p = Fin 0 ->
  let r := calculateLinkBudget p in
  nonfinite (freeSpaceLoss r) /\ nonfinite (receivedPower r)
  /\ nonfinite (linkMargin r).
Proof.
  intros Hdeg. cbv zeta.
  assert (Hfsl : nonfinite (freeSpaceLoss (calculateLinkBudget p))).
  { unfold calculateLinkBudget. cbn [freeSpaceLoss]. cbn.
    apply add_nonfinite_l.
    destruct Hdeg as [-> | ->].
    - apply add_nonfinite_r, mul_nonfinite_r. unfold Ideal.log10.
      apply log_base_nonpositive. lra.
    - apply add_nonfinite_l, mul_nonfinite_r. unfold Ideal.log10.
      apply log_base_nonpositive. lra. }
  assert (Hrp : nonfinite (receivedPower (calculateLinkBudget p))).
  { unfold calculateLinkBudget in *. cbn [freeSpaceLoss receivedPower] in *.
    cbn [add sub num_Arith] in *.
    now apply sub_nonfinite_l, add_nonfinite_l, sub_nonfinite_r. }
  repeat split; try assumption.
  unfold calculateLinkBudget in *. cbn [receivedPower linkMargin] in *.
  cbn [add sub num_Arith] in *.
  now apply sub_nonfinite_l, sub_nonfinite_l.
Qed.

Lemma cellular_degenerate (p : CellularParams num) :
  frequency p = Fin 0 \/ pathLossExponent p = Fin 0 ->
  let r := calculateCellular p in
  nonfinite (cellRadius r)
  \/ (cellRadius r = Fin 0 /\ nonfinite (numberOfCells r)).
Proof.
  intros Hdeg. cbv zeta.
  unfold calculateCellular. cbn [cellRadius numberOfCells].
  cbn [add sub mul div lit pow log10 ceil num_Arith num_MathLib].
  set (e := Ideal.div _ (Ideal.mul (Ideal.lit 10) (pathLossExponent p))).
  assert (He : nonfinite e).
  { subst e. destruct Hdeg as [-> | ->].
    - apply div_nonfinite_l, sub_nonfinite_r, mul_nonfinite_r.
      unfold Ideal.log10. apply log_base_nonpositive. lra.
    - rewrite lit_fin. cbn [Ideal.mul]. apply div_by_zero_nonfinite. lra. }
  destruct (pow_ten_nonfinite He) as [-> | [-> | ->]].
  - now left.
  - now left.
  - right. split; [reflexivity |].
    rewrite pow_zero_square, lit_fin. cbn [Ideal.mul].
    apply ceil_nonfinite, div_by_zero_nonfinite. lra.
Qed.

Lemma wireless_degenerate (p : WirelessParams num) :
  channelEncodingRatio p = Fin 0 ->
  let r := calculateRates p in
  nonfinite (channelEncoderRate r) /\ nonfinite (interleaverRate r)
  /\ nonfinite (burstFormatterRate r).
Proof.
  intros Hz. cbv zeta. unfold calculateRates.
  cbn [channelEncoderRate interleaverRate burstFormatterRate].
  cbn [add sub mul div lit num_Arith]. rewrite Hz.
  assert (Hc : forall a, nonfinite (Ideal.div a (Fin 0)))
    by (intros a; now apply div_by_zero_nonfinite).
  repeat split; try apply Hc. apply mul_nonfinite_l, Hc.
Qed.

Lemma ofdm_zero_bandwidth (p : OFDMParams num) :
  bandwidth p = Fin 0 -> nonfinite (spectralEfficiency (calculateOFDM p)).
Proof.
  intros Hz. unfold calculateOFDM. cbn [spectralEfficiency].
  cbn [div num_Arith]. rewrite Hz. now apply div_by_zero_nonfinite.
Qed.

Lemma ofdm_nonpositive_order (p : OFDMParams num) (m : R) :
  modulationOrder p = Fin m -> m <= 0 ->
  let r := calculateOFDM p in
  nonfinite (resourceElementRate r) /\ nonfinite (ofdmSymbolRate r)
  /\ nonfinite (resourceBlockRate r) /\ nonfinite (maxTransmissionCapacity r)
  /\ nonfinite (spectralEfficiency r).
Proof.
  intros Hm Hle. cbv zeta. unfold calculateOFDM, bitsPerResourceElement.
  cbn [resourceElementRate ofdmSymbolRate resourceBlockRate
       maxTransmissionCapacity spectralEfficiency].
  cbn [add sub mul div lit log2 num_Arith num_MathLib]. rewrite Hm.
  assert (Hre : nonfinite
            (Ideal.mul (Ideal.mul (Ideal.log2 (Fin m)) (codingRate p))
               (Ideal.div (Ideal.lit 1000)
                  (Ideal.mul (symbolDuration p)
                     (Ideal.add (Ideal.lit 1) (cyclicPrefixRatio p)))))).
  { apply mul_nonfinite_l, mul_nonfinite_l. unfold Ideal.log2.
    now apply log_base_nonpositive. }
  repeat split; try assumption;
    repeat first [ assumption | apply div_nonfinite_l | apply mul_nonfinite_l ].
Qed.

(** C6: each of the four handlers runs its [try] block to the end on every
    parameter record, storing a result record and raising the success toast
    (never the error toast of [catch]); and the degenerate inputs show in the
    record as fields that are infinite or NaN: a zero frequency or distance
    in the link budget, a zero frequency or path-loss exponent in the cellular
    design, a zero channel encoding ratio in the digital chain, a zero
    bandwidth or a modulation order at or below zero in OFDM. *)
Theorem C6_never_throws_degeneracies_propagate :
  (forall (N : Type) (A : Arith N) (M : MathLib N),
      (forall st, completes (onCalculateLinkBudget (N := N)) st)
      /\ (forall st, completes (onCalculateCellular (N := N)) st)
      /\ (forall st, completes (onCalculateRates (N := N)) st)
      /\ (forall st, completes (onCalculateOFDM (N := N)) st))
  /\ (forall p : LinkBudgetParams num,
        lb_frequency p = Fin 0 \/ distance p = Fin 0 ->
        let r := calculateLinkBudget p in
        nonfinite (freeSpaceLoss r) /\ nonfinite (receivedPower r)
        /\ nonfinite (linkMargin r))
  /\ (forall p : CellularParams num,
        frequency p = Fin 0 \/ pathLossExponent p = Fin 0 ->
        let r := calculateCellular p in
        nonfinite (cellRadius r)
        \/ (cellRadius r = Fin 0 /\ nonfinite (numberOfCells r)))
  /\ (forall p : WirelessParams num,
        channelEncodingRatio p = Fin 0 ->
        let r := calculateRates p in
        nonfinite (channelEncoderRate r) /\ nonfinite (interleaverRate r)
        /\ nonfinite (burstFormatterRate r))
  /\ (forall p : OFDMParams num,
        bandwidth p = Fin 0 -> nonfinite (spectralEfficiency (calculateOFDM p)))
  /\ (forall (p : OFDMParams num) (m : R),
        modulationOrder p = Fin m -> m <= 0 ->
        let r := calculateOFDM p in
        nonfinite (resourceElementRate r) /\ nonfinite (ofdmSymbolRate r)
        /\ nonfinite (resourceBlockRate r)
        /\ nonfinite (maxTransmissionCapacity r)
        /\ nonfinite (spectralEfficiency r)).
Proof.
  split; [exact handlers_complete |].
  split; [exact link_budget_degenerate |].
  split; [exact cellular_degenerate |].
  split; [exact wireless_degenerate |].
  split; [exact ofdm_zero_bandwidth | exact ofdm_nonpositive_order].
Qed.

(** The theorem at the defaults of each component with one field zeroed. *)
Lemma C6_degenerate_defaults :
  (let r := calculateLinkBudget link_budget_zero_frequency in
   nonfinite (freeSpaceLoss r) /\ nonfinite (receivedPower r)
   /\ nonfinite (linkMargin r))
  /\ (let r := calculateCellular (cellular_defaults (Fin 900) (Fin 0)) in
      nonfinite (cellRadius r)
      \/ (cellRadius r = Fin 0 /\ nonfinite (numberOfCells r)))
  /\ (let r := calculateRates wireless_zero_channel_ratio in
      nonfinite (channelEncoderRate r) /\ nonfinite (interleaverRate r)
      /\ nonfinite (burstFormatterRate r))
  /\ nonfinite (spectralEfficiency (calculateOFDM (ofdm_defaults (Fin 4) (Fin 0))))
  /\ (let r := calculateOFDM (ofdm_defaults (Fin 0) (Fin 20000000)) in
      nonfinite (resourceElementRate r) /\ nonfinite (ofdmSymbolRate r)
      /\ nonfinite (resourceBlockRate r)
      /\ nonfinite (maxTransmissionCapacity r)
      /\ nonfinite (spectralEfficiency r)).
Proof.
  destruct C6_never_throws_degeneracies_propagate
    as (_ & Hlb & Hcell & Hw & Hbw & Hmod).
  split; [| split; [| split; [| split]]].
  - apply (Hlb link_budget_zero_frequency). left. reflexivity.
  - apply (Hcell (cellular_defaults (Fin 900) (Fin 0))). right. reflexivity.
  - apply (Hw wireless_zero_channel_ratio). reflexivity.
  - apply (Hbw (ofdm_defaults (Fin 4) (Fin 0))). reflexivity.
  - apply (Hmod (ofdm_defaults (Fin 0) (Fin 20000000)) 0).
    + reflexivity.
    + apply Rle_refl.
Defined.

(** What the zero frequency does to the link budget, field by field: the
    loss is minus infinity, the received power and the margin plus infinity,
    and the link counts as viable. *)
Lemma link_budget_zero_frequency_fields :
  calculateLinkBudget link_budget_zero_frequency
  = {| eirp := Fin 45; freeSpaceLoss := NInf; receivedPower := PInf;
       linkMargin := PInf; isLinkViable := true |}.
Proof.
  unfold calculateLinkBudget, link_budget_zero_frequency. cbn.
  unfold Ideal.log10. rewrite log_base_zero, log_base_fin_pos by lra.
  rewrite !lit_fin. cbn. rewrite scale_inf_pos by lra. cbn.
  f_equal. f_equal. lra.
Qed.

End DegenerateInputs.

(** ** Unused parameters and determinism *)

Section Hyperproperties.

(** C7: two digital-chain records that differ only in sourceBitRate and
    interleaverDepth give the same result record, and two OFDM records that
    differ only in subcarrierSpacing give the same result record. *)
Theorem C7_unused_parameters (N : Type) (A : Arith N) (M : MathLib N) :
  (forall p q : WirelessParams N,
      differ_only_in_sourceBitRate_interleaverDepth p q ->
      calculateRates p = calculateRates q)
  /\ (forall p q : OFDMParams N,
        differ_only_in_subcarrierSpacing p q ->
        calculateOFDM p = calculateOFDM q).
Proof.
  split.
  - intros [s1 a1 b1 c1 d1 i1 e1] [s2 a2 b2 c2 d2 i2 e2].
    unfold differ_only_in_sourceBitRate_interleaverDepth. cbn.
    intros (-> & -> & -> & -> & ->). reflexivity.
  - intros [s1 a1 b1 c1 d1 e1 f1 g1 h1] [s2 a2 b2 c2 d2 e2 f2 g2 h2].
    unfold differ_only_in_subcarrierSpacing. cbn.
    intros (-> & -> & -> & -> & -> & -> & -> & ->). reflexivity.
Qed.

(** The theorem at the scenarios, with the unused fields changed. *)
Lemma C7_scenarios_ignore_unused :
  calculateRates (digital_chain_scenario (Fin 64000) (Fin 4))
  = calculateRates (digital_chain_scenario (Fin 9600) (Fin 8))
  /\ calculateOFDM (ofdm_scenario (Fin 15000))
     = calculateOFDM (ofdm_scenario (Fin 30000)).
Proof.
  destruct (C7_unused_parameters num_Arith num_MathLib) as [Hw Ho].
  split.
  - apply Hw. unfold differ_only_in_sourceBitRate_interleaverDepth. cbn.
    repeat split.
  - apply Ho. unfold differ_only_in_subcarrierSpacing. cbn.
    repeat split.
Defined.

End Hyperproperties.

(** ** What the calculators read *)

Section ReadingOnlyParams.
Context {N : Type} {A : Arith N} {M : MathLib N}.
Variables first second : World N.
Variable properties : list (string * N).

Lemma binds_declare (names : list string) (consts : list (string * Value N))
    (x : string) (v : Value N) :
  binds names consts -> binds (x :: names) ((x, v) :: consts).
Proof.
  intros Hb y Hy. cbn [lookup]. destruct (String.eqb x y) eqn:E; [discriminate |].
  apply Hb. unfold declared in Hy |- *. cbn [existsb] in Hy.
  rewrite String.eqb_sym, E in Hy. exact Hy.
Qed.

(** An expression that reads only [params] has the same value in any two
    worlds. *)
Lemma eval_reads_only_params (names : list string)
    (consts : list (string * Value N)) (e : Expression) :
  reads_only_params names e = true ->
  binds names consts ->
  eval first properties consts e = eval second properties consts e.
Proof.
  intros Hr Hb. induction e as [q | x | o f | op a IHa b IHb | o m | o m a IHa
                               | o m a IHa b IHb]; cbn [eval reads_only_params] in *.
  - reflexivity.
  - specialize (Hb x Hr). destruct (lookup x consts); [reflexivity | contradiction].
  - now rewrite Hr.
  - apply andb_true_iff in Hr as [Ha Hb']. now rewrite IHa, IHb.
  - discriminate.
  - apply andb_true_iff in Hr as [Hm Ha]. apply andb_true_iff in Hm as [Ho Hm].
    rewrite IHa by assumption.
    destruct (eval second properties consts a) as [x |]; [| reflexivity].
    assert (Hf : math1 o m <> None).
    { unfold math1. rewrite Ho. cbn [negb].
      destruct (String.eqb m "log10"); [discriminate |].
      destruct (String.eqb m "log2"); [discriminate |].
      destruct (String.eqb m "sqrt"); [discriminate |].
      destruct (String.eqb m "ceil"); [discriminate | discriminate Hm]. }
    destruct (math1 o m); [reflexivity | contradiction].
  - apply andb_true_iff in Hr as [Hr Hb']. apply andb_true_iff in Hr as [Hm Ha].
    rewrite IHa, IHb by assumption.
    destruct (eval second properties consts a) as [x |]; [| reflexivity].
    destruct (eval second properties consts b) as [y |]; [| reflexivity].
    unfold math2. now rewrite Hm.
Qed.

Lemma declare_reads_only_params (decls : list (string * Expression)) :
  forall (names : list string) (consts : list (string * Value N)),
    declarations_read_only_params names decls = true ->
    binds names consts ->
    declare first properties consts decls = declare second properties consts decls.
Proof.
  induction decls as [| [x init] rest IH]; intros names consts Hr Hb;
    cbn [declare declarations_read_only_params] in *; [reflexivity |].
  apply andb_true_iff in Hr as [Hinit Hrest].
  rewrite (eval_reads_only_params _ Hinit Hb).
  destruct (eval second properties consts init) as [v |]; [| reflexivity].
  apply (IH (x :: names)); [assumption | now apply binds_declare].
Qed.

(** A body that reads only [params] passes the same record to [setResults]
    in any two worlds. *)
Lemma run_body_reads_only_params (body : Body) :
  body_reads_only_params body = true ->
  run_body first properties body = run_body second properties body.
Proof.
  unfold body_reads_only_params, run_body. intros Hr.
  apply andb_true_iff in Hr as [Hr _]. apply andb_true_iff in Hr as [Hdecls _].
  rewrite (declare_reads_only_params _ (names := []) (consts := []) Hdecls);
    [reflexivity |].
  intros x Hx. discriminate Hx.
Qed.

End ReadingOnlyParams.

(** The text of each calculator denotes the calculator. *)
Lemma texts_denote_calculators (N : Type) (A : Arith N) (M : MathLib N)
    (w : World N) :
  (forall p : LinkBudgetParams N,
      run_body w (LinkBudgetParams_properties p) calculateLinkBudget_text
      = Some (LinkBudgetResults_properties (calculateLinkBudget p)))
  /\ (forall p : CellularParams N,
        run_body w (CellularParams_properties p) calculateCellular_text
        = Some (CellularResults_properties (calculateCellular p)))
  /\ (forall p : WirelessParams N,
        run_body w (WirelessParams_properties p) calculateRates_text
        = Some (WirelessResults_properties (calculateRates p)))
  /\ (forall p : OFDMParams N,
        run_body w (OFDMParams_properties p) calculateOFDM_text
        = Some (OFDMResults_properties (calculateOFDM p))).
Proof.
  repeat split; intros p; reflexivity.
Qed.

(** Not every body reads only [params]: one that draws a random number and
    reads the record stored before passes different records to [setResults]
    in different worlds. *)
Lemma noisy_text_depends_on_the_world :
  body_reads_only_params noisy_text = false
  /\ run_body (M := float_MathLib reference_library) quiet_world
       (WirelessParams_properties (digital_chain_scenario 64000%float 4%float))
       noisy_text
     <> run_body (M := float_MathLib reference_library) other_world
          (WirelessParams_properties (digital_chain_scenario 64000%float 4%float))
          noisy_text.
Proof.
  split; [reflexivity |].
  intros H.
  apply (f_equal (fun record =>
                    match record with
                    | Some ((_, VNumber x) :: _) => PrimFloat.eqb x 0
                    | _ => false
                    end)) in H.
  vm_compute in H. discriminate H.
Qed.

(** C8: invoking a calculator twice with the same parameter record yields
    identical result records (for doubles, the same doubles), whatever else
    has changed between the two invocations: the text of each of the four
    calculators reads nothing but [params], the constants it has declared
    and the functions log10, log2, pow, sqrt and ceil of [Math] (which are
    functions of their arguments); it reads no other variable or property
    and calls nothing else, so there is no hidden state and no randomness;
    and the record it passes to [setResults] is the calculator's function of
    the parameter record. *)
Theorem C8_deterministic :
  (body_reads_only_params calculateLinkBudget_text = true
   /\ body_reads_only_params calculateCellular_text = true
   /\ body_reads_only_params calculateRates_text = true
   /\ body_reads_only_params calculateOFDM_text = true)
  /\ forall (N : Type) (A : Arith N) (M : MathLib N) (first second : World N),
      (forall p : LinkBudgetParams N,
          run_body first (LinkBudgetParams_properties p) calculateLinkBudget_text
          = Some (LinkBudgetResults_properties (calculateLinkBudget p))
          /\ run_body second (LinkBudgetParams_properties p) calculateLinkBudget_text
             = run_body first (LinkBudgetParams_properties p) calculateLinkBudget_text)
      /\ (forall p : CellularParams N,
            run_body first (CellularParams_properties p) calculateCellular_text
            = Some (CellularResults_properties (calculateCellular p))
            /\ run_body second (CellularParams_properties p) calculateCellular_text
               = run_body first (CellularParams_properties p) calculateCellular_text)
      /\ (forall p : WirelessParams N,
            run_body first (WirelessParams_properties p) calculateRates_text
            = Some (WirelessResults_properties (calculateRates p))
            /\ run_body second (WirelessParams_properties p) calculateRates_text
               = run_body first (WirelessParams_properties p) calculateRates_text)
      /\ (forall p : OFDMParams N,
            run_body first (OFDMParams_properties p) calculateOFDM_text
            = Some (OFDMResults_properties (calculateOFDM p))
            /\ run_body second (OFDMParams_properties p) calculateOFDM_text
               = run_body first (OFDMParams_properties p) calculateOFDM_text).
Proof.
  split; [repeat split |].
  intros N A M first second.
  destruct (texts_denote_calculators A M first) as (Hl & Hc & Hr & Ho).
  repeat split; try (intros p; first [apply Hl | apply Hc | apply Hr | apply Ho]);
    apply run_body_reads_only_params; reflexivity.
Qed.

(** ** The explanation client *)

Section ExplanationClient.
Local Open Scope string_scope.

Lemma ok_iff (response : Response) :
  ok response = true <-> (200 <= status response <= 299)%nat.
Proof.
  unfold ok. rewrite andb_true_iff, !Nat.leb_le. tauto.
Qed.

(** On a reply of the documented shape the optional chain of the source
    reads the first candidate's first text part. *)
Lemma text_path_first_text_part (data t : json) :
  first_text_part data = Some t -> text_path data = Normal (Some t).
Proof.
  unfold first_text_part, text_path.
  destruct data as [| | | | | top]; try discriminate.
  cbn [Js.member].
  destruct (Js.assoc "candidates" top) as [[| | | | [| [| | | | | candidate] ?] |] |];
    try discriminate.
  cbn [Js.opt_chain Js.index0 nth_error Js.member].
  destruct (Js.assoc "content" candidate) as [[| | | | | content] |];
    try discriminate.
  cbn [Js.opt_chain Js.member].
  destruct (Js.assoc "parts" content) as [[| | | | [| [| | | | | part] ?] |] |];
    try discriminate.
  cbn [Js.opt_chain Js.index0 nth_error Js.member].
  intros ->. reflexivity.
Qed.

Lemma text_path_not_null (data : json) :
  data <> JNull -> exists found, text_path data = Normal found.
Proof.
  intros Hnn. destruct data; try (eexists; reflexivity). contradiction.
Qed.

(** C9, as the specification states it, fails on the code in two places.  A
    2xx reply whose JSON body is [null] has no text part, yet the client
    raises the error toast and leaves the explanation as it was instead of
    storing the fallback; and a reply whose first text part is the empty
    string has that part replaced by the fallback. *)
Lemma C9_null_body_and_empty_text :
  (ok reply_null = true
   /\ parsed reply_null = inr JNull
   /\ first_text_part JNull = None
   /\ getExplanation waiting (Resolved reply_null)
      = ({| apiKey := "key"; explanation := JStr EmptyString; isLoading := false |},
         {| title := "Error"; description := null_data_message;
            destructive := true |}))
  /\ (ok reply_empty_text = true
      /\ (exists data, parsed reply_empty_text = inr data
                       /\ first_text_part data = Some (JStr EmptyString))
      /\ explanation (fst (getExplanation waiting (Resolved reply_empty_text)))
         = JStr "No explanation available.").
Proof.
  split; [repeat split |].
  split; [reflexivity |].
  split; [eexists; split; reflexivity | reflexivity].
Qed.

(** C9, amended: a reply is 2xx when its status is between 200 and 299; on
    a 2xx reply whose parsed JSON body is not [null], the
    stored explanation is the value found along candidates[0].content
    .parts[0].text when that value is truthy (in particular the first
    candidate's first text part, when it is a non-empty string) and the
    literal "No explanation available." when nothing is found there or the
    value is falsy (such as the empty string); on a reply that is not 2xx
    nothing is stored and the error toast carries "API request failed with
    status <status>: <body>". *)
Theorem C9_explanation_of_reply :
  (forall response : Response,
      ok response = true <-> (200 <= status response <= 299)%nat)
  /\ (forall (st : AIState) (response : Response),
      ok response = false ->
      getExplanation st (Resolved response)
      = ({| apiKey := apiKey st; explanation := explanation st;
            isLoading := false |},
         {| title := "Error";
            description :=
              "API request failed with status "
              ++ show_status (status response) ++ ": " ++ text response;
            destructive := true |}))
  /\ (forall (st : AIState) (response : Response) (data : json),
        ok response = true -> parsed response = inr data -> data <> JNull ->
        exists found : option json,
          text_path data = Normal found
          /\ getExplanation st (Resolved response)
             = ({| apiKey := apiKey st;
                   explanation :=
                     match found with
                     | Some v => if Js.truthy v then v else no_explanation
                     | None => no_explanation
                     end;
                   isLoading := false |},
                {| title := "AI Explanation Generated";
                   description :=
                     "The AI has provided a detailed explanation of your calculations.";
                   destructive := false |}))
  /\ (forall (st : AIState) (response : Response) (data : json) (s : string),
        ok response = true -> parsed response = inr data ->
        first_text_part data = Some (JStr s) -> s <> EmptyString ->
        explanation (fst (getExplanation st (Resolved response))) = JStr s)
  /\ (forall (st : AIState) (response : Response) (data : json),
        ok response = true -> parsed response = inr data -> data <> JNull ->
        text_path data = Normal None ->
        explanation (fst (getExplanation st (Resolved response)))
        = JStr "No explanation available.").
Proof.
  split; [exact ok_iff |].
  split; [| split; [| split]].
  - intros st response Hok. unfold getExplanation, explanation_of.
    rewrite Hok. reflexivity.
  - intros st response data Hok Hparsed Hnn.
    destruct (text_path_not_null Hnn) as [found Hfound].
    exists found. split; [exact Hfound |].
    unfold getExplanation, explanation_of.
    rewrite Hok, Hparsed, Hfound. cbn. destruct found; reflexivity.
  - intros st response data s Hok Hparsed Hfirst Hs.
    apply text_path_first_text_part in Hfirst.
    unfold getExplanation, explanation_of.
    rewrite Hok, Hparsed, Hfirst. cbn.
    destruct (String.eqb_spec s EmptyString); [contradiction | reflexivity].
  - intros st response data Hok Hparsed Hnn Hnone.
    unfold getExplanation, explanation_of.
    rewrite Hok, Hparsed, Hnone. reflexivity.
Qed.

(** The theorem at a refusal, at a reply of the documented shape, and at a
    reply without candidates. *)
Lemma C9_replies :
  snd (getExplanation waiting (Resolved reply_forbidden))
  = {| title := "Error";
       description := "API request failed with status 403: API key not valid";
       destructive := true |}
  /\ explanation (fst (getExplanation waiting (Resolved reply_ok)))
     = JStr "The link closes with margin."
  /\ explanation (fst (getExplanation waiting (Resolved reply_no_candidates)))
     = JStr "No explanation available.".
Proof.
  destruct C9_explanation_of_reply as (_ & Hfail & _ & Htext & Habsent).
  split; [| split].
  - rewrite (Hfail waiting reply_forbidden); reflexivity.
  - apply (Htext waiting reply_ok
             (reply_with_text (JStr "The link closes with margin."))).
    + reflexivity.
    + reflexivity.
    + reflexivity.
    + discriminate.
  - apply (Habsent waiting reply_no_candidates (JObj [])).
    + reflexivity.
    + reflexivity.
    + discriminate.
    + reflexivity.
Defined.

End ExplanationClient.
(** ** Spectrum efficiency and the channel count *)

Section SpectrumEfficiency.
Local Open Scope R_scope.








End SpectrumEfficiency.
(** * Further properties of the components *)

(** ** Link budget on doubles: a distance of zero or below *)

Section LinkBudgetOnDoubles.
Variable engine : Libm.
Hypothesis Hlog : log_by_the_standard (libm_log10 engine).
Let calculate := calculateLinkBudget (M := float_MathLib engine).

Lemma loss_at_zero (p : LinkBudgetParams float) :
  PrimFloat.is_zero (distance p) = true \/ PrimFloat.is_zero (lb_frequency p) = true ->
  minus_infinity_or_nan (freeSpaceLoss (calculate p)) = true.
Proof.
  destruct Hlog as (_ & _ & _ & Hzero & _). intros Hz.
  unfold calculate, calculateLinkBudget. cbn [freeSpaceLoss].
  cbn [add sub mul div gtb lit log10 float_Arith float_MathLib].
  apply add_minus_infinity_l. destruct Hz as [Hd | Hf].
  - apply add_minus_infinity_l. rewrite (Hzero _ Hd). reflexivity.
  - apply add_minus_infinity_r. rewrite (Hzero _ Hf). reflexivity.
Qed.

Lemma loss_below_zero (p : LinkBudgetParams float) :
  PrimFloat.ltb (distance p) 0 = true \/ PrimFloat.ltb (lb_frequency p) 0 = true ->
  PrimFloat.is_nan (freeSpaceLoss (calculate p)) = true.
Proof.
  destruct Hlog as (_ & _ & _ & _ & Hneg). intros Hn.
  unfold calculate, calculateLinkBudget. cbn [freeSpaceLoss].
  cbn [add sub mul div gtb lit log10 float_Arith float_MathLib].
  apply add_nan_l. destruct Hn as [Hd | Hf].
  - apply add_nan_l, mul_nan_r. now apply Hneg.
  - apply add_nan_r, mul_nan_r. now apply Hneg.
Qed.

Lemma margin_of_loss (p : LinkBudgetParams float) :
  let r := calculate p in
  receivedPower r
  = (eirp r - freeSpaceLoss r + receiverGain p - systemLoss p)%float
  /\ linkMargin r
     = (receivedPower r - receiverSensitivity p - fadeMargin p)%float
  /\ isLinkViable r = F64.gtb (linkMargin r) (F64.lit 0).
Proof. repeat split. Qed.

End LinkBudgetOnDoubles.

(** X3: On doubles, for every library whose Math.log10 returns the special
    values of the language standard and for every parameter record: a
    distance or frequency of zero makes the free-space loss minus infinity or
    NaN and received power and margin plus infinity or NaN, and the link is
    reported viable exactly when the margin is plus infinity, which it is
    when the loss is minus infinity and the radiated power, the receiver
    gain, the system loss, the receiver sensitivity and the fade margin are
    finite; a negative distance or frequency makes loss, received power and
    margin NaN, and the link is reported not viable. *)
Theorem X3_zero_or_negative_distance (engine : Libm) (p : LinkBudgetParams float) :
  log_by_the_standard (libm_log10 engine) ->
  let r := calculateLinkBudget (M := float_MathLib engine) p in
  (PrimFloat.is_zero (distance p) = true \/ PrimFloat.is_zero (lb_frequency p) = true ->
   minus_infinity_or_nan (freeSpaceLoss r) = true
   /\ plus_infinity_or_nan (receivedPower r) = true
   /\ plus_infinity_or_nan (linkMargin r) = true
   /\ isLinkViable r = PrimFloat.eqb (linkMargin r) infinity
   /\ (freeSpaceLoss r = neg_infinity ->
       PrimFloat.is_finite (eirp r) = true ->
       PrimFloat.is_finite (receiverGain p) = true ->
       PrimFloat.is_finite (systemLoss p) = true ->
       PrimFloat.is_finite (receiverSensitivity p) = true ->
       PrimFloat.is_finite (fadeMargin p) = true ->
       linkMargin r = infinity /\ isLinkViable r = true))
  /\ (PrimFloat.ltb (distance p) 0 = true \/ PrimFloat.ltb (lb_frequency p) 0 = true ->
      PrimFloat.is_nan (freeSpaceLoss r) = true
      /\ PrimFloat.is_nan (receivedPower r) = true
      /\ PrimFloat.is_nan (linkMargin r) = true
      /\ isLinkViable r = false).
Proof.
  intros Hlog. cbv zeta.
  destruct (margin_of_loss engine p) as (Hrp & Hlm & Hv).
  split.
  - intros Hz. pose proof (@loss_at_zero engine Hlog p Hz) as Hfsl.
    assert (Hrp' : plus_infinity_or_nan
              (receivedPower (calculateLinkBudget (M := float_MathLib engine) p)) = true).
    { rewrite Hrp. apply sub_plus_infinity_l, add_plus_infinity_l.
      now apply sub_minus_infinity_r. }
    assert (Hlm' : plus_infinity_or_nan
              (linkMargin (calculateLinkBudget (M := float_MathLib engine) p)) = true).
    { rewrite Hlm. now do 2 apply sub_plus_infinity_l. }
    repeat split; try assumption.
    + rewrite Hv. now apply gtb_zero_plus_infinity_or_nan.
    + rewrite Hlm, Hrp, H. rewrite sub_finite_minus_infinity by assumption.
      rewrite add_infinity_finite by (reflexivity || assumption).
      rewrite (@sub_infinity_finite infinity (systemLoss p))
        by (reflexivity || assumption).
      rewrite (@sub_infinity_finite infinity (receiverSensitivity p))
        by (reflexivity || assumption).
      rewrite (@sub_infinity_finite infinity (fadeMargin p))
        by (reflexivity || assumption).
      reflexivity.
    + rewrite Hv, Hlm, Hrp, H. rewrite sub_finite_minus_infinity by assumption.
      rewrite add_infinity_finite by (reflexivity || assumption).
      rewrite (@sub_infinity_finite infinity (systemLoss p))
        by (reflexivity || assumption).
      rewrite (@sub_infinity_finite infinity (receiverSensitivity p))
        by (reflexivity || assumption).
      rewrite (@sub_infinity_finite infinity (fadeMargin p))
        by (reflexivity || assumption).
      reflexivity.
  - intros Hn. pose proof (@loss_below_zero engine Hlog p Hn) as Hfsl.
    assert (Hrp' : PrimFloat.is_nan
              (receivedPower (calculateLinkBudget (M := float_MathLib engine) p)) = true).
    { rewrite Hrp. apply sub_nan_l, add_nan_l. now apply sub_nan_r. }
    assert (Hlm' : PrimFloat.is_nan
              (linkMargin (calculateLinkBudget (M := float_MathLib engine) p)) = true).
    { rewrite Hlm. now do 2 apply sub_nan_l. }
    repeat split; try assumption.
    rewrite Hv. now apply gtb_nan.
Qed.

(** The theorem at the defaults of the component with a distance of 0 and of
    -1, on the reference library. *)
Lemma X3_at_zero_and_below :
  (linkMargin (calculateLinkBudget (M := float_MathLib reference_library)
                 (link_budget_at 0%float)) = infinity
   /\ isLinkViable (calculateLinkBudget (M := float_MathLib reference_library)
                      (link_budget_at 0%float)) = true)
  /\ PrimFloat.is_nan
       (linkMargin (calculateLinkBudget (M := float_MathLib reference_library)
                      (link_budget_at (-1)%float))) = true.
Proof.
  pose proof (proj1 reference_library_by_the_standard) as Hlog.
  split.
  - apply (proj1 (@X3_zero_or_negative_distance reference_library
                    (link_budget_at 0%float) Hlog)); try reflexivity.
    left. reflexivity.
  - apply (proj2 (@X3_zero_or_negative_distance reference_library
                    (link_budget_at (-1)%float) Hlog)).
    left. reflexivity.
Defined.

(** ** Digital chain: the guard time *)

Section DigitalChainOrder.
Local Open Scope R_scope.

(** X6: A burst length of -8.25 divides by zero in the last step: the burst
    formatter rate is infinite or NaN, whatever the other parameters are. *)
Theorem X6_burst_length_cancels_guard (p : WirelessParams num) :
  burstLength p = Fin (-8.25) ->
  nonfinite (burstFormatterRate (calculateRates p)).
Proof.
  intros Hbl. unfold calculateRates. cbn [burstFormatterRate].
  cbn [add sub mul div lit num_Arith]. rewrite Hbl, lit_fin.
  cbn [Ideal.add]. apply mul_nonfinite_r, div_by_zero_nonfinite. lra.
Qed.

(** The theorem at the default chain with that burst length. *)
Lemma X6_default_chain_without_burst :
  nonfinite (burstFormatterRate
               (calculateRates (chain 64000 8000 8 0.5 0.75 4 (-8.25)))).
Proof.
  apply X6_burst_length_cancels_guard. reflexivity.
Defined.

End DigitalChainOrder.
(** ** OFDM on doubles: a modulation order of 1 *)

(** X8: On doubles, for every library whose Math.log2 returns the special
    values of the language standard: with a modulation order of 1 every
    result is a zero or NaN, never a rate; all five are zero when the coding
    rate, the symbols per millisecond 1000 / (symbolDuration * (1 +
    cyclicPrefixRatio)) and the three counts are finite and the bandwidth is
    neither zero nor NaN, and all five are NaN when the symbols per
    millisecond are infinite or NaN. *)
Theorem X8_order_one_carries_nothing (engine : Libm) (p : OFDMParams float) :
  log_by_the_standard (libm_log2 engine) ->
  modulationOrder p = 1%float ->
  let r := calculateOFDM (M := float_MathLib engine) p in
  let symbols :=
    (F64.lit 1000 / (symbolDuration p * (F64.lit 1 + cyclicPrefixRatio p)))%float in
  (zero_or_nan (resourceElementRate r) = true
   /\ zero_or_nan (ofdmSymbolRate r) = true
   /\ zero_or_nan (resourceBlockRate r) = true
   /\ zero_or_nan (maxTransmissionCapacity r) = true
   /\ zero_or_nan (spectralEfficiency r) = true)
  /\ (PrimFloat.is_finite (codingRate p) = true ->
      PrimFloat.is_finite symbols = true ->
      PrimFloat.is_finite (resourceElementsPerSymbol p) = true ->
      PrimFloat.is_finite (symbolsPerResourceBlock p) = true ->
      PrimFloat.is_finite (resourceBlocksParallel p) = true ->
      zero_or_nan (bandwidth p) = false ->
      PrimFloat.is_zero (resourceElementRate r) = true
      /\ PrimFloat.is_zero (ofdmSymbolRate r) = true
      /\ PrimFloat.is_zero (resourceBlockRate r) = true
      /\ PrimFloat.is_zero (maxTransmissionCapacity r) = true
      /\ PrimFloat.is_zero (spectralEfficiency r) = true)
  /\ (infinite_or_nan symbols = true ->
      PrimFloat.is_nan (resourceElementRate r) = true
      /\ PrimFloat.is_nan (ofdmSymbolRate r) = true
      /\ PrimFloat.is_nan (resourceBlockRate r) = true
      /\ PrimFloat.is_nan (maxTransmissionCapacity r) = true
      /\ PrimFloat.is_nan (spectralEfficiency r) = true).
Proof.
  intros (_ & _ & Hone & _ & _) Hm. cbv zeta.
  unfold calculateOFDM, bitsPerResourceElement.
  cbn [resourceElementRate ofdmSymbolRate resourceBlockRate
       maxTransmissionCapacity spectralEfficiency].
  cbn [add sub mul div lit log2 float_Arith float_MathLib].
  rewrite Hm, Hone.
  set (symbols := (F64.lit 1000
                   / (symbolDuration p * (F64.lit 1 + cyclicPrefixRatio p)))%float).
  assert (Hbits : zero_or_nan (0 * codingRate p) = true)
    by now apply mul_zero_or_nan_l.
  split; [| split].
  - repeat split;
      repeat first [ exact Hbits | apply div_zero_or_nan_l | apply mul_zero_or_nan_l ].
  - intros Hcr Hsym Hre Hsy Hrb Hbw.
    assert (H0 : PrimFloat.is_zero (0 * codingRate p) = true)
      by now apply mul_zero_finite.
    assert (H1 : PrimFloat.is_zero (0 * codingRate p * symbols) = true)
      by now apply mul_zero_finite.
    assert (H2 : PrimFloat.is_zero
              (0 * codingRate p * symbols * resourceElementsPerSymbol p) = true)
      by now apply mul_zero_finite.
    assert (H3 : PrimFloat.is_zero
              (0 * codingRate p * symbols * resourceElementsPerSymbol p
               * symbolsPerResourceBlock p) = true)
      by now apply mul_zero_finite.
    assert (H4 : PrimFloat.is_zero
              (0 * codingRate p * symbols * resourceElementsPerSymbol p
               * symbolsPerResourceBlock p * resourceBlocksParallel p) = true)
      by now apply mul_zero_finite.
    repeat split; try assumption. now apply div_zero_nonzero.
  - intros Hsym.
    assert (H1 : PrimFloat.is_nan (0 * codingRate p * symbols) = true)
      by now apply mul_zero_or_nan_infinite.
    repeat split;
      repeat first [ exact H1 | apply div_nan_l | apply mul_nan_l ].
Qed.

(** The theorem at the defaults of the component with order 1, on the
    reference library. *)
Lemma X8_default_ofdm_order_one :
  PrimFloat.is_zero
    (maxTransmissionCapacity
       (calculateOFDM (M := float_MathLib reference_library) (ofdm_at 1%float)))
  = true.
Proof.
  pose proof (proj1 (proj2 reference_library_by_the_standard)) as Hlog.
  assert (Hm : modulationOrder (N := float) (ofdm_at 1%float) = 1%float)
    by reflexivity.
  apply (proj1 (proj2 (@X8_order_one_carries_nothing reference_library
                         (ofdm_at 1%float) Hlog Hm))); reflexivity.
Defined.


(** ** OFDM: a symbol time of zero *)

Section OFDMRates.
Local Open Scope R_scope.

(** X10: A symbol duration of zero, or a cyclic prefix ratio of -1, divides by
    zero: every field of the result is infinite or NaN, whatever the other
    parameters are. *)
Theorem X10_zero_symbol_time (p : OFDMParams num) :
  symbolDuration p = Fin 0 \/ cyclicPrefixRatio p = Fin (-1) ->
  let r := calculateOFDM p in
  nonfinite (resourceElementRate r) /\ nonfinite (ofdmSymbolRate r)
  /\ nonfinite (resourceBlockRate r) /\ nonfinite (maxTransmissionCapacity r)
  /\ nonfinite (spectralEfficiency r).
Proof.
  intros Hz. cbv zeta. unfold calculateOFDM, bitsPerResourceElement.
  cbn [resourceElementRate ofdmSymbolRate resourceBlockRate
       maxTransmissionCapacity spectralEfficiency].
  cbn [add sub mul div lit log2 num_Arith num_MathLib].
  set (time := Ideal.mul (symbolDuration p)
                 (Ideal.add (Ideal.lit 1) (cyclicPrefixRatio p))).
  assert (Hq : nonfinite (Ideal.div (Ideal.lit 1000) time)).
  { assert (Htime : time = NaN \/ exists y, time = Fin y /\ y = 0).
    { subst time. rewrite lit_fin. destruct Hz as [-> | ->].
      - destruct (cyclicPrefixRatio p) as [| | | c]; cbn [Ideal.add Ideal.mul];
          unfold Ideal.scale_inf; rewrite ?sgn_zero; auto.
        right. eexists. split; [reflexivity | lra].
      - cbn [Ideal.add].
        replace (1 / 1 + -1) with 0 by lra.
        destruct (symbolDuration p) as [| | | s]; cbn [Ideal.mul];
          unfold Ideal.scale_inf; rewrite ?sgn_zero; auto.
        right. eexists. split; [reflexivity | lra]. }
    destruct Htime as [-> | (y & -> & Hy)].
    - reflexivity.
    - now apply div_by_zero_nonfinite. }
  assert (Hrate : nonfinite
            (Ideal.mul (Ideal.mul (Ideal.log2 (modulationOrder p)) (codingRate p))
               (Ideal.div (Ideal.lit 1000) time)))
    by now apply mul_nonfinite_r.
  repeat split; try assumption;
    repeat first [ assumption | apply div_nonfinite_l | apply mul_nonfinite_l ].
Qed.

(** The theorem at the defaults of the component with a zero duration. *)
Lemma X10_default_ofdm_zero_duration :
  nonfinite (spectralEfficiency
               (calculateOFDM (ofdm 15000 0 0.07 12 14 100 4 0.5 20000000))).
Proof.
  apply (X10_zero_symbol_time (ofdm 15000 0 0.07 12 14 100 4 0.5 20000000)).
  left. reflexivity.
Defined.

End OFDMRates.
(** ** Cellular design on doubles: no traffic, no area, negative traffic *)

Section CellularOnDoubles.
Variable engine : Libm.
Variable p : CellularParams float.

Let r := calculateCellular (M := float_MathLib engine) p.

Lemma cellular_chain :
  trafficePerCell r
  = (trafficDensity p * callDuration p / F64.lit 3600 / numberOfCells r)%float
  /\ channelsPerCell r
     = F64.ceil (trafficePerCell r + F64.lit 3 * PrimFloat.sqrt (trafficePerCell r)
                 + F64.lit 2)%float
  /\ cellCapacity r
     = (channelsPerCell r * (F64.lit 1 - blockingProbability p))%float
  /\ spectrumEfficiency r
     = (cellCapacity r / (channelsPerCell r * F64.lit 0.2))%float.
Proof. repeat split. Qed.

Lemma cells_of_no_area :
  PrimFloat.is_zero (coverageArea p) = true ->
  zero_or_nan (numberOfCells r) = true.
Proof.
  intros Hz. unfold r, calculateCellular. cbn [numberOfCells].
  cbn [add sub mul div lit pow ceil float_Arith float_MathLib].
  apply ceil_zero_or_nan, div_zero_or_nan_l.
  unfold zero_or_nan. now rewrite Hz.
Qed.

End CellularOnDoubles.



(** X13: On doubles, for every library and record: with a coverage area of
    zero the number of cells is zero or NaN, traffic per cell, channels per
    cell and cell capacity are infinite or NaN, and the spectrum efficiency
    is NaN. *)
Theorem X13_no_area_no_cells (engine : Libm) (p : CellularParams float) :
  PrimFloat.is_zero (coverageArea p) = true ->
  let r := calculateCellular (M := float_MathLib engine) p in
  zero_or_nan (numberOfCells r) = true
  /\ infinite_or_nan (trafficePerCell r) = true
  /\ infinite_or_nan (channelsPerCell r) = true
  /\ infinite_or_nan (cellCapacity r) = true
  /\ PrimFloat.is_nan (spectrumEfficiency r) = true.
Proof.
  intros Hz. cbv zeta.
  destruct (cellular_chain engine p) as (Ht & Hc & Hk & He).
  pose proof (cells_of_no_area engine p Hz) as Hcells.
  assert (Htraffic : infinite_or_nan
            (trafficePerCell (calculateCellular (M := float_MathLib engine) p)) = true).
  { rewrite Ht. now apply div_by_zero_or_nan. }
  assert (Hchannels : plus_infinity_or_nan
            (channelsPerCell (calculateCellular (M := float_MathLib engine) p)) = true).
  { rewrite Hc. now apply ceil_plus_infinity_or_nan, channels_of_infinite_or_nan. }
  assert (Hcapacity : infinite_or_nan
            (cellCapacity (calculateCellular (M := float_MathLib engine) p)) = true).
  { rewrite Hk. now apply mul_infinite_or_nan_l, plus_infinity_is_infinite. }
  repeat split; try assumption.
  - now apply plus_infinity_is_infinite.
  - rewrite He. now apply efficiency_of_infinite_or_nan.
Qed.

(** The theorem at a design of unit radius without area, on the reference
    library. *)
Lemma X13_unit_radius_without_area :
  PrimFloat.is_nan
    (spectrumEfficiency
       (calculateCellular (M := float_MathLib reference_library)
          (unit_radius_design 0%float (F64.lit 15)))) = true.
Proof.
  apply (@X13_no_area_no_cells reference_library
           (unit_radius_design 0%float (F64.lit 15))).
  reflexivity.
Defined.

(** X15: On doubles, for every library and record: whenever the traffic per
    cell comes out negative, its square root is NaN and so are the channels
    per cell, the cell capacity and the spectrum efficiency. *)
Theorem X15_negative_traffic_is_nan (engine : Libm) (p : CellularParams float) :
  let r := calculateCellular (M := float_MathLib engine) p in
  PrimFloat.ltb (trafficePerCell r) 0 = true ->
  PrimFloat.is_nan (channelsPerCell r) = true
  /\ PrimFloat.is_nan (cellCapacity r) = true
  /\ PrimFloat.is_nan (spectrumEfficiency r) = true.
Proof.
  cbv zeta. intros Hneg.
  destruct (cellular_chain engine p) as (Ht & Hc & Hk & He).
  assert (Hchannels : PrimFloat.is_nan
            (channelsPerCell (calculateCellular (M := float_MathLib engine) p)) = true).
  { rewrite Hc. apply ceil_nan, add_nan_l, add_nan_r, mul_nan_r.
    now apply sqrt_negative. }
  assert (Hcapacity : PrimFloat.is_nan
            (cellCapacity (calculateCellular (M := float_MathLib engine) p)) = true).
  { rewrite Hk. now apply mul_nan_l. }
  repeat split; try assumption. rewrite He. now apply div_nan_l.
Qed.

(** The theorem at a design of unit radius with a traffic density of -15,
    on the reference library. *)
Lemma X15_unit_radius_negative_density :
  PrimFloat.is_nan
    (channelsPerCell
       (calculateCellular (M := float_MathLib reference_library)
          (unit_radius_design (F64.lit 2.598) (-15)%float))) = true.
Proof.
  apply (@X15_negative_traffic_is_nan reference_library
           (unit_radius_design (F64.lit 2.598) (-15)%float)).
  reflexivity.
Defined.

(** ** The text fields *)

Section TextFields.
Local Open Scope string_scope.

Lemma or_zero_not_nan (x : num) : not_nan (Text.or_zero x) = true.
Proof.
  destruct x as [| | | v]; try reflexivity.
  unfold Text.or_zero. destruct (Ideal.sgn v); reflexivity.
Qed.

Lemma or_zero_nan : Text.or_zero NaN = Fin 0.
Proof. unfold Text.or_zero. apply lit_zero. Qed.

Lemma link_budget_form_laws : form_laws link_budget_form.
Proof.
  split.
  - intros [] v p; reflexivity.
  - intros [] [] v p Hne; try reflexivity; contradiction.
Qed.

Lemma cellular_form_laws : form_laws cellular_form.
Proof.
  split.
  - intros [] v p; reflexivity.
  - intros [] [] v p Hne; try reflexivity; contradiction.
Qed.

Lemma wireless_form_laws : form_laws wireless_form.
Proof.
  split.
  - intros [] v p; reflexivity.
  - intros [] [] v p Hne; try reflexivity; contradiction.
Qed.

Lemma ofdm_form_laws : form_laws ofdm_form.
Proof.
  split.
  - intros [] v p; reflexivity.
  - intros [] [] v p Hne; try reflexivity; contradiction.
Qed.

Section AnyPage.
Context {F P R : Type}.
Variable form : Form F P.
Variable calculate : P -> R.
Variable title : string.
Hypothesis laws : form_laws form.
Hypothesis field_eq_dec : forall a b : F, {a = b} + {a <> b}.

Lemma step_keeps_numbers (st : Component P R) (event : Event F) :
  every_field form not_nan (params st) ->
  every_field form not_nan (params (step form calculate title st event)).
Proof.
  intros Hinv. destruct event as [| field value |]; cbn.
  - exact Hinv.
  - intros other. destruct (field_eq_dec other field) as [-> | Hne].
    + rewrite (proj1 laws). apply or_zero_not_nan.
    + rewrite (proj2 laws) by assumption. apply Hinv.
  - destruct (results st); exact Hinv.
Qed.

Lemma run_keeps_numbers (events : list (Event F)) (st : Component P R) :
  every_field form not_nan (params st) ->
  every_field form not_nan (params (run form calculate title st events)).
Proof.
  revert st. induction events as [| event events IH]; intros st Hinv.
  - exact Hinv.
  - cbn. apply IH. now apply step_keeps_numbers.
Qed.

End AnyPage.

Lemma link_field_eq_dec (a b : LinkBudgetField) : {a = b} + {a <> b}.
Proof. decide equality. Qed.

Lemma cellular_field_eq_dec (a b : CellularField) : {a = b} + {a <> b}.
Proof. decide equality. Qed.

Lemma wireless_field_eq_dec (a b : WirelessField) : {a = b} + {a <> b}.
Proof. decide equality. Qed.

Lemma ofdm_field_eq_dec (a b : OFDMField) : {a = b} + {a <> b}.
Proof. decide equality. Qed.

(** X16: On each of the four pages, whatever is typed into the fields and
    whatever is clicked, no field of the parameter record is ever NaN: the
    calculators are never given a NaN by the form. *)
Theorem X16_fields_never_nan :
  (forall events,
      every_field link_budget_form not_nan
        (params (run link_budget_form calculateLinkBudget
                   "Link Budget Calculation Complete"
                   (opened link_budget_scenario) events)))
  /\ (forall events,
        every_field cellular_form not_nan
          (params (run cellular_form calculateCellular
                     "Cellular Design Complete"
                     (opened (cellular_defaults (Fin 900) (Fin 3.5))) events)))
  /\ (forall events,
        every_field wireless_form not_nan
          (params (run wireless_form calculateRates "Calculation Complete"
                     (opened wireless_defaults) events)))
  /\ (forall events,
        every_field ofdm_form not_nan
          (params (run ofdm_form calculateOFDM "OFDM Calculation Complete"
                     (opened (ofdm_scenario (Fin 15000))) events))).
Proof.
  split; [| split; [| split]]; intros events.
  - apply run_keeps_numbers;
      [exact link_budget_form_laws | exact link_field_eq_dec |].
    intros []; reflexivity.
  - apply run_keeps_numbers;
      [exact cellular_form_laws | exact cellular_field_eq_dec |].
    intros []; reflexivity.
  - apply run_keeps_numbers;
      [exact wireless_form_laws | exact wireless_field_eq_dec |].
    intros []; reflexivity.
  - apply run_keeps_numbers;
      [exact ofdm_form_laws | exact ofdm_field_eq_dec |].
    intros []; reflexivity.
Qed.

End TextFields.

Section ReadingNumbers.
Local Open Scope string_scope.
Import DecimalString.

Lemma digits_of_uint (d : Decimal.uint) (rest : string) (acc count : nat) :
  ends_a_number rest = true ->
  Text.digits (NilEmpty.string_of_uint d ++ rest) (N.of_nat acc) count
  = (N.of_nat (Nat.of_uint_acc d acc), (count + Decimal.nb_digits d)%nat, rest).
Proof.
  intros Hrest. revert acc count.
  induction d as [| d IH | d IH | d IH | d IH | d IH | d IH | d IH | d IH | d IH | d IH];
    intros acc count.
  1: { cbn [NilEmpty.string_of_uint append Nat.of_uint_acc Decimal.nb_digits].
       rewrite Nat.add_0_r.
       destruct rest as [| c rest']; [reflexivity |].
       cbn [Text.digits]. unfold ends_a_number in Hrest.
       destruct (Text.digit_of c); [discriminate | reflexivity]. }
  all: cbn [NilEmpty.string_of_uint append Nat.of_uint_acc Decimal.nb_digits
            Text.digits];
    match goal with
    | |- context [Text.digit_of ?c] =>
        let v := eval vm_compute in (Text.digit_of c) in
        change (Text.digit_of c) with v
    end;
    cbv beta iota;
    match goal with
    | |- Text.digits _ ?value _ = (N.of_nat (Nat.of_uint_acc _ ?next), _, _) =>
        replace value with (N.of_nat next)
          by (rewrite ?Nat.tail_mul_spec; unfold Nat.tail_mul;
              rewrite ?Nat.tail_addmul_spec; lia)
    end;
    rewrite IH; f_equal; f_equal; lia.
Qed.

Lemma trim_start_blank (before t : string) :
  blank before = true -> Text.trim_start (before ++ t) = Text.trim_start t.
Proof.
  induction before as [| c before IH]; intros Hb; [reflexivity |].
  cbn in Hb |- *. apply andb_true_iff in Hb as [Hc Hrest].
  rewrite Hc. now apply IH.
Qed.

Lemma digits_count (s : string) (value : N) (count : nat) :
  (count <= snd (fst (Text.digits s value count)))%nat.
Proof.
  revert value count.
  induction s as [| c s IH]; intros value count; cbn [Text.digits].
  - apply Nat.le_refl.
  - destruct (Text.digit_of c) as [d |]; [| apply Nat.le_refl].
    specialize (IH (10 * value + d)%N (S count)). lia.
Qed.

Lemma exponent_part_none (after : string) :
  ends_a_number after = true ->
  Text.exponent_part after = 0%Z
  /\ match after with String "." _ => False | _ => True end.
Proof.
  destruct after as [| c after]; [intros _; split; [reflexivity | exact I] |].
  unfold ends_a_number, Text.exponent_part.
  destruct (Text.digit_of c); [discriminate |].
  intros H. apply negb_true_iff in H.
  apply orb_false_iff in H as [H He'].
  apply orb_false_iff in H as [Hdot He].
  rewrite He, He'. split; [reflexivity |].
  destruct c as [[] [] [] [] [] [] [] []]; try exact I. discriminate Hdot.
Qed.

(** Reading a text that starts, after white space and an optional minus
    sign, with a run of digits followed by something that ends a number. *)
Lemma read_float_digits (before rest after : string) (c : ascii) (d value : N)
    (count : nat) :
  blank before = true ->
  Text.digit_of c = Some d ->
  Text.digits (String c rest) 0 0 = (value, count, after) ->
  ends_a_number after = true ->
  Text.read_float (before ++ String c rest)
  = Text.Number false (Text.Decimal value 0)
  /\ Text.read_float (before ++ String "-" (String c rest))
     = Text.Number true (Text.Decimal value 0).
Proof.
  intros Hblank Hdigit Hdigits Hafter.
  assert (Hcount : (count =? 0)%nat = false).
  { apply Nat.eqb_neq. pose proof (digits_count (String c rest) 0 0) as Hle.
    rewrite Hdigits in Hle. cbn [Text.digits] in Hdigits, Hle.
    rewrite Hdigit in Hdigits.
    pose proof (digits_count rest (10 * 0 + d)%N 1) as Hle'.
    rewrite Hdigits in Hle'. cbn in Hle'. lia. }
  destruct (exponent_part_none after Hafter) as [Hexp Hnodot].
  assert (Hunsigned : Text.unsigned_literal (String c rest)
                      = Some (Text.Decimal value 0)).
  { unfold Text.unsigned_literal.
    assert (Hprefix : String.prefix "Infinity" (String c rest) = false).
    { destruct c as [[] [] [] [] [] [] [] []]; try discriminate Hdigit; reflexivity. }
    rewrite Hprefix, Hdigits, Hcount, Hexp.
    destruct after as [| a after']; [reflexivity |].
    destruct a as [[] [] [] [] [] [] [] []]; try reflexivity.
    contradiction. }
  unfold Text.read_float. rewrite !trim_start_blank by assumption.
  split.
  - assert (Htrim : Text.trim_start (String c rest) = String c rest).
    { destruct c as [[] [] [] [] [] [] [] []]; try discriminate Hdigit; reflexivity. }
    rewrite Htrim.
    assert (Hsign : (let '(negative, unsigned) :=
                       match String c rest with
                       | String "-" r => (true, r)
                       | String "+" r => (false, r)
                       | _ => (false, String c rest)
                       end in
                     match Text.unsigned_literal unsigned with
                     | Some v => Text.Number negative v
                     | None => Text.NotANumber
                     end)
                    = match Text.unsigned_literal (String c rest) with
                      | Some v => Text.Number false v
                      | None => Text.NotANumber
                      end).
    { destruct c as [[] [] [] [] [] [] [] []]; try discriminate Hdigit; reflexivity. }
    rewrite Hsign, Hunsigned. reflexivity.
  - change (Text.trim_start (String "-" (String c rest)))
      with (String "-" (String c rest)).
    cbv beta iota. rewrite Hunsigned. reflexivity.
Qed.

Lemma decimal_text_head (d : Decimal.uint) :
  exists (c : ascii) (rest : string) (k : N),
    NilZero.string_of_uint d = String c rest /\ Text.digit_of c = Some k
    /\ exists d' : Decimal.uint,
        NilZero.string_of_uint d = NilEmpty.string_of_uint d'
        /\ Nat.of_uint d' = Nat.of_uint d.
Proof.
  destruct d.
  1: { do 3 eexists. split; [reflexivity | split; [reflexivity |]].
       exists (Decimal.D0 Decimal.Nil). split; reflexivity. }
  all: do 3 eexists; (split; [reflexivity | split; [reflexivity |]]);
    match goal with
    | |- exists d', NilZero.string_of_uint ?x = _ /\ _ =>
        exists x; split; reflexivity
    end.
Qed.

Lemma lit_of_nat (n : nat) :
  Ideal.lit (Text.decimal_value (N.of_nat n) 0) = Fin (INR n)
  /\ Ideal.lit (Qopp (Text.decimal_value (N.of_nat n) 0)) = Fin (- INR n).
Proof.
  unfold Text.decimal_value, Qopp. cbn [Qnum Qden]. rewrite !lit_fin.
  rewrite Z.pow_0_r, Z.mul_1_r, nat_N_Z, opp_IZR, <- INR_IZR_INZ.
  split; f_equal; lra.
Qed.

(** X17: A whole number up to 2^53 (every one of which is a double) written in
    decimal digits is read as that number, whatever white space comes before
    it and whatever text that cannot continue the number comes after it;
    with a minus sign before the digits it is read as the negative number.
    The field stores what was read. *)
Theorem X17_whole_numbers_are_read (n : nat) (before after : string) :
  (Z.of_nat n <= 2 ^ 53)%Z ->
  blank before = true -> ends_a_number after = true ->
  Text.parseFloat (before ++ show_status n ++ after) = Fin (INR n)
  /\ Text.or_zero (Text.parseFloat (before ++ show_status n ++ after))
     = Fin (INR n)
  /\ Text.parseFloat (before ++ String "-" (show_status n ++ after))
     = Fin (- INR n).
Proof.
  intros _ Hblank Hafter. unfold show_status.
  destruct (decimal_text_head (Nat.to_uint n))
    as (c & rest & k & Hhead & Hdigit & d' & Hd' & Hvalue).
  assert (Hdigits : Text.digits (String c rest ++ after) 0 0
                    = (N.of_nat n, (0 + Decimal.nb_digits d')%nat, after)).
  { rewrite <- Hhead, Hd'. change 0%N with (N.of_nat 0).
    rewrite (digits_of_uint d' after 0 0 Hafter).
    do 2 f_equal. fold (Nat.of_uint d'). rewrite Hvalue.
    now rewrite DecimalNat.Unsigned.of_to. }
  rewrite Hhead.
  destruct (read_float_digits before (rest ++ after) c Hblank Hdigit Hdigits Hafter)
    as [Hplus Hminus].
  destruct (lit_of_nat n) as [Hlit Hneg].
  assert (Hread : Text.parseFloat (before ++ String c rest ++ after) = Fin (INR n)).
  { unfold Text.parseFloat. cbn [append] in Hplus |- *. now rewrite Hplus. }
  split; [exact Hread | split].
  - rewrite Hread. unfold Text.or_zero.
    destruct (sgn_cases (INR n)) as [[_ ->] | [[Hz ->] | [_ ->]]];
      try reflexivity.
    rewrite lit_zero, Hz. reflexivity.
  - unfold Text.parseFloat. cbn [append] in Hminus |- *. now rewrite Hminus.
Qed.

(** The theorem at the text " 2400 MHz". *)
Lemma X17_reads_2400 :
  Text.parseFloat (" " ++ show_status 2400 ++ " MHz") = Fin (INR 2400).
Proof.
  apply (X17_whole_numbers_are_read 2400 " " " MHz"); [lia | reflexivity ..].
Defined.

(** X18: Text that does not start (after white space) with a digit, a sign, a dot
    or the letter I is no number, and the field stores 0: so do the empty
    text and text of white space only. *)
Theorem X18_text_without_number_is_zero (s : string) :
  starts_like_a_number s = false ->
  Text.parseFloat s = NaN /\ Text.or_zero (Text.parseFloat s) = Fin 0.
Proof.
  intros Hstart.
  assert (Hnan : Text.parseFloat s = NaN).
  { unfold Text.parseFloat, Text.read_float. unfold starts_like_a_number in Hstart.
    destruct (Text.trim_start s) as [| c rest]; [reflexivity |].
    destruct (Text.digit_of c) eqn:Hd; [discriminate |].
    apply orb_false_iff in Hstart as [Hstart HI].
    apply orb_false_iff in Hstart as [Hstart Hdot].
    apply orb_false_iff in Hstart as [Hplus Hminus].
    assert (Hsign : (let '(negative, unsigned) :=
                       match String c rest with
                       | String "-" r => (true, r)
                       | String "+" r => (false, r)
                       | _ => (false, String c rest)
                       end in
                     match Text.unsigned_literal unsigned with
                     | Some v => Text.Number negative v
                     | None => Text.NotANumber
                     end)
                    = match Text.unsigned_literal (String c rest) with
                      | Some v => Text.Number false v
                      | None => Text.NotANumber
                      end).
    { destruct c as [[] [] [] [] [] [] [] []]; try reflexivity; discriminate. }
    rewrite Hsign.
    assert (Hnone : Text.unsigned_literal (String c rest) = None).
    { unfold Text.unsigned_literal.
      assert (Hprefix : String.prefix "Infinity" (String c rest) = false).
      { destruct c as [[] [] [] [] [] [] [] []]; try reflexivity; discriminate HI. }
      rewrite Hprefix. cbn [Text.digits]. rewrite Hd.
      destruct c as [[] [] [] [] [] [] [] []]; try reflexivity; discriminate Hdot. }
    now rewrite Hnone. }
  split; [exact Hnan |]. rewrite Hnan. apply or_zero_nan.
Qed.

(** The theorem at the empty text and at a word. *)
Lemma X18_empty_and_word :
  Text.or_zero (Text.parseFloat EmptyString) = Fin 0
  /\ Text.or_zero (Text.parseFloat "abc") = Fin 0.
Proof.
  split.
  - apply (X18_text_without_number_is_zero EmptyString). reflexivity.
  - apply (X18_text_without_number_is_zero "abc"). reflexivity.
Defined.

End ReadingNumbers.

(** ** The scenario pages: what the results stand for *)

Section PageTraces.
Context {F P R : Type}.
Variable form : Form F P.
Variable calculate : P -> R.
Variable title : string.

Lemma run_app (st : Component P R) (first second : list (Event F)) :
  run form calculate title st (first ++ second)
  = run form calculate title (run form calculate title st first) second.
Proof. unfold run. apply fold_left_app. Qed.

Lemma edits_keep_results (events : list (Event F)) (st : Component P R) :
  forallb (fun e => negb (is_calculate e)) events = true ->
  results (run form calculate title st events) = results st.
Proof.
  unfold run. revert st.
  induction events as [| event events IH]; intros st Hno; [reflexivity |].
  cbn [forallb] in Hno. apply andb_true_iff in Hno as [Hevent Hrest].
  cbn [fold_left]. rewrite IH by assumption.
  destruct event as [| field value |]; [discriminate | reflexivity |].
  destruct st as [p [r |] flag]; reflexivity.
Qed.

(** X19: The results on a page are those of the parameter record as it was at the
    last click on Calculate: edits of the fields and toggles of the panel
    after that click leave the results as they are, so that the explanation
    panel can be given edited parameters beside results computed from the
    earlier ones. *)
Theorem X19_results_of_the_last_calculation
    (st : Component P R) (later : list (Event F)) :
  forallb (fun e => negb (is_calculate e)) later = true ->
  results (run form calculate title st (Calculate :: later))
  = Some (calculate (params st))
  /\ (forall field value,
         showAI st = false ->
         panel (run form calculate title st
                  [Calculate; ToggleAI; Edit field value])
         = Some (set_field form field (Text.or_zero (Text.parseFloat value))
                   (params st),
                 calculate (params st))).
Proof.
  intros Hlater. split.
  - change (Calculate :: later) with ([Calculate] ++ later).
    rewrite run_app, edits_keep_results by assumption. reflexivity.
  - intros field value Hflag. unfold panel. cbn. rewrite Hflag. reflexivity.
Qed.

(** X20: From the page as it is opened: the results are absent exactly as long as
    Calculate was never clicked and are never cleared afterwards; the panel
    flag is set only when there are results; and the panel is rendered
    exactly when the flag is set. *)
Theorem X20_panel_needs_results (defaults : P) (events : list (Event F)) :
  let st := run form calculate title (opened defaults) events in
  (results st = None <-> forallb (fun e => negb (is_calculate e)) events = true)
  /\ (showAI st = true -> results st <> None)
  /\ (panel st <> None <-> showAI st = true).
Proof.
  cbv zeta.
  assert (Hinv : forall (es : list (Event F)) (st : Component P R),
             (showAI st = true -> results st <> None) ->
             let st' := run form calculate title st es in
             (showAI st' = true -> results st' <> None)
             /\ (results st' = None
                 <-> results st = None
                     /\ forallb (fun e => negb (is_calculate e)) es = true)).
  { induction es as [| event es IH]; intros st Hst; cbv zeta.
    - cbn. split; [exact Hst | tauto].
    - unfold run. cbn [fold_left].
      change (fold_left (step form calculate title) es
                (step form calculate title st event))
        with (run form calculate title (step form calculate title st event) es).
      assert (Hstep : showAI (step form calculate title st event) = true ->
                      results (step form calculate title st event) <> None).
      { destruct st as [p [r |] flag]; destruct event as [| field value |];
          cbn in *; intros H; try discriminate; auto. }
      destruct (IH _ Hstep) as [Hflag Hres]. cbv zeta in Hflag, Hres.
      split; [exact Hflag |].
      rewrite Hres. cbn [forallb].
      destruct st as [p [r |] flag]; destruct event as [| field value |];
        cbn; intuition discriminate. }
  destruct (Hinv events (opened defaults)) as [Hflag Hres];
    [cbn; discriminate |].
  cbv zeta in Hflag, Hres. split; [| split].
  - rewrite Hres. cbn. tauto.
  - exact Hflag.
  - unfold panel.
    destruct (showAI (run form calculate title (opened defaults) events)) eqn:E.
    + specialize (Hflag eq_refl).
      destruct (results (run form calculate title (opened defaults) events));
        [split; [reflexivity | discriminate] | contradiction].
    + split; [contradiction | discriminate].
Qed.

End PageTraces.

(** The theorem on the link-budget page: a calculation, then a new distance
    and a toggle of the panel. *)
Lemma X19_link_budget_after_edit :
  results (run link_budget_form calculateLinkBudget
             "Link Budget Calculation Complete"%string
             (opened link_budget_scenario)
             [Calculate; Edit LB_distance "20"%string; ToggleAI])
  = Some (calculateLinkBudget link_budget_scenario).
Proof.
  apply (X19_results_of_the_last_calculation link_budget_form
           calculateLinkBudget "Link Budget Calculation Complete"%string
           (opened link_budget_scenario)
           [Edit LB_distance "20"%string; ToggleAI]).
  reflexivity.
Defined.

(** The theorem on the link-budget page after a calculation and a toggle:
    the flag is set, so there are results. *)
Lemma X20_link_budget_panel_open :
  results (run link_budget_form calculateLinkBudget
             "Link Budget Calculation Complete"%string
             (opened link_budget_scenario) [Calculate; ToggleAI])
  <> None.
Proof.
  apply (proj1 (proj2 (X20_panel_needs_results link_budget_form
                         calculateLinkBudget
                         "Link Budget Calculation Complete"%string
                         link_budget_scenario [Calculate; ToggleAI]))).
  reflexivity.
Defined.

(** ** The explanation card *)

Section ExplanationCard.
Local Open Scope string_scope.

Lemma rev_onto_blank (s acc : string) :
  blank (Text.rev_onto s acc) = blank s && blank acc.
Proof.
  revert acc. induction s as [| c s IH]; intros acc; [reflexivity |].
  cbn [Text.rev_onto blank]. rewrite IH. cbn [blank].
  destruct (Text.is_whitespace c), (blank s), (blank acc); reflexivity.
Qed.

Lemma reverse_blank (s : string) : blank (Text.reverse s) = blank s.
Proof. unfold Text.reverse. rewrite rev_onto_blank. cbn. apply andb_true_r. Qed.

Lemma rev_onto_empty (s acc : string) :
  Text.rev_onto s acc = EmptyString -> s = EmptyString /\ acc = EmptyString.
Proof.
  revert acc. induction s as [| c s IH]; intros acc H; [now split |].
  cbn in H. apply IH in H as [_ H]. discriminate.
Qed.

Lemma trim_start_empty (s : string) :
  Text.trim_start s = EmptyString <-> blank s = true.
Proof.
  induction s as [| c s IH]; cbn; [tauto |].
  destruct (Text.is_whitespace c); cbn; [exact IH |].
  split; discriminate.
Qed.

Lemma trim_start_suffix_blank (s : string) :
  blank (Text.trim_start s) = blank s.
Proof.
  induction s as [| c s IH]; [reflexivity |]. cbn.
  destruct (Text.is_whitespace c) eqn:E; cbn; [exact IH | now rewrite E].
Qed.

(** [trim] leaves nothing exactly of the texts that are white space only. *)
Lemma trim_empty (s : string) :
  Text.trim s = EmptyString <-> blank s = true.
Proof.
  unfold Text.trim, Text.trim_end, Text.reverse. split.
  - intros H. apply rev_onto_empty in H as [H _].
    apply trim_start_empty in H. fold (Text.reverse (Text.trim_start s)) in H.
    now rewrite reverse_blank, trim_start_suffix_blank in H.
  - intros H.
    assert (Hstart : Text.trim_start s = EmptyString) by now apply trim_start_empty.
    rewrite Hstart. reflexivity.
Qed.

(** X21: A request is sent exactly when the key has a character that is not white
    space; then it goes to the endpoint with the key appended as typed, white
    space included, and the loading flag is set.  Whenever the button is
    enabled, a click sends a request; after "Generate New Explanation" the
    key is gone and the button is disabled. *)
Theorem X21_request_needs_a_key (st : AIState) :
  (blank (apiKey st) = true ->
   exists toast, startExplanation st = KeyRequired toast /\ destructive toast = true)
  /\ (blank (apiKey st) = false ->
      startExplanation st
      = Requested {| apiKey := apiKey st; explanation := explanation st;
                     isLoading := true |}
                  (endpoint ++ apiKey st))
  /\ (button_disabled st = false -> exists loading url,
         startExplanation st = Requested loading url)
  /\ button_disabled (generateNew st) = true.
Proof.
  assert (Hmissing : key_missing st = blank (apiKey st)).
  { unfold key_missing. destruct (blank (apiKey st)) eqn:E.
    - apply trim_empty in E. rewrite E. reflexivity.
    - apply String.eqb_neq. intros H. apply trim_empty in H. congruence. }
  unfold startExplanation, button_disabled. rewrite Hmissing.
  split; [| split; [| split]].
  - intros ->. eexists. split; reflexivity.
  - intros ->. reflexivity.
  - intros H. apply orb_false_iff in H as [_ ->]. do 2 eexists. reflexivity.
  - cbn. apply orb_true_r.
Qed.

(** The theorem at a key of spaces and at a key with spaces around it. *)
Lemma X21_keys_with_spaces :
  (exists toast,
      startExplanation {| apiKey := "   "; explanation := JStr EmptyString;
                          isLoading := false |}
      = KeyRequired toast)
  /\ (exists loading,
         startExplanation {| apiKey := " k "; explanation := JStr EmptyString;
                             isLoading := false |}
         = Requested loading (endpoint ++ " k ")).
Proof.
  split.
  - destruct (proj1 (X21_request_needs_a_key
                       {| apiKey := "   "; explanation := JStr EmptyString;
                          isLoading := false |}) eq_refl) as (toast & H & _).
    exists toast. exact H.
  - eexists.
    apply (proj1 (proj2 (X21_request_needs_a_key
                           {| apiKey := " k "; explanation := JStr EmptyString;
                              isLoading := false |}))).
    reflexivity.
Defined.

Lemma or_else_truthy (found : option json) :
  Js.truthy (Js.or_else found no_explanation) = true.
Proof.
  destruct found as [v |]; cbn; [| reflexivity].
  destruct (Js.truthy v) eqn:E; [exact E | reflexivity].
Qed.

(** X22: Whatever the reply, [getExplanation] ends with the loading flag off and
    the key as it was.  It either raises the destructive "Error" toast and
    keeps the explanation it had (a rejected request, a status outside 2xx,
    a body that is not JSON, a null body), or raises the other toast and
    stores an explanation that is truthy, so that the card switches from the
    key form to the explanation. *)
Theorem X22_every_reply_settles (st : AIState) (reply : fetched) :
  let st' := fst (getExplanation st reply) in
  let toast := snd (getExplanation st reply) in
  isLoading st' = false /\ apiKey st' = apiKey st
  /\ ((destructive toast = true /\ title toast = "Error"
       /\ explanation st' = explanation st)
      \/ (destructive toast = false /\ shows_explanation st' = true
          /\ shows_key_form st' = false)).
Proof.
  cbv zeta. unfold getExplanation.
  destruct (explanation_of reply) as [ai | message] eqn:E; cbn.
  - split; [reflexivity | split; [reflexivity |]]. right.
    assert (Htruthy : Js.truthy ai = true).
    { unfold explanation_of in E. destruct reply as [m | response]; [discriminate |].
      destruct (negb (ok response)); [discriminate |].
      destruct (parsed response) as [err | data]; [discriminate |].
      destruct (text_path data) as [found | m]; [| discriminate].
      injection E as <-. apply or_else_truthy. }
    unfold shows_explanation, shows_key_form. cbn. rewrite Htruthy.
    repeat split.
  - split; [reflexivity | split; [reflexivity |]]. left. repeat split.
Qed.

(** X23: Of a 2xx reply of the documented shape only the first part of the first
    candidate is read: what is stored is the [text] of that part if it is
    truthy and the fallback otherwise, whatever the other candidates, the
    other parts and the other properties are. *)
Theorem X23_only_the_first_part_is_read
    (st : AIState) (response : Response)
    (top candidate content : list (string * json))
    (part : json) (more_candidates more_parts : list json) :
  ok response = true ->
  parsed response = inr (JObj top) ->
  Js.assoc "candidates" top = Some (JArr (JObj candidate :: more_candidates)) ->
  Js.assoc "content" candidate = Some (JObj content) ->
  Js.assoc "parts" content = Some (JArr (part :: more_parts)) ->
  text_path (JObj top) = Normal (Js.opt_chain (Js.member "text") (Some part))
  /\ explanation (fst (getExplanation st (Resolved response)))
     = Js.or_else (Js.opt_chain (Js.member "text") (Some part)) no_explanation.
Proof.
  intros Hok Hparsed Hcandidates Hcontent Hparts.
  assert (Hpath : text_path (JObj top)
                  = Normal (Js.opt_chain (Js.member "text") (Some part))).
  { unfold text_path. cbn [Js.member]. rewrite Hcandidates.
    cbn [Js.opt_chain Js.index0 nth_error Js.member]. rewrite Hcontent.
    cbn [Js.opt_chain Js.member]. rewrite Hparts.
    cbn [Js.opt_chain Js.index0 nth_error]. reflexivity. }
  split; [exact Hpath |].
  unfold getExplanation, explanation_of. rewrite Hok, Hparsed, Hpath.
  reflexivity.
Qed.

(** The theorem at a reply with two candidates, the first with two parts. *)
Lemma X23_second_candidate_is_ignored :
  explanation (fst (getExplanation waiting (Resolved reply_two_candidates)))
  = JStr "first".
Proof.
  destruct (@X23_only_the_first_part_is_read waiting reply_two_candidates
              two_candidates first_candidate first_content first_part
              [JObj [("content", JNull)]] [JObj [("text", JStr "second")]]
              eq_refl eq_refl eq_refl eq_refl eq_refl) as [_ H].
  exact H.
Defined.

Lemma split_lines_nonempty (s : string) : Text.split_lines s <> [].
Proof.
  destruct s as [| c s]; cbn; [discriminate |].
  destruct (Ascii.eqb c "010"); [discriminate |].
  destruct (Text.split_lines s); discriminate.
Qed.

Lemma join_lines_cons (piece : string) (pieces : list string) :
  pieces <> [] ->
  Text.join_lines (piece :: pieces)
  = piece ++ String "010" (Text.join_lines pieces).
Proof. destruct pieces; [contradiction | reflexivity]. Qed.

Lemma join_split (s : string) : Text.join_lines (Text.split_lines s) = s.
Proof.
  induction s as [| c s IH]; [reflexivity |].
  cbn [Text.split_lines].
  destruct (Ascii.eqb c "010") eqn:E.
  - apply Ascii.eqb_eq in E. subst c.
    rewrite join_lines_cons by apply split_lines_nonempty.
    cbn. now rewrite IH.
  - pose proof (split_lines_nonempty s) as Hne.
    destruct (Text.split_lines s) as [| piece pieces]; [contradiction |].
    destruct pieces as [| next pieces].
    + cbn in IH |- *. now rewrite IH.
    + rewrite join_lines_cons in IH |- * by discriminate.
      cbn [append]. now rewrite IH.
Qed.

Lemma split_lines_length (s : string) :
  List.length (Text.split_lines s) = S (line_feeds s).
Proof.
  induction s as [| c s IH]; [reflexivity |].
  cbn [Text.split_lines line_feeds].
  destruct (Ascii.eqb c "010"); cbn [List.length Nat.add].
  - now rewrite IH.
  - pose proof (split_lines_nonempty s) as Hne.
    destruct (Text.split_lines s); [contradiction |]. cbn in IH |- *. exact IH.
Qed.

Lemma split_lines_no_feed (s : string) :
  Forall (fun piece => line_feeds piece = 0%nat) (Text.split_lines s).
Proof.
  induction s as [| c s IH]; [repeat constructor |].
  cbn [Text.split_lines].
  destruct (Ascii.eqb c "010") eqn:E; [constructor; [reflexivity | exact IH] |].
  destruct (Text.split_lines s) as [| piece pieces]; [repeat constructor; cbn; now rewrite E |].
  inversion IH as [| ? ? Hpiece Hrest]; subst.
  constructor; [cbn; now rewrite E | exact Hrest].
Qed.

(** X24: A text explanation is shown as one paragraph more than it has line
    feeds (so at least one), none of them containing a line feed, and
    joining the paragraphs with line feeds gives the explanation back. *)
Theorem X24_paragraphs_of_a_text (s : string) :
  exists pieces : list string,
    paragraphs (JStr s) = Normal pieces
    /\ List.length pieces = S (line_feeds s)
    /\ Forall (fun piece => line_feeds piece = 0%nat) pieces
    /\ Text.join_lines pieces = s.
Proof.
  exists (Text.split_lines s). split; [reflexivity |].
  split; [apply split_lines_length |].
  split; [apply split_lines_no_feed | apply join_split].
Qed.

(** X25: A 2xx reply whose first text part is a number other than zero, [true],
    an array or an object is stored as the explanation as it is, the card
    switches to the explanation panel, and rendering its paragraphs throws,
    because only a string can be split. *)
Theorem X25_text_that_is_no_string (st : AIState) (response : Response)
    (data value : json) :
  ok response = true -> parsed response = inr data ->
  first_text_part data = Some value ->
  Js.truthy value = true ->
  (forall s, value <> JStr s) ->
  let st' := fst (getExplanation st (Resolved response)) in
  explanation st' = value /\ shows_explanation st' = true
  /\ exists message, paragraphs (explanation st') = Throw message.
Proof.
  intros Hok Hparsed Hfirst Htruthy Hnostring. cbv zeta.
  apply text_path_first_text_part in Hfirst.
  assert (Hst : fst (getExplanation st (Resolved response))
                = {| apiKey := apiKey st; explanation := value;
                     isLoading := false |}).
  { unfold getExplanation, explanation_of. rewrite Hok, Hparsed, Hfirst.
    cbn [negb Js.or_else]. rewrite Htruthy. reflexivity. }
  rewrite Hst. unfold shows_explanation. cbn [explanation].
  split; [reflexivity | split; [exact Htruthy |]].
  destruct value; try (eexists; reflexivity).
  exfalso. eapply Hnostring. reflexivity.
Qed.

(** The theorem at a reply whose text part is the number 5. *)
Lemma X25_numeric_text :
  exists message,
    paragraphs
      (explanation
         (fst (getExplanation waiting
                 (Resolved {| status := 200; text := "{...}";
                              parsed := inr (reply_with_text (JNum 5%float)) |}))))
    = Throw message.
Proof.
  refine (proj2 (proj2 (X25_text_that_is_no_string waiting
                          {| status := 200; text := "{...}";
                             parsed := inr (reply_with_text (JNum 5%float)) |}
                          (data := reply_with_text (JNum 5%float))
                          (value := JNum 5%float) _ _ _ _ _))).
  - reflexivity.
  - reflexivity.
  - reflexivity.
  - reflexivity.
  - intros s. discriminate.
Defined.

End ExplanationCard.

(** ** The tabs *)

Section ActiveTab.
Local Open Scope string_scope.

Lemma highlighted_iff (a s : Scenario) :
  highlighted (scenario_id a) s = true <-> a = s.
Proof.
  destruct a, s; cbn; split; intros H; try reflexivity; discriminate.
Qed.

Lemma last_of_nonempty (x d d' : Scenario) (l : list Scenario) :
  last (x :: l) d = last (x :: l) d'.
Proof.
  revert x. induction l as [| y l IH]; intros x; [reflexivity |].
  change (last (x :: y :: l) d) with (last (y :: l) d).
  change (last (x :: y :: l) d') with (last (y :: l) d').
  apply IH.
Qed.

Lemma active_tab_is_the_last (clicks : list Scenario) (first : Scenario) :
  fold_left select clicks (scenario_id first) = scenario_id (last clicks first).
Proof.
  revert first. induction clicks as [| s clicks IH]; intros first; [reflexivity |].
  cbn [fold_left]. unfold select at 2. rewrite IH.
  destruct clicks as [| next clicks]; [reflexivity |].
  change (last (s :: next :: clicks) first) with (last (next :: clicks) first).
  f_equal. apply last_of_nonempty.
Qed.

(** X26: Whatever cards and tabs are clicked, exactly one of the four scenario
    cards is highlighted: the one clicked last, or the wireless one when
    nothing was clicked yet. *)
Theorem X26_one_card_is_highlighted (clicks : list Scenario) :
  let activeTab := fold_left select clicks initial_tab in
  (forall s, highlighted activeTab s = true <-> s = last clicks Wireless)
  /\ filter (highlighted activeTab) scenarios = [last clicks Wireless].
Proof.
  cbv zeta. change initial_tab with (scenario_id Wireless).
  rewrite active_tab_is_the_last.
  split.
  - intros s. rewrite highlighted_iff. split; intros H; now symmetry.
  - destruct (last clicks Wireless); reflexivity.
Qed.

End ActiveTab.
